(** * CSV-to-JSON converter ([csvToJson] of [src/App.tsx])

    A shallow embedding of the converter and of the ECMAScript built-ins it
    calls ([String.prototype.trim], [split], [toLowerCase], [Number],
    [isNaN], property assignment on an ordinary object and
    [JSON.stringify]), followed by the properties of the converter.

    Both views of the repository (the one with the toast hook and the one
    with the host theme) contain the same [csvToJson], statement for
    statement; one embedding serves both. *)

From Stdlib Require Import Strings.String Strings.Ascii.
From Stdlib Require Import ZArith NArith PArith Arith Bool Lia List.
From Stdlib Require Import Sorting.Permutation.
From Stdlib Require Import Floats.SpecFloat.
Import ListNotations.

(** ** ECMAScript strings

    A string value is a finite sequence of UTF-16 code units. *)

Definition code_unit := N.
Definition jsstring := list code_unit.

(** ASCII literal of the source text as a string value. *)
Definition lit (s : string) : jsstring :=
  List.map N_of_ascii (list_ascii_of_string s).
Arguments lit s%_string.

Definition LF : code_unit := 10%N.
Definition CR : code_unit := 13%N.
Definition COMMA : code_unit := 44%N.
Definition QUOTE : code_unit := 34%N.
Definition BACKSLASH : code_unit := 92%N.
Definition SPACE : code_unit := 32%N.

Fixpoint streq (a b : jsstring) : bool :=
  match a, b with
  | [], [] => true
  | x :: a', y :: b' => N.eqb x y && streq a' b'
  | _, _ => false
  end.

(** [length === 0], of a string or of an array. *)
Definition isEmpty {A : Type} (s : list A) : bool :=
  match s with [] => true | _ :: _ => false end.

(** WhiteSpace and LineTerminator code points (ECMA-262, 12.2 and 12.3):
    the characters removed by [trim] and skipped by [Number]. *)
Definition isWhiteSpace (c : code_unit) : bool :=
  ((9 <=? c) && (c <=? 13) || (c =? 32) || (c =? 160) || (c =? 5760)
   || (8192 <=? c) && (c <=? 8202) || (c =? 8232) || (c =? 8233)
   || (c =? 8239) || (c =? 8287) || (c =? 12288) || (c =? 65279))%N.

Fixpoint trimStart (s : jsstring) : jsstring :=
  match s with
  | [] => []
  | c :: r => if isWhiteSpace c then trimStart r else s
  end.

Definition trimEnd (s : jsstring) : jsstring := rev (trimStart (rev s)).

(** [String.prototype.trim] *)
Definition trim (s : jsstring) : jsstring := trimEnd (trimStart s).

(** [String.prototype.split] with a separator of one code unit and no
    limit; the result always has at least one element. *)
Fixpoint split (sep : code_unit) (s : jsstring) : list jsstring :=
  match s with
  | [] => [[]]
  | c :: r =>
      if N.eqb c sep then [] :: split sep r
      else match split sep r with
           | [] => [[c]]
           | h :: t => (c :: h) :: t
           end
  end.

(** [String.prototype.toLowerCase].  The Unicode case tables are not part of
    the repository.  The converter only compares the result with the ASCII
    literals ["true"], ["false"] and ["null"], and the only code points whose
    lower-case mapping contains one of the letters of these words are the
    Basic Latin capitals; the mapping is therefore tabulated on Basic Latin
    and is the identity elsewhere. *)
Definition lowerUnit (c : code_unit) : code_unit :=
  if ((65 <=? c) && (c <=? 90))%N then (c + 32)%N else c.

Definition toLowerCase (s : jsstring) : jsstring := List.map lowerUnit s.

(** ** Number values

    A Number is an IEEE 754 binary64 value, in the representation of the
    standard library's specification of floating-point arithmetic. *)

Definition number := spec_float.

Definition prec : Z := 53.
Definition emax : Z := 1024.

Definition isNaN (x : number) : bool :=
  match x with S754_nan => true | _ => false end.

Definition isFinite (x : number) : bool :=
  match x with S754_zero _ | S754_finite _ _ _ => true | _ => false end.

Definition number_eqb (x y : number) : bool :=
  match x, y with
  | S754_zero a, S754_zero b => Bool.eqb a b
  | S754_infinity a, S754_infinity b => Bool.eqb a b
  | S754_nan, S754_nan => true
  | S754_finite a m e, S754_finite b m' e' =>
      Bool.eqb a b && Pos.eqb m m' && Z.eqb e e'
  | _, _ => false
  end.

(** The Number nearest to [(-1)^neg * m * 10^e], ties to even
    (RoundMVResult; every digit of the literal is taken into account). *)
Definition roundDecimal (neg : bool) (m : N) (e : Z) : number :=
  match m with
  | N0 => S754_zero neg
  | Npos p =>
      if (0 <=? e)%Z then
        binary_normalize prec emax
          (if neg then Z.opp (Zpos p * 10 ^ e) else (Zpos p * 10 ^ e))%Z 0 neg
      else
        SFdiv prec emax (S754_finite neg p 0)
          (S754_finite false (Z.to_pos (10 ^ (- e))) 0)
  end.

(** *** StringToNumber (ECMA-262, 7.1.4.1) *)

Definition isDigit (c : code_unit) : bool := ((48 <=? c) && (c <=? 57))%N.

Fixpoint spanDigits (s : jsstring) : jsstring * jsstring :=
  match s with
  | [] => ([], [])
  | c :: r =>
      if isDigit c then let (d, t) := spanDigits r in (c :: d, t)
      else ([], s)
  end.

Definition digitsValue (ds : jsstring) : N :=
  fold_left (fun acc c => (acc * 10 + (c - 48))%N) ds 0%N.

(** The mathematical value of a StrNumericLiteral. *)
Inductive numeric_literal : Type :=
| LInfinity (neg : bool)
| LDecimal (neg : bool) (mantissa : N) (exponent : Z)
| LInteger (value : N).

(** ExponentPart_opt up to the end of the text. *)
Definition parseExponentPart (s : jsstring) : option Z :=
  match s with
  | [] => Some 0%Z
  | c :: r =>
      if ((c =? 101) || (c =? 69))%N then
        let '(neg, r') :=
          match r with
          | d :: t => if (d =? 43)%N then (false, t)
                      else if (d =? 45)%N then (true, t) else (false, r)
          | [] => (false, r)
          end in
        let (ds, rest) := spanDigits r' in
        if isEmpty ds || negb (isEmpty rest) then None
        else Some (if neg then (- Z.of_N (digitsValue ds))%Z
                   else Z.of_N (digitsValue ds))
      else None
  end.

(** StrUnsignedDecimalLiteral: [Infinity], [d.d?e?], [.de?] or [de?]. *)
Definition parseUnsignedDecimal (neg : bool) (s : jsstring)
  : option numeric_literal :=
  if streq s (lit "Infinity") then Some (LInfinity neg) else
  let (ip, r1) := spanDigits s in
  match r1 with
  | c :: r2 =>
      if (c =? 46)%N then
        let (fp, r3) := spanDigits r2 in
        if isEmpty ip && isEmpty fp then None
        else match parseExponentPart r3 with
             | Some e => Some (LDecimal neg (digitsValue (ip ++ fp))
                                 (e - Z.of_nat (length fp)))
             | None => None
             end
      else if isEmpty ip then None
      else match parseExponentPart r1 with
           | Some e => Some (LDecimal neg (digitsValue ip) e)
           | None => None
           end
  | [] => if isEmpty ip then None else Some (LDecimal neg (digitsValue ip) 0)
  end.

Definition radixDigit (c : code_unit) : option N :=
  if isDigit c then Some (c - 48)%N
  else if ((97 <=? c) && (c <=? 102))%N then Some (c - 87)%N
  else if ((65 <=? c) && (c <=? 70))%N then Some (c - 55)%N
  else None.

Fixpoint radixValue (radix : N) (s : jsstring) (acc : N) : option N :=
  match s with
  | [] => Some acc
  | c :: r =>
      match radixDigit c with
      | Some d => if (d <? radix)%N then radixValue radix r (acc * radix + d)%N
                  else None
      | None => None
      end
  end.

(** NonDecimalIntegerLiteral: [0b], [0o] or [0x] and at least one digit. *)
Definition parseNonDecimal (s : jsstring) : option numeric_literal :=
  match s with
  | z :: p :: d :: r =>
      if (z =? 48)%N then
        let radix :=
          if ((p =? 120) || (p =? 88))%N then Some 16%N
          else if ((p =? 111) || (p =? 79))%N then Some 8%N
          else if ((p =? 98) || (p =? 66))%N then Some 2%N
          else None in
        match radix with
        | Some b => option_map LInteger (radixValue b (d :: r) 0%N)
        | None => None
        end
      else None
  | _ => None
  end.

Definition parseNumericLiteral (s : jsstring) : option numeric_literal :=
  match parseNonDecimal s with
  | Some l => Some l
  | None =>
      match s with
      | c :: r =>
          if (c =? 43)%N then parseUnsignedDecimal false r
          else if (c =? 45)%N then parseUnsignedDecimal true r
          else parseUnsignedDecimal false s
      | [] => None
      end
  end.

Definition literalValue (l : numeric_literal) : number :=
  match l with
  | LInfinity neg => S754_infinity neg
  | LDecimal neg m e => roundDecimal neg m e
  | LInteger v => roundDecimal false v 0
  end.

(** [Number(value)] applied to a string. *)
Definition Number (str : jsstring) : number :=
  let text := trim str in
  if isEmpty text then S754_zero false
  else match parseNumericLiteral text with
       | Some l => literalValue l
       | None => S754_nan
       end.

(** *** Number::toString (ECMA-262, 6.1.6.1.20), radix 10 *)

Definition digitUnit (d : N) : code_unit := (48 + d)%N.

(** The [k] decimal digits of [s], most significant first. *)
Fixpoint digitsOf (k : nat) (s : N) : jsstring :=
  match k with
  | O => []
  | S k' => digitsOf k' (s / 10)%N ++ [digitUnit (s mod 10)%N]
  end.

Fixpoint decimalLength (fuel : nat) (n : N) : nat :=
  match fuel with
  | O => 1
  | S f => if (n <? 10)%N then 1 else S (decimalLength f (n / 10)%N)
  end.

(** Decimal representation of a non-negative integer. *)
Definition decimalOfN (n : N) : jsstring :=
  digitsOf (decimalLength (N.to_nat (N.size n)) n) n.

(** [x < 10^n] for the positive rational [x = num / den]. *)
Definition belowPow10 (num den n : Z) : bool :=
  (if 0 <=? n then num <? 10 ^ n * den else num * 10 ^ (- n) <? den)%Z.

(** The least [n], from [n0] on, with [num / den < 10^n]. *)
Fixpoint decimalExponent (fuel : nat) (num den n0 : Z) : Z :=
  match fuel with
  | O => n0
  | S f => if belowPow10 num den n0 then n0
           else decimalExponent f num den (n0 + 1)%Z
  end.

(** Quotient and remainder of [num / den] by [10^(n-k)]. *)
Definition scaleDigits (num den n : Z) (k : nat) : Z * Z * Z :=
  let d := (Z.of_nat k - n)%Z in
  let '(a, b) :=
    (if 0 <=? d then (num * 10 ^ d, den) else (num, den * 10 ^ (- d)))%Z in
  (a / b, a mod b, b)%Z.

(** A shortest digit string [s] (of [k] digits) and exponent [n] with
    [s * 10^(n-k)] rounding to [x = m * 2^e]; among the candidates of
    that length the one closest to [x], the even one on a tie. *)
Fixpoint shortestDigits (fuel : nat) (k : nat) (m : positive) (e : Z)
    (num den n : Z) : N * nat * Z :=
  let '(q, r, b) := scaleDigits num den n k in
  let lo := Z.to_N q in
  let hi := (lo + 1)%N in
  let '(hi', nhi) :=
    if (hi =? 10 ^ N.of_nat k)%N
    then ((10 ^ N.of_nat (k - 1))%N, (n + 1)%Z) else (hi, n) in
  let okLo := (10 ^ N.of_nat (k - 1) <=? lo)%N &&
    number_eqb (roundDecimal false lo (n - Z.of_nat k)) (S754_finite false m e) in
  let okHi :=
    number_eqb (roundDecimal false hi' (nhi - Z.of_nat k)) (S754_finite false m e) in
  let preferLo :=
    match (2 * r ?= b)%Z with
    | Lt => true
    | Gt => false
    | Eq => N.even lo
    end in
  if okLo && (negb okHi || preferLo) then (lo, k, n)
  else if okHi then (hi', k, nhi)
  else match fuel with
       | O => (lo, k, n)
       | S f => shortestDigits f (S k) m e num den n
       end.

Definition MINUS : code_unit := 45%N.
Definition PLUS : code_unit := 43%N.
Definition DOT : code_unit := 46%N.
Definition ZERO : code_unit := 48%N.

(** Steps 6 to 12 of Number::toString: layout of the digits [ds] of [s]
    ([k] of them) for the exponent [n]. *)
Definition layoutNumber (ds : jsstring) (k : nat) (n : Z) : jsstring :=
  let kz := Z.of_nat k in
  if ((kz <=? n) && (n <=? 21))%Z then
    ds ++ repeat ZERO (Z.to_nat (n - kz))
  else if ((0 <? n) && (n <=? 21))%Z then
    firstn (Z.to_nat n) ds ++ [DOT] ++ skipn (Z.to_nat n) ds
  else if ((-6 <? n) && (n <=? 0))%Z then
    [ZERO; DOT] ++ repeat ZERO (Z.to_nat (- n)) ++ ds
  else
    let ex := (n - 1)%Z in
    let sign := if (ex <? 0)%Z then MINUS else PLUS in
    let etext := [101%N; sign] ++ decimalOfN (Z.to_N (Z.abs ex)) in
    match ds with
    | [] => etext
    | d :: [] => d :: etext
    | d :: rest => d :: DOT :: rest ++ etext
    end.

Definition NumberToString (x : number) : jsstring :=
  match x with
  | S754_nan => lit "NaN"
  | S754_zero _ => lit "0"
  | S754_infinity neg => (if neg then [MINUS] else []) ++ lit "Infinity"
  | S754_finite neg m e =>
      let num := (Zpos m * 2 ^ Z.max e 0)%Z in
      let den := (2 ^ Z.max (- e) 0)%Z in
      let n := decimalExponent 640 num den (-324) in
      let '(s, k, n') := shortestDigits 16 1 m e num den n in
      (if neg then [MINUS] else []) ++ layoutNumber (digitsOf k s) k n'
  end.

(** ** Values and ordinary objects

    The values the converter stores in a record: after the coercions a cell
    is a Number, a Boolean, null or a String. *)

Inductive jsvalue : Type :=
| VNumber (x : number)
| VBoolean (b : bool)
| VNull
| VString (s : jsstring).

(** An ordinary object created by the literal [{}]: its own data properties
    in order of creation, and whether its prototype is still
    [Object.prototype] ([true]) or has been set to null ([false]). *)
Record object : Type := mkObject {
  inherits : bool;
  props : list (jsstring * jsvalue)
}.

Definition emptyObject : object := mkObject true [].

Definition PROTO : jsstring := lit "__proto__".

Fixpoint hasOwnProperty (k : jsstring) (ps : list (jsstring * jsvalue)) : bool :=
  match ps with
  | [] => false
  | (k', _) :: r => streq k' k || hasOwnProperty k r
  end.

Fixpoint writeOwn (k : jsstring) (v : jsvalue) (ps : list (jsstring * jsvalue))
  : list (jsstring * jsvalue) :=
  match ps with
  | [] => []
  | (k', v') :: r =>
      if streq k' k then (k', v) :: r else (k', v') :: writeOwn k v r
  end.

Fixpoint getOwn (k : jsstring) (ps : list (jsstring * jsvalue)) : option jsvalue :=
  match ps with
  | [] => None
  | (k', v) :: r => if streq k' k then Some v else getOwn k r
  end.

(** [obj[k] = v] (OrdinarySet).  An own property is overwritten in place.
    Otherwise the prototype chain is consulted: [Object.prototype] holds
    writable data properties, which the assignment shadows by a new own
    property, and one accessor, [__proto__], whose setter changes the
    prototype when [v] is an object or null and does nothing for another
    value.  With no prototype a new own property is created. *)
Definition assign (o : object) (k : jsstring) (v : jsvalue) : object :=
  if hasOwnProperty k (props o) then mkObject (inherits o) (writeOwn k v (props o))
  else if inherits o && streq k PROTO then
    match v with
    | VNull => mkObject false (props o)
    | _ => o
    end
  else mkObject (inherits o) (props o ++ [(k, v)]).

(** A property key that is an array index: the canonical decimal form of
    an integer below [2^32 - 1]. *)
Definition arrayIndex (k : jsstring) : option N :=
  match k with
  | [] => None
  | c :: r =>
      if forallb isDigit k && (isEmpty r || negb (c =? 48)%N)
         && (digitsValue k <? 4294967295)%N
      then Some (digitsValue k) else None
  end.

Fixpoint insertIndexed (i : N) (e : jsstring * jsvalue)
    (l : list (N * (jsstring * jsvalue))) : list (N * (jsstring * jsvalue)) :=
  match l with
  | [] => [(i, e)]
  | (j, e') :: r =>
      if (i <? j)%N then (i, e) :: l else (j, e') :: insertIndexed i e r
  end.

Fixpoint indexedEntries (ps : list (jsstring * jsvalue))
  : list (N * (jsstring * jsvalue)) :=
  match ps with
  | [] => []
  | (k, v) :: r =>
      match arrayIndex k with
      | Some i => insertIndexed i (k, v) (indexedEntries r)
      | None => indexedEntries r
      end
  end.

Definition namedEntries (ps : list (jsstring * jsvalue))
  : list (jsstring * jsvalue) :=
  filter (fun e => match arrayIndex (fst e) with Some _ => false | None => true end) ps.

(** EnumerableOwnProperties (OrdinaryOwnPropertyKeys): array indices in
    ascending numeric order, then the other keys in order of creation. *)
Definition ownEntries (o : object) : list (jsstring * jsvalue) :=
  List.map snd (indexedEntries (props o)) ++ namedEntries (props o).

Definition ownKeys (o : object) : list jsstring := List.map fst (ownEntries o).

(** ** JSON.stringify (ECMA-262, 25.5.2) *)

Definition hexDigit (d : N) : code_unit :=
  if (d <? 10)%N then (48 + d)%N else (87 + d)%N.

Definition UnicodeEscape (c : code_unit) : jsstring :=
  [BACKSLASH; 117%N; hexDigit ((c / 4096) mod 16)%N;
   hexDigit ((c / 256) mod 16)%N; hexDigit ((c / 16) mod 16)%N;
   hexDigit (c mod 16)%N].

Definition isLeadingSurrogate (c : code_unit) : bool :=
  ((55296 <=? c) && (c <=? 56319))%N.

Definition isTrailingSurrogate (c : code_unit) : bool :=
  ((56320 <=? c) && (c <=? 57343))%N.

(** One code unit that is not part of a surrogate pair. *)
Definition quoteUnit (c : code_unit) : jsstring :=
  if (c =? 8)%N then [BACKSLASH; 98%N]
  else if (c =? 9)%N then [BACKSLASH; 116%N]
  else if (c =? 10)%N then [BACKSLASH; 110%N]
  else if (c =? 12)%N then [BACKSLASH; 102%N]
  else if (c =? 13)%N then [BACKSLASH; 114%N]
  else if (c =? 34)%N then [BACKSLASH; QUOTE]
  else if (c =? 92)%N then [BACKSLASH; BACKSLASH]
  else if (c <? 32)%N || isLeadingSurrogate c || isTrailingSurrogate c
  then UnicodeEscape c
  else [c].

Fixpoint quoteUnits (s : jsstring) : jsstring :=
  match s with
  | [] => []
  | c :: r =>
      match r with
      | d :: r' =>
          if isLeadingSurrogate c && isTrailingSurrogate d
          then c :: d :: quoteUnits r'
          else quoteUnit c ++ quoteUnits r
      | [] => quoteUnit c
      end
  end.

Definition QuoteJSONString (s : jsstring) : jsstring :=
  [QUOTE] ++ quoteUnits s ++ [QUOTE].

Fixpoint join (sep : jsstring) (parts : list jsstring) : jsstring :=
  match parts with
  | [] => []
  | p :: r =>
      match r with
      | [] => p
      | _ :: _ => p ++ sep ++ join sep r
      end
  end.

(** SerializeJSONProperty on a value that is not an object. *)
Definition SerializeJSONValue (v : jsvalue) : jsstring :=
  match v with
  | VNull => lit "null"
  | VBoolean true => lit "true"
  | VBoolean false => lit "false"
  | VString s => QuoteJSONString s
  | VNumber x => if isFinite x then NumberToString x else lit "null"
  end.

Definition COLON : code_unit := 58%N.

(** SerializeJSONObject.  No record holds a callable [toJSON], so
    SerializeJSONProperty passes every property value on unchanged. *)
Definition SerializeJSONObject (indent gap : jsstring) (o : object) : jsstring :=
  let stepback := indent in
  let indent := indent ++ gap in
  let partial :=
    List.map (fun e : jsstring * jsvalue =>
           QuoteJSONString (fst e) ++ [COLON]
           ++ (if isEmpty gap then [] else [SPACE])
           ++ SerializeJSONValue (snd e)) (ownEntries o) in
  if isEmpty partial then lit "{}"
  else if isEmpty gap then lit "{" ++ join [COMMA] partial ++ lit "}"
  else lit "{" ++ [LF] ++ indent ++ join ([COMMA; LF] ++ indent) partial
       ++ [LF] ++ stepback ++ lit "}".

(** SerializeJSONArray on an array of records. *)
Definition SerializeJSONArray (indent gap : jsstring) (a : list object) : jsstring :=
  let stepback := indent in
  let indent := indent ++ gap in
  let partial := List.map (SerializeJSONObject indent gap) a in
  if isEmpty partial then lit "[]"
  else if isEmpty gap then lit "[" ++ join [COMMA] partial ++ lit "]"
  else lit "[" ++ [LF] ++ indent ++ join ([COMMA; LF] ++ indent) partial
       ++ [LF] ++ stepback ++ lit "]".

(** [JSON.stringify(a, null, space)] for a numeric [space]. *)
Definition JSON_stringify (a : list object) (space : nat) : jsstring :=
  SerializeJSONArray [] (repeat SPACE (Nat.min 10 space)) a.

(** ** Exceptions *)

(** A thrown value: an [Error] created by the converter, or the [TypeError]
    the engine raises on a property access on [undefined]. *)
Inductive exn : Type :=
| Error (message : jsstring)
| TypeError (message : jsstring).

(** [err.message] *)
Definition message (e : exn) : jsstring :=
  match e with Error m | TypeError m => m end.

(** The message of the [TypeError] for [undefined.property], in the wording
    of V8; the text is the engine's own. *)
Definition cannotRead (property : string) : jsstring :=
  lit "Cannot read properties of undefined (reading '" ++ lit property ++ lit "')".

Inductive result (A : Type) : Type :=
| Ok (a : A)
| Throw (e : exn).

Arguments Ok {A} a.
Arguments Throw {A} e.

Definition bind {A B : Type} (r : result A) (k : A -> result B) : result B :=
  match r with
  | Ok a => k a
  | Throw e => Throw e
  end.

Notation "x <- r ;; k" := (bind r (fun x => k))
  (at level 61, r at next level, right associativity).

(** ** The converter *)

Module App.

Definition sampleCsvData : jsstring := lit "name,age,email,city,occupation
John Doe,28,john.doe@email.com,New York,Software Engineer
Jane Smith,34,jane.smith@email.com,Los Angeles,Product Manager
Mike Johnson,25,mike.johnson@email.com,Chicago,Data Analyst
Sarah Williams,31,sarah.williams@email.com,San Francisco,UX Designer
David Brown,29,david.brown@email.com,Seattle,DevOps Engineer".

(** The type coercion of one cell (the body of the [forEach] callback
    between the read of [values[index]] and the assignment). *)
Definition coerce (value : jsstring) : jsvalue :=
  if negb (isNaN (Number value)) && negb (streq value (lit "")) then
    VNumber (Number value)
  else if streq (toLowerCase value) (lit "true")
          || streq (toLowerCase value) (lit "false") then
    VBoolean (streq (toLowerCase value) (lit "true"))
  else if streq (toLowerCase value) (lit "null") || streq value (lit "") then
    VNull
  else VString value.

(** One call of the callback of [headers.forEach].  Out of range
    [values[index]] is [undefined], on which [toLowerCase] throws. *)
Definition forEachBody (values : list jsstring) (obj : object)
    (header : jsstring) (index : nat) : result object :=
  match nth_error values index with
  | Some value => Ok (assign obj header (coerce value))
  | None => Throw (TypeError (cannotRead "toLowerCase"))
  end.

Fixpoint forEach (headers : list jsstring) (index : nat)
    (values : list jsstring) (obj : object) : result object :=
  match headers with
  | [] => Ok obj
  | header :: rest =>
      obj' <- forEachBody values obj header index ;;
      forEach rest (S index) values obj'
  end.

(** The message of the column-count error; the three numbers are integers
    below [2^32] and print in decimal. *)
Definition mismatchMessage (row observed expected : nat) : jsstring :=
  lit "Row " ++ decimalOfN (N.of_nat row) ++ lit " has "
  ++ decimalOfN (N.of_nat observed) ++ lit " columns, but header has "
  ++ decimalOfN (N.of_nat expected) ++ lit " columns".

(** The [for] loop over [lines[i]], [i] from 1: [rows] are the lines not
    yet visited, [i] the index of the first of them. *)
Fixpoint rowsLoop (headers : list jsstring) (rows : list jsstring) (i : nat)
    (jsonArray : list object) : result (list object) :=
  match rows with
  | [] => Ok jsonArray
  | line :: rest =>
      let values := List.map trim (split COMMA line) in
      if negb (length values =? length headers) then
        Throw (Error (mismatchMessage (i + 1) (length values) (length headers)))
      else
        obj <- forEach headers 0 values emptyObject ;;
        rowsLoop headers rest (S i) (jsonArray ++ [obj])
  end.

Definition emptyMessage : jsstring := lit "CSV input is empty".

Definition rowsMessage : jsstring :=
  lit "CSV must have at least a header row and one data row".

(** The document [jsonArray] at the [return] statement. *)
Definition csvToRecords (csv : jsstring) : result (list object) :=
  if isEmpty (trim csv) then Throw (Error emptyMessage)
  else
    let lines := split LF (trim csv) in
    if length lines <? 2 then Throw (Error rowsMessage)
    else
      match lines with
      | [] => Throw (TypeError (cannotRead "split"))
      | line0 :: _ =>
          let headers := List.map trim (split COMMA line0) in
          rowsLoop headers (skipn 1 lines) 1 []
      end.

Definition csvToJson (csv : jsstring) : result jsstring :=
  jsonArray <- csvToRecords csv ;;
  Ok (JSON_stringify jsonArray 2).

(** The state of the component: the four [useState] cells, and the
    descriptions of the toasts shown so far. *)
Record component : Type := mkComponent {
  csvInput : jsstring;
  jsonOutput : jsstring;
  error : jsstring;
  isLoading : bool;
  toasts : list jsstring
}.

Definition successToast : jsstring :=
  lit "CSV has been successfully converted to JSON".

Definition setJsonOutput (s : jsstring) (st : component) : component :=
  mkComponent (csvInput st) s (error st) (isLoading st) (toasts st).

Definition setError (s : jsstring) (st : component) : component :=
  mkComponent (csvInput st) (jsonOutput st) s (isLoading st) (toasts st).

Definition setIsLoading (b : bool) (st : component) : component :=
  mkComponent (csvInput st) (jsonOutput st) (error st) b (toasts st).

Definition toast (description : jsstring) (st : component) : component :=
  mkComponent (csvInput st) (jsonOutput st) (error st) (isLoading st)
    (toasts st ++ [description]).

(** [handleParse], from the click to the end of its [finally] block.  The
    delay before the conversion only postpones it; every thrown value is
    an instance of [Error], so the message shown is [err.message]. *)
Definition handleParse (st : component) : component :=
  let st := setIsLoading true st in
  let st := setError (lit "") st in
  let st :=
    match csvToJson (csvInput st) with
    | Ok result => toast successToast (setJsonOutput result st)
    | Throw err => setJsonOutput (lit "") (setError (message err) st)
    end in
  setIsLoading false st.

End App.

(** ** Specification-level notions *)

Definition isUpper (c : code_unit) : bool := ((65 <=? c) && (c <=? 90))%N.

(** Two code units that are equal, or the two cases of one Basic Latin
    letter. *)
Definition sameLetter (x y : code_unit) : bool :=
  (x =? y)%N || isUpper x && (x + 32 =? y)%N || isUpper y && (y + 32 =? x)%N.

(** Case-insensitive equality of two texts. *)
Fixpoint equalsIgnoreCase (a b : jsstring) : bool :=
  match a, b with
  | [], [] => true
  | x :: a', y :: b' => sameLetter x y && equalsIgnoreCase a' b'
  | _, _ => false
  end.

(** The cell parses as a number. *)
Definition parsesAsNumber (cell : jsstring) : bool := negb (isNaN (Number cell)).

(** The precedence of the type inference rules, as the specification lists
    them. *)
Definition coerce_spec (cell : jsstring) : jsvalue :=
  if negb (isEmpty cell) && parsesAsNumber cell then VNumber (Number cell)
  else if equalsIgnoreCase cell (lit "true") then VBoolean true
  else if equalsIgnoreCase cell (lit "false") then VBoolean false
  else if equalsIgnoreCase cell (lit "null") || isEmpty cell then VNull
  else VString cell.

(** Expected JSON text, written with an apostrophe for each double quote. *)
Definition json (s : string) : jsstring :=
  List.map (fun c => if (c =? 39)%N then QUOTE else c) (lit s).
Arguments json s%_string.

(** ** Validation, as the specification words it *)

Inductive failure : Type :=
| EmptyInput
| InsufficientRows
| ColumnMismatch (row observed expected : nat).

Definition failureMessage (f : failure) : jsstring :=
  match f with
  | EmptyInput => App.emptyMessage
  | InsufficientRows => App.rowsMessage
  | ColumnMismatch row observed expected =>
      App.mismatchMessage row observed expected
  end.

(** The first data line whose field count differs from [expected];
    [rowNumber] is the 1-based number of the first line of [rows]. *)
Fixpoint firstMismatch (expected : nat) (rows : list jsstring) (rowNumber : nat)
  : option failure :=
  match rows with
  | [] => None
  | line :: rest =>
      let observed := length (split COMMA line) in
      if observed =? expected then firstMismatch expected rest (S rowNumber)
      else Some (ColumnMismatch rowNumber observed expected)
  end.

(** The three checks in the order of the specification. *)
Definition validate (csv : jsstring) : option failure :=
  let text := trim csv in
  if isEmpty text then Some EmptyInput
  else
    let lines := split LF text in
    if length lines <? 2 then Some InsufficientRows
    else firstMismatch (length (split COMMA (hd [] lines))) (tl lines) 2.

(** The header names and the cells of a line. *)
Definition fieldsOf (line : jsstring) : list jsstring :=
  List.map trim (split COMMA line).

(** The cells of a line assigned to [obj] under their header names, from
    left to right. *)
Definition assignCells (cells : list (jsstring * jsstring)) (obj : object)
  : object :=
  fold_left (fun o hv => assign o (fst hv) (App.coerce (snd hv))) cells obj.

(** The record of a data line that has as many fields as the header. *)
Definition recordOf (headers : list jsstring) (line : jsstring) : object :=
  assignCells (combine headers (fieldsOf line)) emptyObject.

(** ** Line endings *)

(** The text with every line feed preceded by a carriage return. *)
Definition crlf (s : jsstring) : jsstring :=
  flat_map (fun c => if N.eqb c LF then [CR; LF] else [c]) s.

Fixpoint mapLast {A : Type} (f : A -> A) (l : list A) : list A :=
  match l with
  | [] => []
  | x :: r =>
      match r with
      | [] => [f x]
      | _ :: _ => x :: mapLast f r
      end
  end.

(** Every line but the last one followed by a carriage return. *)
Fixpoint withCR (lines : list jsstring) : list jsstring :=
  match lines with
  | [] => []
  | l :: r =>
      match r with
      | [] => [l]
      | _ :: _ => (l ++ [CR]) :: withCR r
      end
  end.

(** ** Records *)

(** The names of a header in order of first occurrence. *)
Definition addName (names : list jsstring) (k : jsstring) : list jsstring :=
  if existsb (fun n => streq n k) names then names else names ++ [k].

Definition distinctNames (headers : list jsstring) : list jsstring :=
  fold_left addName headers [].

Definition ownNames (ps : list (jsstring * jsvalue)) : list jsstring :=
  List.map fst ps.

(** *** Layout of the output *)

Definition layoutMember (e : jsstring * jsvalue) : jsstring :=
  lit "    " ++ QuoteJSONString (fst e) ++ lit ": " ++ SerializeJSONValue (snd e).

Definition layoutRecord (o : object) : jsstring :=
  if isEmpty (ownEntries o) then lit "  {}"
  else lit "  {" ++ [LF] ++ join [COMMA; LF] (List.map layoutMember (ownEntries o))
       ++ [LF] ++ lit "  }".

(** An array of records on two-space indentation: one member per line at
    depth two, the braces of a record at depth one. *)
Definition layoutDocument (doc : list object) : jsstring :=
  lit "[" ++ [LF] ++ join [COMMA; LF] (List.map layoutRecord doc)
  ++ [LF] ++ lit "]".

(** The units of a printed finite Number. *)
Definition isNumberUnit (c : code_unit) : bool :=
  isDigit c || N.eqb c DOT || N.eqb c 101%N || N.eqb c PLUS || N.eqb c MINUS.

(** The keys of every record of the document are enumerated in the order
    of the header (a repeated name at its first place). *)
Definition follows_header_order (csv : jsstring) : Prop :=
  forall doc, App.csvToRecords csv = Ok doc ->
    Forall (fun o => ownKeys o
                     = distinctNames (fieldsOf (hd [] (split LF (trim csv))))) doc.

(** * The view around the converter

    The rest of [App]: the syntax highlighting of the output, the event
    handlers and the conditions under which the buttons, the alert and the
    output are rendered. *)

Module View.

(** HTML text, written with an apostrophe for each double quote. *)
Definition html (s : string) : jsstring := json s.
Arguments html s%_string.

(** ** formatJsonWithSyntaxHighlighting *)

Fixpoint spanWhile (p : code_unit -> bool) (s : jsstring) : jsstring * jsstring :=
  match s with
  | [] => ([], [])
  | c :: r =>
      if p c then let (g, t) := spanWhile p r in (c :: g, t) else ([], s)
  end.

(** The class of every code unit but the double quote. *)
Definition notQuote (c : code_unit) : bool := negb (N.eqb c QUOTE).

(** The text after the literal [p], when [s] starts with it. *)
Fixpoint afterPrefix (p s : jsstring) : option jsstring :=
  match p with
  | [] => Some s
  | a :: p' =>
      match s with
      | [] => None
      | b :: s' => if N.eqb a b then afterPrefix p' s' else None
      end
  end.

(** A match of a pattern at the start of a text: the number of code units
    it takes and the text of its capture group.

    Each of the five patterns is a literal, then one greedy run of a
    character class, then a literal.  The run ends where the class ends,
    and a shorter run would be followed by a unit of the class, on which
    none of the closing literals can match: backtracking finds no match
    that the longest run does not give. *)
Definition matched : Type := nat * jsstring.

(** The first pattern: a double quote, a captured run of one or more
    units other than the double quote, a double quote and a colon. *)
Definition keyPattern (s : jsstring) : option matched :=
  match afterPrefix [QUOTE] s with
  | Some t =>
      let (g, t') := spanWhile notQuote t in
      if isEmpty g then None
      else match afterPrefix [QUOTE; COLON] t' with
           | Some _ => Some (length g + 3, g)
           | None => None
           end
  | None => None
  end.

(** The second pattern: a colon, a space, a double quote, a captured run
    (it may be empty) of units other than the double quote, and a double
    quote. *)
Definition stringPattern (s : jsstring) : option matched :=
  match afterPrefix [COLON; SPACE; QUOTE] s with
  | Some t =>
      let (g, t') := spanWhile notQuote t in
      match afterPrefix [QUOTE] t' with
      | Some _ => Some (length g + 4, g)
      | None => None
      end
  | None => None
  end.

(** The third pattern: a colon, a space and a captured run of one or more
    decimal digits. *)
Definition numberPattern (s : jsstring) : option matched :=
  match afterPrefix [COLON; SPACE] s with
  | Some t =>
      let (g, _) := spanWhile isDigit t in
      if isEmpty g then None else Some (length g + 2, g)
  | None => None
  end.

(** The fourth pattern: a colon, a space and the captured word true or
    false. *)
Definition booleanPattern (s : jsstring) : option matched :=
  match afterPrefix (lit ": true") s with
  | Some _ => Some (6, lit "true")
  | None =>
      match afterPrefix (lit ": false") s with
      | Some _ => Some (7, lit "false")
      | None => None
      end
  end.

(** The fifth pattern: a colon, a space and the word null. *)
Definition nullPattern (s : jsstring) : option matched :=
  match afterPrefix (lit ": null") s with
  | Some _ => Some (6, [])
  | None => None
  end.

(** [String.prototype.replace] with a global pattern that matches no
    empty text and a replacement in which [$1] stands for the capture
    group.  The text is scanned from left to right; [skip] counts the
    units of the last match that are still to be passed over. *)
Fixpoint replace (pattern : jsstring -> option matched)
    (replacement : jsstring -> jsstring) (skip : nat) (s : jsstring) : jsstring :=
  match s with
  | [] => []
  | c :: r =>
      match skip with
      | S k => replace pattern replacement k r
      | O =>
          match pattern s with
          | Some (len, g) => replacement g ++ replace pattern replacement (len - 1) r
          | None => c :: replace pattern replacement 0 r
          end
      end
  end.

Definition keyReplacement (g : jsstring) : jsstring :=
  html "<span class='json-key'>'" ++ g ++ html "'</span>:".

Definition stringReplacement (g : jsstring) : jsstring :=
  html ": <span class='json-string'>'" ++ g ++ html "'</span>".

Definition numberReplacement (g : jsstring) : jsstring :=
  html ": <span class='json-number'>" ++ g ++ html "</span>".

Definition booleanReplacement (g : jsstring) : jsstring :=
  html ": <span class='json-boolean'>" ++ g ++ html "</span>".

Definition nullReplacement (g : jsstring) : jsstring :=
  html ": <span class='json-null'>null</span>".

Definition formatJsonWithSyntaxHighlighting (jsonString : jsstring) : jsstring :=
  replace nullPattern nullReplacement 0
    (replace booleanPattern booleanReplacement 0
       (replace numberPattern numberReplacement 0
          (replace stringPattern stringReplacement 0
             (replace keyPattern keyReplacement 0 jsonString)))).

(** ** The handlers and the rendering conditions *)

(** [disabled={isLoading || !csvInput.trim()}] of the Convert button. *)
Definition convertDisabled (st : App.component) : bool :=
  App.isLoading st || isEmpty (trim (App.csvInput st)).

(** [{error && ...}]: the alert with the error message. *)
Definition showsError (st : App.component) : bool :=
  negb (isEmpty (App.error st)).

(** [{jsonOutput && !error && ...}]: the Copy and Download buttons. *)
Definition showsActions (st : App.component) : bool :=
  negb (isEmpty (App.jsonOutput st)) && isEmpty (App.error st).

(** [{jsonOutput ? ... : ...}]: the highlighted output, not the
    placeholder. *)
Definition showsOutput (st : App.component) : bool :=
  negb (isEmpty (App.jsonOutput st)).

Definition setCsvInput (s : jsstring) (st : App.component) : App.component :=
  App.mkComponent s (App.jsonOutput st) (App.error st) (App.isLoading st)
    (App.toasts st).

(** [handleParse] up to its [await]. *)
Definition handleParseStart (st : App.component) : App.component :=
  App.setError (lit "") (App.setIsLoading true st).

(** [handleParse] from the end of the delay on; [csvInput] is the value the
    handler closed over when the button was clicked. *)
Definition handleParseFinish (csvInput : jsstring) (st : App.component)
  : App.component :=
  App.setIsLoading false
    match App.csvToJson csvInput with
    | Ok result => App.toast App.successToast (App.setJsonOutput result st)
    | Throw err => App.setJsonOutput (lit "") (App.setError (message err) st)
    end.

Definition handleReset (st : App.component) : App.component :=
  App.setError (lit "") (App.setJsonOutput (lit "") (setCsvInput App.sampleCsvData st)).

(** [reader.onload], with the text read from the file. *)
Definition onload (content : jsstring) (st : App.component) : App.component :=
  App.setError (lit "") (App.setJsonOutput (lit "") (setCsvInput content st)).

(** A [File]: its [type] and the text [readAsText] reads from it. *)
Record file : Type := mkFile {
  fileType : jsstring;
  fileText : jsstring
}.

(** A file saved through the anchor that [handleDownload] clicks. *)
Record download : Type := mkDownload {
  fileName : jsstring;
  mimeType : jsstring;
  fileContent : jsstring
}.

(** The page: the state of the component, the input captured by a
    [handleParse] that waits on its timer, the texts that file readers are
    still reading, the clipboard and the files downloaded so far. *)
Record page : Type := mkPage {
  view : App.component;
  pending : option jsstring;
  readers : list jsstring;
  clipboard : option jsstring;
  downloads : list download
}.

Definition withView (st : App.component) (p : page) : page :=
  mkPage st (pending p) (readers p) (clipboard p) (downloads p).

(** [handleFileUpload]: a file of type text/csv is handed to a reader, any
    other file, or none, is refused with a toast. *)
Definition handleFileUpload (f : option file) (p : page) : page :=
  match f with
  | Some f =>
      if streq (fileType f) (lit "text/csv") then
        mkPage (view p) (pending p) (readers p ++ [fileText f]) (clipboard p)
          (downloads p)
      else withView (App.toast (lit "Please select a valid CSV file") (view p)) p
  | None => withView (App.toast (lit "Please select a valid CSV file") (view p)) p
  end.

(** [handleCopy]; [granted] tells whether [writeText] resolves. *)
Definition handleCopy (granted : bool) (p : page) : page :=
  if granted then
    mkPage (App.toast (lit "JSON output copied to clipboard") (view p))
      (pending p) (readers p) (Some (App.jsonOutput (view p))) (downloads p)
  else withView (App.toast (lit "Failed to copy to clipboard") (view p)) p.

Definition handleDownload (p : page) : page :=
  mkPage (App.toast (lit "JSON file has been downloaded") (view p))
    (pending p) (readers p) (clipboard p)
    (downloads p ++ [mkDownload (lit "converted-data.json")
                       (lit "application/json") (App.jsonOutput (view p))]).

Fixpoint removeFirst (x : jsstring) (l : list jsstring) : list jsstring :=
  match l with
  | [] => []
  | y :: r => if streq x y then r else y :: removeFirst x r
  end.

(** What can happen on the page. *)
Inductive event : Type :=
| Change (value : jsstring)
| ClickConvert
| TimerFires
| ClickCopy (granted : bool)
| ClickDownload
| SelectFile (f : option file)
| FileRead (content : jsstring)
| ClickReset.

(** One event.  An event that cannot happen in the state of the page (a
    click on a disabled or absent button, a timer or a reader that was
    not started) leaves the page as it is. *)
Definition step (p : page) (e : event) : page :=
  match e with
  | Change value => withView (setCsvInput value (view p)) p
  | ClickConvert =>
      if convertDisabled (view p) then p
      else mkPage (handleParseStart (view p)) (Some (App.csvInput (view p)))
             (readers p) (clipboard p) (downloads p)
  | TimerFires =>
      match pending p with
      | Some csvInput =>
          mkPage (handleParseFinish csvInput (view p)) None (readers p)
            (clipboard p) (downloads p)
      | None => p
      end
  | ClickCopy granted => if showsActions (view p) then handleCopy granted p else p
  | ClickDownload => if showsActions (view p) then handleDownload p else p
  | SelectFile f => handleFileUpload f p
  | FileRead content =>
      if existsb (streq content) (readers p) then
        mkPage (onload content (view p)) (pending p)
          (removeFirst content (readers p)) (clipboard p) (downloads p)
      else p
  | ClickReset => withView (handleReset (view p)) p
  end.

(** The page after the first render: [useState(sampleCsvData)] and three
    empty cells. *)
Definition initial : page :=
  mkPage (App.mkComponent App.sampleCsvData (lit "") (lit "") false [])
    None [] None [].

Definition run (events : list event) : page := fold_left step events initial.

End View.

(** [a] is [b] with some of its elements left out. *)
Inductive subsequence {A : Type} : list A -> list A -> Prop :=
| subsequence_nil : forall b, subsequence [] b
| subsequence_keep : forall x a b, subsequence a b -> subsequence (x :: a) (x :: b)
| subsequence_skip : forall x a b, subsequence a b -> subsequence a (x :: b).

(** What a match is for the replacement: the matched text [m] starts the
    input, is not empty, and survives in the text that replaces it. *)
Definition keeps_match (pattern : jsstring -> option View.matched)
    (replacement : jsstring -> jsstring) : Prop :=
  forall s len g, pattern s = Some (len, g) ->
    exists m rest, s = m ++ rest /\ length m = len /\ 1 <= len
                   /\ subsequence m (replacement g).

(** The units that can stand right before a run that the five passes leave
    whole: the double quote that opens a string and the greater-than sign
    that ends an inserted tag. *)
Definition GREATER : code_unit := 62%N.

Definition isGuard (c : code_unit) : bool := N.eqb c QUOTE || N.eqb c GREATER.

(** What a pattern does around a run [v] without double quote and colon
    that follows a guard [c]: a match starts on a double quote or a colon;
    a match that starts in the text [a] before the guard ends in [a], or
    ends on the guard and its replacement ends with a guard, or takes the
    guard and the run whole and its replacement holds them whole. *)
Definition keeps_run (pattern : jsstring -> option View.matched)
    (replacement : jsstring -> jsstring) : Prop :=
  (forall h t len g, pattern (h :: t) = Some (len, g) -> h = QUOTE \/ h = COLON)
  /\ forall a c v b len g,
       isGuard c = true -> v <> [] -> ~ In QUOTE v -> ~ In COLON v ->
       pattern (a ++ c :: v ++ b) = Some (len, g) ->
       len <= length a
       \/ (len = S (length a)
           /\ exists x c', replacement g = x ++ [c'] /\ isGuard c' = true
                           /\ subsequence a x)
       \/ (exists x c' y m rest,
             isGuard c' = true /\ b = m ++ rest
             /\ len = length a + 1 + length v + length m
             /\ replacement g = x ++ c' :: v ++ y
             /\ subsequence a x /\ subsequence m y).

(** A code unit that [JSON.stringify] writes as it is inside a string. *)
Definition isPlainUnit (c : code_unit) : bool :=
  (32 <=? c)%N && negb (N.eqb c QUOTE) && negb (N.eqb c BACKSLASH)
  && negb (isLeadingSurrogate c) && negb (isTrailingSurrogate c).

(** A text that the converter returns for some input. *)
Definition produced (t : jsstring) : Prop :=
  exists csv, App.csvToJson csv = Ok t.

(** What holds of the page after any sequence of events. *)
Definition page_invariant (p : View.page) : Prop :=
  (isEmpty (App.jsonOutput (View.view p)) || isEmpty (App.error (View.view p)) = true)
  /\ App.isLoading (View.view p)
     = match View.pending p with Some _ => true | None => false end
  /\ (forall csv, View.pending p = Some csv ->
        App.error (View.view p) = [] /\ trim csv <> [])
  /\ App.error (View.view p) <> App.emptyMessage
  /\ (App.jsonOutput (View.view p) = [] \/ produced (App.jsonOutput (View.view p)))
  /\ (forall t, View.clipboard p = Some t -> produced t)
  /\ Forall (fun d => produced (View.fileContent d)
                      /\ View.fileName d = lit "converted-data.json"
                      /\ View.mimeType d = lit "application/json")
       (View.downloads p).

(** Splits [page_invariant] into its seven parts. *)
Ltac split_invariant :=
  unfold page_invariant; simpl;
  split; [|split; [|split; [|split; [|split; [|split]]]]];
  auto; try discriminate.

(** A code unit of a printable text: a line feed or no control
    character. *)
Definition isPrintable (c : code_unit) : Prop := c = LF \/ (32 <= c)%N.
(** * Properties of the converter *)

Example trim_ex : trim (lit "  a b	 ") = lit "a b".
Proof. reflexivity. Qed.

Example split_ex :
  split COMMA (lit "a,,b,") = [lit "a"; lit ""; lit "b"; lit ""].
Proof. reflexivity. Qed.

Example split_empty_ex : split COMMA [] = [[]].
Proof. reflexivity. Qed.

(** ** Strings: basic facts *)

Lemma streq_spec (a b : jsstring) : streq a b = true <-> a = b.
Proof.
  revert b; induction a as [|x a IH]; intros [|y b]; simpl; split;
    try congruence; try reflexivity.
  - intros H. apply andb_true_iff in H as [Hx Hr].
    apply N.eqb_eq in Hx. apply IH in Hr. now subst.
  - intros H. injection H as -> ->. rewrite N.eqb_refl. now apply IH.
Qed.

Lemma streq_refl (a : jsstring) : streq a a = true.
Proof. now apply streq_spec. Qed.

Lemma streq_false (a b : jsstring) : streq a b = false <-> a <> b.
Proof.
  split.
  - intros H E. apply streq_spec in E. congruence.
  - intros H. destruct (streq a b) eqn:E; [|reflexivity].
    apply streq_spec in E. contradiction.
Qed.

Lemma streq_nil_r (a : jsstring) : streq a [] = isEmpty a.
Proof. now destruct a. Qed.

Lemma lowerUnit_sameLetter (x y : code_unit) :
  isUpper y = false -> N.eqb (lowerUnit x) y = sameLetter x y.
Proof.
  intros Hy. unfold sameLetter, lowerUnit. rewrite Hy, andb_false_l, orb_false_r.
  fold (isUpper x). destruct (isUpper x) eqn:Hx; simpl.
  - destruct (N.eqb_spec x y) as [->|_]; [congruence | reflexivity].
  - now rewrite orb_false_r.
Qed.

Lemma toLowerCase_equalsIgnoreCase (w : jsstring) :
  forallb (fun y => negb (isUpper y)) w = true ->
  forall s, streq (toLowerCase s) w = equalsIgnoreCase s w.
Proof.
  induction w as [|y w IH]; intros Hw [|x s]; simpl; try reflexivity.
  simpl in Hw. apply andb_true_iff in Hw as [Hy Hw].
  apply negb_true_iff in Hy.
  now rewrite lowerUnit_sameLetter, IH.
Qed.

(** ** Type inference of a cell *)

(** C2: the value of a cell follows the precedence of the specification:
    a non-empty cell that parses as a number becomes that number, else a
    cell equal to true or false up to case becomes the Boolean, else a cell
    equal to null up to case, or empty, becomes null, and any other cell
    stays the string it is. *)
Theorem coerce_precedence (cell : jsstring) :
  App.coerce cell = coerce_spec cell.
Proof.
  unfold App.coerce, coerce_spec, parsesAsNumber.
  rewrite !toLowerCase_equalsIgnoreCase by reflexivity.
  change (lit "") with (@nil code_unit). rewrite streq_nil_r.
  rewrite andb_comm.
  destruct (negb (isEmpty cell) && negb (isNaN (Number cell))); [reflexivity|].
  destruct (equalsIgnoreCase cell (lit "true")); [reflexivity|].
  destruct (equalsIgnoreCase cell (lit "false")); reflexivity.
Qed.

Lemma trimStart_blank (s : jsstring) :
  forallb isWhiteSpace s = true -> trimStart s = [].
Proof.
  induction s as [|c s IH]; simpl; [reflexivity|].
  intros H. apply andb_true_iff in H as [Hc Hs]. now rewrite Hc, IH.
Qed.

Lemma trim_blank (s : jsstring) : forallb isWhiteSpace s = true -> trim s = [].
Proof. intros H. unfold trim. now rewrite trimStart_blank. Qed.

Lemma sameLetter_lower_inv (x y : code_unit) :
  isUpper y = false -> sameLetter x y = true -> x = y \/ (x + 32)%N = y.
Proof.
  unfold sameLetter. intros ->. rewrite andb_false_l, orb_false_r.
  intros H. apply orb_true_iff in H as [H|H].
  - left. now apply N.eqb_eq.
  - right. apply andb_true_iff in H as [_ H]. now apply N.eqb_eq.
Qed.

Lemma equalsIgnoreCase_null_inv (s : jsstring) :
  equalsIgnoreCase s (lit "null") = true ->
  exists a b c d, s = [a; b; c; d] /\ (a = 110 \/ a = 78)%N /\ (b = 117 \/ b = 85)%N
                  /\ (c = 108 \/ c = 76)%N /\ (d = 108 \/ d = 76)%N.
Proof.
  destruct s as [|a [|b [|c [|d [|? ?]]]]]; simpl; intros H;
    rewrite ?andb_false_r in H; try discriminate.
  rewrite andb_true_r in H.
  apply andb_true_iff in H as [Ha H].
  apply andb_true_iff in H as [Hb H].
  apply andb_true_iff in H as [Hc Hd].
  apply sameLetter_lower_inv in Ha, Hb, Hc, Hd; try reflexivity.
  exists a, b, c, d. split; [reflexivity|]. lia.
Qed.

Lemma null_not_numeric (s : jsstring) :
  equalsIgnoreCase s (lit "null") = true -> parsesAsNumber s = false.
Proof.
  intros H. apply equalsIgnoreCase_null_inv in H
    as (a & b & c & d & -> & [-> | ->] & [-> | ->] & [-> | ->] & [-> | ->]);
    reflexivity.
Qed.

(** C5: an empty or blank cell, trimmed, is null and not the number zero,
    although [Number] of the empty text is zero: the numeric rule leaves
    the empty text out.  A cell equal to null up to case is null as well. *)
Theorem blank_cell_is_null (cell : jsstring) :
  forallb isWhiteSpace cell = true
  \/ equalsIgnoreCase (trim cell) (lit "null") = true ->
  App.coerce (trim cell) = VNull
  /\ (forall x, App.coerce (trim cell) <> VNumber x)
  /\ SerializeJSONValue (App.coerce (trim cell)) = lit "null"
  /\ (forallb isWhiteSpace cell = true -> Number (trim cell) = S754_zero false).
Proof.
  intros H.
  assert (E : App.coerce (trim cell) = VNull).
  { destruct H as [H|H].
    - now rewrite (trim_blank _ H).
    - apply equalsIgnoreCase_null_inv in H
        as (a & b & c & d & E & [-> | ->] & [-> | ->] & [-> | ->] & [-> | ->]);
        rewrite E; reflexivity. }
  rewrite E. repeat split; try discriminate.
  intros Hb. now rewrite (trim_blank _ Hb).
Qed.

Lemma blank_cell_is_null_witness :
  App.coerce (trim (lit "  ")) = VNull /\ App.coerce (trim (lit " NULL")) = VNull.
Proof.
  split.
  - apply (blank_cell_is_null (lit "  ")). left. reflexivity.
  - apply (blank_cell_is_null (lit " NULL")). right. reflexivity.
Defined.

Example null_cells :
  App.coerce (lit "") = VNull /\ App.coerce (lit "null") = VNull
  /\ App.coerce (lit "NULL") = VNull /\ App.coerce (lit "0") = VNumber (S754_zero false).
Proof. repeat split. Qed.

(** C9: a cell Infinity or -Infinity passes the numeric check, becomes a
    Number that is not finite, and is serialized as null; a cell NaN fails
    the check and stays the string NaN. *)
Theorem infinity_cell_is_null :
  App.coerce (lit "Infinity") = VNumber (S754_infinity false)
  /\ App.coerce (lit "-Infinity") = VNumber (S754_infinity true)
  /\ SerializeJSONValue (App.coerce (lit "Infinity")) = lit "null"
  /\ SerializeJSONValue (App.coerce (lit "-Infinity")) = lit "null"
  /\ parsesAsNumber (lit "NaN") = false
  /\ App.coerce (lit "NaN") = VString (lit "NaN")
  /\ App.csvToJson (lit "x,y,z
 Infinity ,-Infinity,NaN") =
     Ok (json "[
  {
    'x': null,
    'y': null,
    'z': 'NaN'
  }
]").
Proof. repeat split. Qed.

(** ** The loops *)

Lemma split_not_nil (sep : code_unit) (s : jsstring) : split sep s <> [].
Proof.
  destruct s as [|c r]; simpl; [discriminate|].
  destruct (N.eqb c sep); [discriminate|].
  destruct (split sep r); discriminate.
Qed.

Lemma split_length_pos (sep : code_unit) (s : jsstring) :
  1 <= length (split sep s).
Proof.
  pose proof (split_not_nil sep s). destruct (split sep s); simpl; [easy | lia].
Qed.

Lemma fieldsOf_length (line : jsstring) :
  length (fieldsOf line) = length (split COMMA line).
Proof. apply length_map. Qed.

Lemma forEach_combine (headers : list jsstring) :
  forall (seen values : list jsstring) (obj : object),
    length headers <= length values ->
    App.forEach headers (length seen) (seen ++ values) obj =
    Ok (fold_left (fun o hv => assign o (fst hv) (App.coerce (snd hv)))
          (combine headers values) obj).
Proof.
  induction headers as [|h headers IH]; intros seen values obj Hlen; simpl.
  - reflexivity.
  - destruct values as [|v values]; simpl in Hlen; [lia|].
    unfold App.forEachBody.
    rewrite nth_error_app2, Nat.sub_diag by lia. simpl.
    specialize (IH (seen ++ [v]) values (assign obj h (App.coerce v))).
    rewrite length_app, <- app_assoc in IH. simpl in IH.
    rewrite Nat.add_1_r in IH. apply IH. lia.
Qed.

Lemma forEach_recordOf (headers : list jsstring) (line : jsstring) :
  length (split COMMA line) = length headers ->
  App.forEach headers 0 (fieldsOf line) emptyObject = Ok (recordOf headers line).
Proof.
  intros H. apply (forEach_combine headers [] (fieldsOf line)).
  rewrite fieldsOf_length. lia.
Qed.

Lemma rowsLoop_spec (headers : list jsstring) (rows : list jsstring) :
  forall (i : nat) (jsonArray : list object),
    App.rowsLoop headers rows i jsonArray =
    match firstMismatch (length headers) rows (i + 1) with
    | Some f => Throw (Error (failureMessage f))
    | None => Ok (jsonArray ++ List.map (recordOf headers) rows)
    end.
Proof.
  induction rows as [|line rows IH]; intros i acc; simpl.
  - now rewrite app_nil_r.
  - fold (fieldsOf line). rewrite fieldsOf_length.
    destruct (Nat.eqb_spec (length (split COMMA line)) (length headers)) as [E|E];
      simpl; [|reflexivity].
    rewrite forEach_recordOf by exact E. simpl.
    rewrite IH. replace (S i + 1) with (S (i + 1)) by lia.
    destruct (firstMismatch _ _ _); [reflexivity|].
    now rewrite <- app_assoc.
Qed.

Lemma csvToRecords_spec (csv : jsstring) :
  App.csvToRecords csv =
  match validate csv with
  | Some f => Throw (Error (failureMessage f))
  | None =>
      let lines := split LF (trim csv) in
      Ok (List.map (recordOf (fieldsOf (hd [] lines))) (tl lines))
  end.
Proof.
  unfold App.csvToRecords, validate.
  destruct (isEmpty (trim csv)); [reflexivity|].
  destruct (length (split LF (trim csv)) <? 2) eqn:Hl; [reflexivity|].
  destruct (split LF (trim csv)) as [|line0 rows] eqn:Hs.
  - now apply split_not_nil in Hs.
  - simpl. fold (fieldsOf line0). rewrite rowsLoop_spec, fieldsOf_length.
    simpl. reflexivity.
Qed.

Lemma firstMismatch_None (expected : nat) (rows : list jsstring) :
  forall n, firstMismatch expected rows n = None <->
            Forall (fun line => length (split COMMA line) = expected) rows.
Proof.
  induction rows as [|line rows IH]; intros n; simpl.
  - split; [constructor | reflexivity].
  - destruct (Nat.eqb_spec (length (split COMMA line)) expected) as [E|E].
    + rewrite IH. split; [now constructor | now inversion 1].
    + split; [discriminate | inversion 1; contradiction].
Qed.

Lemma firstMismatch_at (expected : nat) (before : list jsstring)
    (row : jsstring) (after : list jsstring) :
  Forall (fun line => length (split COMMA line) = expected) before ->
  length (split COMMA row) <> expected ->
  forall n, firstMismatch expected (before ++ row :: after) n =
            Some (ColumnMismatch (n + length before)
                    (length (split COMMA row)) expected).
Proof.
  intros Hb Hr. induction Hb as [|line before Hl Hb IH]; intros n; simpl.
  - apply Nat.eqb_neq in Hr. rewrite Hr. now rewrite Nat.add_0_r.
  - apply Nat.eqb_eq in Hl. rewrite Hl, IH. do 2 f_equal. lia.
Qed.

Lemma firstMismatch_Some (expected : nat) (rows : list jsstring) :
  forall n f, firstMismatch expected rows n = Some f ->
    exists before row after,
      rows = before ++ row :: after
      /\ Forall (fun line => length (split COMMA line) = expected) before
      /\ length (split COMMA row) <> expected
      /\ f = ColumnMismatch (n + length before) (length (split COMMA row)) expected.
Proof.
  induction rows as [|line rows IH]; intros n f; simpl; [discriminate|].
  destruct (Nat.eqb_spec (length (split COMMA line)) expected) as [E|E].
  - intros H. apply IH in H as (before & row & after & -> & Hb & Hr & ->).
    exists (line :: before), row, after. repeat split; auto.
    simpl. f_equal. lia.
  - intros [= <-]. exists [], line, rows. repeat split; auto.
    simpl. f_equal. lia.
Qed.

Lemma csvToJson_spec (csv : jsstring) :
  App.csvToJson csv =
  match validate csv with
  | Some f => Throw (Error (failureMessage f))
  | None =>
      let lines := split LF (trim csv) in
      Ok (JSON_stringify
            (List.map (recordOf (fieldsOf (hd [] lines))) (tl lines)) 2)
  end.
Proof.
  unfold App.csvToJson. rewrite csvToRecords_spec.
  now destruct (validate csv).
Qed.

Lemma isEmpty_true {A : Type} (l : list A) : isEmpty l = true <-> l = [].
Proof. destruct l; simpl; split; congruence. Qed.

Lemma isEmpty_false {A : Type} (l : list A) : isEmpty l = false <-> l <> [].
Proof. destruct l; simpl; split; congruence. Qed.

(** ** Failures *)

(** C3: the converter fails exactly when the trimmed input is empty, or
    has fewer than two lines, or holds a data line whose field count is
    not the header's; the three checks are made in this order and each has
    its own message.  On any other input it returns a JSON text. *)
Theorem convert_fails_iff (csv : jsstring) :
  let text := trim csv in
  let lines := split LF text in
  let mismatch :=
    exists line, In line (tl lines)
      /\ length (split COMMA line) <> length (split COMMA (hd [] lines)) in
  match validate csv with
  | Some f => App.csvToJson csv = Throw (Error (failureMessage f))
  | None => exists out, App.csvToJson csv = Ok out
  end
  /\ (validate csv = Some EmptyInput <-> text = [])
  /\ (validate csv = Some InsufficientRows <-> text <> [] /\ length lines < 2)
  /\ ((exists row observed expected,
         validate csv = Some (ColumnMismatch row observed expected))
      <-> text <> [] /\ 2 <= length lines /\ mismatch)
  /\ ((exists e, App.csvToJson csv = Throw e)
      <-> text = [] \/ length lines < 2 \/ mismatch).
Proof.
  intros text lines mismatch.
  assert (Hmis : forall n,
    (exists f, firstMismatch (length (split COMMA (hd [] lines))) (tl lines) n = Some f)
    <-> mismatch).
  { intros n. unfold mismatch. split.
    - intros [f Hf].
      apply firstMismatch_Some in Hf as (before & row & after & E & _ & Hr & _).
      exists row. split; [|exact Hr]. rewrite E. apply in_elt.
    - intros (line & Hin & Hne).
      destruct (firstMismatch _ (tl lines) n) as [f|] eqn:E; [now exists f|].
      apply firstMismatch_None in E. rewrite Forall_forall in E.
      now apply E in Hin. }
  assert (Hkind : forall n f,
    firstMismatch (length (split COMMA (hd [] lines))) (tl lines) n = Some f ->
    exists r o e, f = ColumnMismatch r o e).
  { intros n f Hf.
    apply firstMismatch_Some in Hf as (before & row & after & _ & _ & _ & ->).
    eauto. }
  rewrite csvToJson_spec. unfold validate. fold text. fold lines.
  destruct (isEmpty text) eqn:Ht.
  - apply isEmpty_true in Ht.
    split; [reflexivity|]. split; [tauto|].
    split; [split; [discriminate | tauto]|].
    split; [split; [intros (r & o & e & H); discriminate | tauto]|].
    split; [tauto | eauto].
  - apply isEmpty_false in Ht.
    destruct (Nat.ltb_spec (length lines) 2) as [Hl|Hl].
    + split; [reflexivity|].
      split; [split; [discriminate | tauto]|].
      split; [tauto|].
      split; [split; [intros (r & o & e & H); discriminate | lia]|].
      split; [tauto | eauto].
    + specialize (Hmis 2). specialize (Hkind 2).
      destruct (firstMismatch _ (tl lines) 2) as [f|] eqn:Ef.
      * destruct (Hkind f eq_refl) as (r & o & e & ->).
        assert (M : mismatch) by (apply Hmis; eauto).
        split; [reflexivity|].
        split; [split; [discriminate | tauto]|].
        split; [split; [discriminate | lia]|].
        split; [split; [tauto | eauto]|].
        split; [tauto | eauto].
      * assert (M : ~ mismatch)
          by (intros M; apply Hmis in M as [f Hf]; discriminate).
        split; [eauto|].
        split; [split; [discriminate | tauto]|].
        split; [split; [discriminate | lia]|].
        split; [split; [intros (r & o & e & H); discriminate | tauto]|].
        split; [intros [e H]; discriminate | intros [H|[H|H]]; [tauto | lia | tauto]].
Qed.

(** C4: the first data line whose field count differs from the header's
    aborts the conversion with the message of that line: its 1-based line
    number (the header being line 1), its field count and the header's.
    The lines after it do not matter and no document is produced. *)
Theorem mismatch_reports_first_row (csv header : jsstring)
    (before : list jsstring) (row : jsstring) (after : list jsstring) :
  split LF (trim csv) = header :: before ++ row :: after ->
  Forall (fun line => length (split COMMA line) = length (split COMMA header))
    before ->
  length (split COMMA row) <> length (split COMMA header) ->
  App.csvToJson csv =
    Throw (Error (App.mismatchMessage (length before + 2)
                    (length (split COMMA row)) (length (split COMMA header))))
  /\ App.csvToRecords csv =
    Throw (Error (App.mismatchMessage (length before + 2)
                    (length (split COMMA row)) (length (split COMMA header)))).
Proof.
  intros Hs Hb Hr.
  rewrite csvToJson_spec, csvToRecords_spec. unfold validate.
  destruct (isEmpty (trim csv)) eqn:Ht.
  - apply isEmpty_true in Ht. rewrite Ht in Hs. simpl in Hs.
    injection Hs as _ Hs. now destruct before.
  - rewrite Hs. simpl.
    destruct (Nat.ltb_spec (S (length (before ++ row :: after))) 2) as [Hl|Hl].
    + rewrite length_app in Hl. simpl in Hl. lia.
    + rewrite firstMismatch_at by assumption.
      replace (2 + length before) with (length before + 2) by lia.
      split; reflexivity.
Qed.

Lemma mismatch_reports_first_row_witness :
  App.csvToJson (lit "a,b
1,2,3") = Throw (Error (lit "Row 2 has 3 columns, but header has 2 columns")).
Proof.
  apply (mismatch_reports_first_row (lit "a,b
1,2,3") (lit "a,b") [] (lit "1,2,3") []).
  - reflexivity.
  - constructor.
  - simpl. lia.
Defined.

Example second_row_mismatch :
  App.csvToJson (lit "a,b
1,2
3
4,5,6") = Throw (Error (lit "Row 3 has 1 columns, but header has 2 columns")).
Proof. reflexivity. Qed.

Example failure_examples :
  App.csvToJson (lit "") = Throw (Error (lit "CSV input is empty"))
  /\ App.csvToJson (lit "   ") = Throw (Error (lit "CSV input is empty"))
  /\ App.csvToJson (lit "a,b,c") =
     Throw (Error (lit "CSV must have at least a header row and one data row")).
Proof. repeat split. Qed.

(** ** Line endings *)

Lemma crlf_app (a b : jsstring) : crlf (a ++ b) = crlf a ++ crlf b.
Proof. apply flat_map_app. Qed.

Lemma crlf_cons (c : code_unit) (s : jsstring) :
  crlf (c :: s) = (if N.eqb c LF then [CR; LF] else [c]) ++ crlf s.
Proof. reflexivity. Qed.

Lemma trimStart_crlf (s : jsstring) : trimStart (crlf s) = crlf (trimStart s).
Proof.
  induction s as [|c s IH]; [reflexivity|].
  rewrite crlf_cons. destruct (N.eqb_spec c LF) as [->|Hc]; simpl.
  - exact IH.
  - destruct (isWhiteSpace c) eqn:Hw; [exact IH|].
    rewrite crlf_cons. apply N.eqb_neq in Hc. now rewrite Hc.
Qed.

Lemma trimEnd_snoc (s : jsstring) (c : code_unit) :
  trimEnd (s ++ [c]) = if isWhiteSpace c then trimEnd s else s ++ [c].
Proof.
  unfold trimEnd. rewrite rev_app_distr. simpl.
  destruct (isWhiteSpace c); [reflexivity|].
  simpl. now rewrite rev_involutive.
Qed.

Lemma trimEnd_crlf (s : jsstring) : trimEnd (crlf s) = crlf (trimEnd s).
Proof.
  induction s as [|c s IH] using rev_ind; [reflexivity|].
  rewrite crlf_app, trimEnd_snoc. simpl. rewrite app_nil_r.
  destruct (N.eqb_spec c LF) as [->|Hc].
  - change [CR; LF] with ([CR] ++ [LF]). rewrite app_assoc, !trimEnd_snoc.
    exact IH.
  - rewrite trimEnd_snoc. destruct (isWhiteSpace c); [exact IH|].
    rewrite crlf_app. simpl. apply N.eqb_neq in Hc. now rewrite Hc.
Qed.

Lemma trim_crlf (s : jsstring) : trim (crlf s) = crlf (trim s).
Proof. unfold trim. now rewrite trimStart_crlf, trimEnd_crlf. Qed.

Lemma crlf_isEmpty (s : jsstring) : isEmpty (crlf s) = isEmpty s.
Proof.
  destruct s as [|c s]; [reflexivity|]. rewrite crlf_cons.
  now destruct (N.eqb c LF).
Qed.

Lemma split_cons_ne (sep c : code_unit) (s : jsstring) :
  c <> sep ->
  split sep (c :: s) = (c :: hd [] (split sep s)) :: tl (split sep s).
Proof.
  intros H. simpl. apply N.eqb_neq in H. rewrite H.
  pose proof (split_not_nil sep s). now destruct (split sep s).
Qed.

Lemma split_crlf (s : jsstring) : split LF (crlf s) = withCR (split LF s).
Proof.
  induction s as [|c s IH]; [reflexivity|].
  rewrite crlf_cons. pose proof (split_not_nil LF s) as Hne.
  destruct (N.eqb_spec c LF) as [->|Hc].
  - change ([CR; LF] ++ crlf s) with (CR :: LF :: crlf s).
    rewrite split_cons_ne by discriminate.
    simpl. rewrite IH. now destruct (split LF s).
  - change ([c] ++ crlf s) with (c :: crlf s).
    rewrite !split_cons_ne by assumption. rewrite IH.
    destruct (split LF s) as [|h [|h' t]]; [contradiction | reflexivity | reflexivity].
Qed.

Lemma split_snoc (sep c : code_unit) (s : jsstring) :
  c <> sep ->
  split sep (s ++ [c]) = mapLast (fun x => x ++ [c]) (split sep s).
Proof.
  intros Hc. induction s as [|d s IH].
  - simpl. apply N.eqb_neq in Hc. now rewrite Hc.
  - pose proof (split_not_nil sep s) as Hne.
    destruct (N.eqb_spec d sep) as [->|Hd].
    + simpl. rewrite N.eqb_refl, IH. now destruct (split sep s).
    + change ((d :: s) ++ [c]) with (d :: (s ++ [c])).
      rewrite !split_cons_ne by assumption. rewrite IH.
      destruct (split sep s) as [|h [|h' t]]; [contradiction | reflexivity | reflexivity].
Qed.

Lemma trimStart_app (a b : jsstring) :
  trimStart (a ++ b) =
  if forallb isWhiteSpace a then trimStart b else trimStart a ++ b.
Proof.
  induction a as [|c a IH]; simpl; [reflexivity|].
  destruct (isWhiteSpace c); simpl; [exact IH | reflexivity].
Qed.

Lemma trim_snoc_blank (s : jsstring) (c : code_unit) :
  isWhiteSpace c = true -> trim (s ++ [c]) = trim s.
Proof.
  intros Hc. unfold trim. rewrite trimStart_app.
  destruct (forallb isWhiteSpace s) eqn:Hs.
  - simpl. rewrite Hc. now rewrite trimStart_blank.
  - now rewrite trimEnd_snoc, Hc.
Qed.

Lemma fieldsOf_snoc_CR (line : jsstring) : fieldsOf (line ++ [CR]) = fieldsOf line.
Proof.
  unfold fieldsOf. rewrite split_snoc by discriminate.
  induction (split COMMA line) as [|x [|y t] IH]; simpl.
  - reflexivity.
  - now rewrite trim_snoc_blank.
  - simpl in IH. now rewrite IH.
Qed.

Lemma fieldsOf_withCR (lines : list jsstring) :
  List.map fieldsOf (withCR lines) = List.map fieldsOf lines.
Proof.
  induction lines as [|l [|l' t] IH]; simpl; try reflexivity.
  simpl in IH. now rewrite fieldsOf_snoc_CR, IH.
Qed.

Lemma rowsLoop_fields (headers rows rows' : list jsstring) :
  List.map fieldsOf rows = List.map fieldsOf rows' ->
  forall i jsonArray,
    App.rowsLoop headers rows i jsonArray = App.rowsLoop headers rows' i jsonArray.
Proof.
  revert rows'. induction rows as [|r rows IH]; intros [|r' rows'] H;
    try discriminate; [reflexivity|].
  injection H as Hr Hrows. intros i acc. simpl.
  fold (fieldsOf r). fold (fieldsOf r'). rewrite Hr.
  destruct (negb _); [reflexivity|].
  destruct (App.forEach _ _ _ _); simpl; [now apply IH | reflexivity].
Qed.

Lemma csvToRecords_fields (csv csv' : jsstring) :
  isEmpty (trim csv) = isEmpty (trim csv') ->
  List.map fieldsOf (split LF (trim csv)) = List.map fieldsOf (split LF (trim csv')) ->
  App.csvToRecords csv = App.csvToRecords csv'.
Proof.
  intros He Hf. unfold App.csvToRecords. rewrite He.
  destruct (isEmpty (trim csv')); [reflexivity|].
  assert (Hl : length (split LF (trim csv)) = length (split LF (trim csv'))).
  { rewrite <- (length_map fieldsOf), Hf. apply length_map. }
  rewrite Hl. destruct (_ <? 2); [reflexivity|].
  destruct (split LF (trim csv)) as [|l rows], (split LF (trim csv')) as [|l' rows'];
    try discriminate; [reflexivity|].
  injection Hf as Hh Hr. simpl. fold (fieldsOf l). fold (fieldsOf l').
  rewrite Hh. now apply rowsLoop_fields.
Qed.

(** C10: lines are split on the line feed alone, yet the same text with
    CRLF line endings converts to the same result, output or failure: the
    carriage return left at the end of a line is removed when the last
    field of the line is trimmed, and it changes no field count. *)
Theorem crlf_same_result (csv : jsstring) :
  App.csvToJson (crlf csv) = App.csvToJson csv
  /\ List.map fieldsOf (split LF (trim (crlf csv)))
     = List.map fieldsOf (split LF (trim csv)).
Proof.
  assert (H : List.map fieldsOf (split LF (trim (crlf csv)))
              = List.map fieldsOf (split LF (trim csv))).
  { now rewrite trim_crlf, split_crlf, fieldsOf_withCR. }
  split; [|exact H].
  unfold App.csvToJson. f_equal. apply csvToRecords_fields; [|exact H].
  now rewrite trim_crlf, crlf_isEmpty.
Qed.

Example crlf_example :
  crlf (lit "a,b
1,2") = [97; 44; 98; 13; 10; 49; 44; 50]%N
  /\ App.csvToJson [97; 44; 98; 13; 10; 49; 44; 50]%N = Ok (json "[
  {
    'a': 1,
    'b': 2
  }
]").
Proof. split; reflexivity. Qed.

(** ** Assignment to a record *)

Lemma hasOwnProperty_names (k : jsstring) (ps : list (jsstring * jsvalue)) :
  hasOwnProperty k ps = existsb (fun n => streq n k) (ownNames ps).
Proof.
  induction ps as [|[k' v] ps IH]; simpl; [reflexivity|]. now rewrite IH.
Qed.

Lemma hasOwnProperty_In (k : jsstring) (ps : list (jsstring * jsvalue)) :
  hasOwnProperty k ps = true <-> In k (ownNames ps).
Proof.
  rewrite hasOwnProperty_names, existsb_exists. split.
  - intros (n & Hin & E). apply streq_spec in E. now subst.
  - intros H. exists k. split; [exact H | apply streq_refl].
Qed.

Lemma hasOwnProperty_getOwn (k : jsstring) (ps : list (jsstring * jsvalue)) :
  hasOwnProperty k ps = false <-> getOwn k ps = None.
Proof.
  induction ps as [|[k' v] ps IH]; simpl; [tauto|].
  destruct (streq k' k); simpl; [split; discriminate | exact IH].
Qed.

Lemma ownNames_writeOwn (k : jsstring) (v : jsvalue) (ps : list (jsstring * jsvalue)) :
  ownNames (writeOwn k v ps) = ownNames ps.
Proof.
  induction ps as [|[k' v'] ps IH]; simpl; [reflexivity|].
  destruct (streq k' k); simpl; [reflexivity | now rewrite IH].
Qed.

Lemma getOwn_writeOwn_same (k : jsstring) (v : jsvalue) (ps : list (jsstring * jsvalue)) :
  hasOwnProperty k ps = true -> getOwn k (writeOwn k v ps) = Some v.
Proof.
  induction ps as [|[k' v'] ps IH]; simpl; [discriminate|].
  destruct (streq k' k) eqn:E; simpl; rewrite E; [reflexivity | exact IH].
Qed.

Lemma getOwn_writeOwn_other (k k' : jsstring) (v : jsvalue)
    (ps : list (jsstring * jsvalue)) :
  k' <> k -> getOwn k' (writeOwn k v ps) = getOwn k' ps.
Proof.
  intros Hne. induction ps as [|[k0 v0] ps IH]; simpl; [reflexivity|].
  destruct (streq k0 k) eqn:E; simpl.
  - apply streq_spec in E. subst k0.
    assert (streq k k' = false) as -> by (apply streq_false; congruence).
    reflexivity.
  - now rewrite IH.
Qed.

Lemma getOwn_app (k : jsstring) (ps qs : list (jsstring * jsvalue)) :
  getOwn k (ps ++ qs) =
  match getOwn k ps with Some v => Some v | None => getOwn k qs end.
Proof.
  induction ps as [|[k' v'] ps IH]; simpl; [reflexivity|].
  now destruct (streq k' k).
Qed.

(** Assignment under a name other than [__proto__]: overwrite in place, or
    append. *)
Lemma assign_named (o : object) (k : jsstring) (v : jsvalue) :
  k <> PROTO ->
  assign o k v =
  mkObject (inherits o)
    (if hasOwnProperty k (props o) then writeOwn k v (props o)
     else props o ++ [(k, v)]).
Proof.
  intros Hk. unfold assign.
  assert (streq k PROTO = false) as -> by now apply streq_false.
  rewrite andb_false_r. now destruct (hasOwnProperty k (props o)).
Qed.

Lemma getOwn_assign_same (o : object) (k : jsstring) (v : jsvalue) :
  k <> PROTO -> getOwn k (props (assign o k v)) = Some v.
Proof.
  intros Hk. rewrite assign_named by exact Hk. simpl.
  destruct (hasOwnProperty k (props o)) eqn:E.
  - now apply getOwn_writeOwn_same.
  - apply hasOwnProperty_getOwn in E. rewrite getOwn_app, E. simpl.
    now rewrite streq_refl.
Qed.

Lemma getOwn_assign_other (o : object) (k k' : jsstring) (v : jsvalue) :
  k' <> k -> getOwn k' (props (assign o k v)) = getOwn k' (props o).
Proof.
  intros Hne. unfold assign.
  destruct (hasOwnProperty k (props o)); simpl.
  - now apply getOwn_writeOwn_other.
  - destruct (inherits o && streq k PROTO).
    + now destruct v.
    + simpl. rewrite getOwn_app. simpl.
      assert (streq k k' = false) as -> by (apply streq_false; congruence).
      now destruct (getOwn k' (props o)).
Qed.

Lemma ownNames_assign (o : object) (k : jsstring) (v : jsvalue) :
  k <> PROTO ->
  ownNames (props (assign o k v)) = addName (ownNames (props o)) k.
Proof.
  intros Hk. rewrite assign_named by exact Hk. simpl. unfold addName.
  rewrite <- hasOwnProperty_names.
  destruct (hasOwnProperty k (props o)).
  - apply ownNames_writeOwn.
  - unfold ownNames. now rewrite map_app.
Qed.

Lemma assignCells_app (a b : list (jsstring * jsstring)) (o : object) :
  assignCells (a ++ b) o = assignCells b (assignCells a o).
Proof. apply fold_left_app. Qed.

Lemma ownNames_assignCells (cells : list (jsstring * jsstring)) :
  ~ In PROTO (List.map fst cells) ->
  forall o, ownNames (props (assignCells cells o)) =
            fold_left addName (List.map fst cells) (ownNames (props o)).
Proof.
  induction cells as [|[h c] cells IH]; intros Hp o; simpl; [reflexivity|].
  simpl in Hp. unfold assignCells in *. simpl.
  rewrite IH by tauto. rewrite ownNames_assign; [reflexivity|].
  intros E. apply Hp. now left.
Qed.

Lemma getOwn_assignCells_absent (h : jsstring) (cells : list (jsstring * jsstring)) :
  ~ In h (List.map fst cells) ->
  forall o, getOwn h (props (assignCells cells o)) = getOwn h (props o).
Proof.
  induction cells as [|[k c] cells IH]; intros Hn o; [reflexivity|].
  simpl in Hn. unfold assignCells in *. simpl.
  rewrite IH by tauto. apply getOwn_assign_other. intros E. apply Hn. now left.
Qed.

(** Last write wins, for a name other than [__proto__]. *)
Lemma getOwn_assignCells_last (h cell : jsstring)
    (before after : list (jsstring * jsstring)) (o : object) :
  h <> PROTO -> ~ In h (List.map fst after) ->
  getOwn h (props (assignCells (before ++ (h, cell) :: after) o))
  = Some (App.coerce cell).
Proof.
  intros Hp Hn. rewrite assignCells_app.
  change ((h, cell) :: after) with ([(h, cell)] ++ after).
  rewrite assignCells_app, getOwn_assignCells_absent by exact Hn.
  simpl. now apply getOwn_assign_same.
Qed.

Lemma fold_addName_In (k : jsstring) (names acc : list jsstring) :
  In k (fold_left addName names acc) <-> In k acc \/ In k names.
Proof.
  revert acc. induction names as [|n names IH]; intros acc; simpl; [tauto|].
  rewrite IH. unfold addName.
  destruct (existsb (fun m => streq m n) acc) eqn:E.
  - apply existsb_exists in E as (m & Hm & Em). apply streq_spec in Em. subst m.
    split; [tauto|]. intros [H|[H|H]]; auto. subst. auto.
  - rewrite in_app_iff. simpl. tauto.
Qed.

(** *** Enumeration order *)

Lemma insertIndexed_In (x : N * (jsstring * jsvalue)) (i : N)
    (e : jsstring * jsvalue) (l : list (N * (jsstring * jsvalue))) :
  In x (insertIndexed i e l) <-> x = (i, e) \/ In x l.
Proof.
  induction l as [|[j e'] l IH]; simpl.
  - split; [intros [H|[]]; auto | intros [H|[]]; auto].
  - destruct (i <? j)%N; simpl; [split; intros [H|H]; auto|].
    rewrite IH. split; intros H; tauto.
Qed.

Lemma indexedEntries_In (e : jsstring * jsvalue) (ps : list (jsstring * jsvalue)) :
  In e (List.map snd (indexedEntries ps)) <-> In e ps /\ arrayIndex (fst e) <> None.
Proof.
  rewrite in_map_iff. induction ps as [|[k v] ps IH]; simpl.
  - split; [intros (x & _ & []) | tauto].
  - destruct (arrayIndex k) as [i|] eqn:Ek.
    + split.
      * intros (x & Hx & Hin). apply insertIndexed_In in Hin as [->|Hin].
        -- simpl in Hx. subst e. simpl. rewrite Ek. split; [now left | discriminate].
        -- destruct IH as [IH _]. destruct IH as [H1 H2]; [now exists x|]. tauto.
      * intros [[<-|Hin] Hne].
        -- exists (i, (k, v)). split; [reflexivity|]. apply insertIndexed_In. now left.
        -- destruct IH as [_ IH]. destruct IH as (x & Hx & Hx'); [tauto|].
           exists x. split; [exact Hx|]. apply insertIndexed_In. now right.
    + rewrite IH. split.
      * tauto.
      * intros [[<-|Hin] Hne]; [simpl in Hne; congruence | tauto].
Qed.

Lemma ownEntries_In (e : jsstring * jsvalue) (o : object) :
  In e (ownEntries o) <-> In e (props o).
Proof.
  unfold ownEntries, namedEntries.
  rewrite in_app_iff, indexedEntries_In, filter_In.
  destruct (arrayIndex (fst e)); split; try tauto.
  intros H. left. split; [exact H | discriminate].
Qed.

Lemma ownKeys_In (k : jsstring) (o : object) :
  In k (ownKeys o) <-> In k (ownNames (props o)).
Proof.
  unfold ownKeys, ownNames. rewrite !in_map_iff.
  split; intros (e & He & Hin); exists e; (split; [exact He|]);
    now apply ownEntries_In.
Qed.

Lemma ownEntries_named (b : bool) (ps : list (jsstring * jsvalue)) :
  Forall (fun k => arrayIndex k = None) (ownNames ps) ->
  ownEntries (mkObject b ps) = ps.
Proof.
  intros H. unfold ownEntries, namedEntries. simpl.
  assert (Hi : indexedEntries ps = []).
  { induction ps as [|[k v] ps IH]; [reflexivity|].
    inversion H as [|? ? Hk Hps]; subst. simpl in *. now rewrite Hk, IH. }
  rewrite Hi. simpl.
  induction ps as [|[k v] ps IH]; [reflexivity|].
  inversion H as [|? ? Hk Hps]; subst. simpl in *. rewrite Hk.
  simpl in Hi. rewrite Hk in Hi. now rewrite IH.
Qed.

(** ** The successful conversions *)

Lemma csvToRecords_Ok (csv : jsstring) (doc : list object) :
  App.csvToRecords csv = Ok doc ->
  doc = List.map (recordOf (fieldsOf (hd [] (split LF (trim csv)))))
          (tl (split LF (trim csv)))
  /\ tl (split LF (trim csv)) <> []
  /\ Forall (fun line => length (split COMMA line)
                         = length (split COMMA (hd [] (split LF (trim csv)))))
       (tl (split LF (trim csv))).
Proof.
  rewrite csvToRecords_spec. unfold validate.
  set (lines := split LF (trim csv)).
  destruct (isEmpty (trim csv)); [discriminate|].
  destruct (Nat.ltb_spec (length lines) 2) as [Hl|Hl]; [discriminate|].
  destruct (firstMismatch _ (tl lines) 2) eqn:E; [discriminate|].
  intros [= <-]. apply firstMismatch_None in E.
  split; [reflexivity|]. split; [|exact E].
  destruct lines as [|l [|l' t]]; simpl in *; [lia | lia | discriminate].
Qed.

Lemma combine_fst {A B : Type} (a : list A) (b : list B) :
  length a <= length b -> List.map fst (combine a b) = a.
Proof.
  revert b. induction a as [|x a IH]; intros [|y b] H; simpl in *;
    try reflexivity; try lia.
  rewrite IH by lia. reflexivity.
Qed.

Lemma recordOf_names (headers : list jsstring) (line : jsstring) :
  length (split COMMA line) = length headers ->
  ~ In PROTO headers ->
  ownNames (props (recordOf headers line)) = distinctNames headers.
Proof.
  intros Hl Hp. unfold recordOf.
  assert (E : List.map fst (combine headers (fieldsOf line)) = headers).
  { apply combine_fst. rewrite fieldsOf_length. lia. }
  rewrite ownNames_assignCells by now rewrite E.
  now rewrite E.
Qed.

(** Without [__proto__] among the header names, the keys of a record are
    the header names. *)
Lemma recordOf_keys (headers : list jsstring) (line : jsstring) :
  length (split COMMA line) = length headers ->
  ~ In PROTO headers ->
  forall k, In k (ownKeys (recordOf headers line)) <-> In k headers.
Proof.
  intros Hl Hp k. rewrite ownKeys_In, recordOf_names by assumption.
  unfold distinctNames. rewrite fold_addName_In. simpl. tauto.
Qed.

(** Without [__proto__] and without array indices among the header names,
    the keys are enumerated in the order of the header. *)
Lemma recordOf_key_order (headers : list jsstring) (line : jsstring) :
  length (split COMMA line) = length headers ->
  Forall (fun h => arrayIndex h = None /\ h <> PROTO) headers ->
  ownKeys (recordOf headers line) = distinctNames headers.
Proof.
  intros Hl Hh. rewrite Forall_forall in Hh.
  assert (Hp : ~ In PROTO headers) by (intros H; now apply Hh in H).
  pose proof (recordOf_names headers line Hl Hp) as Hn.
  unfold ownKeys. destruct (recordOf headers line) as [b ps]. simpl in Hn.
  rewrite ownEntries_named; [exact Hn|].
  rewrite Hn. apply Forall_forall. intros k Hk.
  unfold distinctNames in Hk. apply fold_addName_In in Hk as [[]|Hk].
  now apply Hh.
Qed.

(** ** Layout of the output *)

Lemma join_indent (indent sep : jsstring) (parts : list jsstring) :
  parts <> [] ->
  indent ++ join (sep ++ indent) parts = join sep (List.map (app indent) parts).
Proof.
  induction parts as [|p [|q parts] IH]; intros H; [contradiction | reflexivity |].
  change (join (sep ++ indent) (p :: q :: parts))
    with (p ++ (sep ++ indent) ++ join (sep ++ indent) (q :: parts)).
  change (join sep (List.map (app indent) (p :: q :: parts)))
    with ((indent ++ p) ++ sep ++ join sep (List.map (app indent) (q :: parts))).
  rewrite <- IH by discriminate. now rewrite <- !app_assoc.
Qed.

Lemma SerializeJSONObject_layout (o : object) :
  lit "  " ++ SerializeJSONObject (lit "  ") (lit "  ") o = layoutRecord o.
Proof.
  unfold SerializeJSONObject, layoutRecord.
  destruct (ownEntries o) as [|e es] eqn:E; [reflexivity|].
  change (isEmpty (List.map _ (e :: es))) with false.
  change (isEmpty (e :: es)) with false.
  change (isEmpty (lit "  ")) with false. cbv iota.
  change (lit "  " ++ lit "  ") with (lit "    ").
  rewrite (app_assoc (lit "    ") (join _ _)).
  rewrite join_indent by discriminate. rewrite map_map.
  reflexivity.
Qed.

Lemma SerializeJSONArray_layout (doc : list object) :
  doc <> [] -> JSON_stringify doc 2 = layoutDocument doc.
Proof.
  intros H. unfold JSON_stringify, SerializeJSONArray, layoutDocument.
  destruct doc as [|o doc]; [contradiction|].
  change (isEmpty (List.map _ (o :: doc))) with false.
  change (repeat SPACE (Nat.min 10 2)) with (lit "  ").
  change (isEmpty (lit "  ")) with false. cbv iota.
  change ([] ++ lit "  ") with (lit "  ").
  rewrite (app_assoc (lit "  ") (join _ _)).
  rewrite join_indent by discriminate. rewrite map_map.
  rewrite (map_ext _ _ SerializeJSONObject_layout).
  reflexivity.
Qed.

Lemma digitsOf_digits (k : nat) :
  forall s, Forall (fun c => isNumberUnit c = true) (digitsOf k s).
Proof.
  induction k as [|k IH]; intros s; cbn [digitsOf]; [constructor|].
  apply Forall_app. split; [apply IH|]. constructor; [|constructor].
  unfold isNumberUnit, isDigit, digitUnit.
  pose proof (N.mod_upper_bound s 10 ltac:(discriminate)) as Hm.
  rewrite !orb_true_iff. do 4 left.
  revert Hm. generalize (s mod 10)%N. intros d Hd.
  apply andb_true_iff. split; apply N.leb_le; lia.
Qed.

Lemma repeat_Forall {A : Type} (P : A -> Prop) (x : A) (n : nat) :
  P x -> Forall P (repeat x n).
Proof. intros H. induction n; simpl; now constructor. Qed.

Lemma layoutNumber_units (ds : jsstring) (k : nat) (n : Z) :
  Forall (fun c => isNumberUnit c = true) ds ->
  Forall (fun c => isNumberUnit c = true) (layoutNumber ds k n).
Proof.
  intros H. unfold layoutNumber.
  destruct (_ && _)%bool.
  - apply Forall_app. split; [exact H|]. now apply repeat_Forall.
  - destruct (_ && _)%bool.
    + rewrite <- (firstn_skipn (Z.to_nat n) ds) in H.
      apply Forall_app in H as [H1 H2].
      apply Forall_app. split; [exact H1|].
      apply Forall_app. split; [now repeat constructor | exact H2].
    + destruct (_ && _)%bool.
      * apply Forall_app. split; [now repeat constructor|].
        apply Forall_app. split; [now apply repeat_Forall | exact H].
      * assert (He : Forall (fun c => isNumberUnit c = true)
                  ([101%N; if (n - 1 <? 0)%Z then MINUS else PLUS]
                   ++ decimalOfN (Z.to_N (Z.abs (n - 1))))).
        { apply Forall_app. split; [|apply digitsOf_digits].
          constructor; [reflexivity|]. constructor; [|constructor].
          now destruct (n - 1 <? 0)%Z. }
        destruct ds as [|d [|d2 rest]]; [exact He | |].
        -- inversion H; subst. now constructor.
        -- inversion H as [|? ? Hd Hr]; subst. constructor; [exact Hd|].
           constructor; [reflexivity|]. apply Forall_app. now split.
Qed.

(** A finite Number prints as digits, a point, an exponent mark and
    signs: no quotation mark. *)
Lemma NumberToString_units (x : number) :
  isFinite x = true ->
  Forall (fun c => isNumberUnit c = true) (NumberToString x).
Proof.
  destruct x as [s|s| |s m e]; intros H; try discriminate H.
  - change (NumberToString (S754_zero s)) with (lit "0").
    now repeat constructor.
  - unfold NumberToString.
    destruct (shortestDigits _ _ _ _ _ _ _) as [[d k] n].
    apply Forall_app. split.
    + destruct s; now repeat constructor.
    + apply layoutNumber_units, digitsOf_digits.
Qed.

Lemma csvToJson_layout (csv : jsstring) (doc : list object) :
  App.csvToRecords csv = Ok doc -> App.csvToJson csv = Ok (layoutDocument doc).
Proof.
  intros H. unfold App.csvToJson. rewrite H. simpl. f_equal.
  apply SerializeJSONArray_layout.
  apply csvToRecords_Ok in H as (-> & Hne & _).
  destruct (tl (split LF (trim csv))); [contradiction | discriminate].
Qed.

(** C6, as amended: a successful conversion returns the document on
    two-space indentation, one member per line, with Numbers printed
    without quotation marks (a Number that is not finite as null),
    Booleans as true and false, null as null and strings quoted and
    escaped.  The keys of a record follow the order of the header when no
    header name is an array index (or [__proto__]). *)
Theorem output_layout (csv : jsstring) (doc : list object) :
  App.csvToRecords csv = Ok doc ->
  App.csvToJson csv = Ok (layoutDocument doc)
  /\ (Forall (fun h => arrayIndex h = None /\ h <> PROTO)
        (fieldsOf (hd [] (split LF (trim csv)))) ->
      follows_header_order csv)
  /\ (forall x, isFinite x = true ->
        SerializeJSONValue (VNumber x) = NumberToString x
        /\ ~ In QUOTE (NumberToString x))
  /\ (forall x, isFinite x = false -> SerializeJSONValue (VNumber x) = lit "null")
  /\ SerializeJSONValue (VBoolean true) = lit "true"
  /\ SerializeJSONValue (VBoolean false) = lit "false"
  /\ SerializeJSONValue VNull = lit "null"
  /\ (forall s, SerializeJSONValue (VString s) = [QUOTE] ++ quoteUnits s ++ [QUOTE]).
Proof.
  intros H. split; [|split; [|split; [|split]]].
  - now apply csvToJson_layout.
  - intros Hh doc' H'. apply csvToRecords_Ok in H' as (-> & _ & Hl).
    apply Forall_map. apply Forall_impl with (2 := Hl). intros line Hline.
    apply recordOf_key_order; [|exact Hh]. now rewrite fieldsOf_length.
  - intros x Hx. unfold SerializeJSONValue. rewrite Hx. split; [reflexivity|].
    intros Hq. pose proof (NumberToString_units x Hx) as Hu.
    rewrite Forall_forall in Hu. apply Hu in Hq. discriminate.
  - intros x Hx. unfold SerializeJSONValue. now rewrite Hx.
  - repeat split.
Qed.

Lemma output_layout_witness :
  exists doc,
    App.csvToRecords (lit "name,age,name
John Doe,28,x") = Ok doc
    /\ App.csvToJson (lit "name,age,name
John Doe,28,x") = Ok (layoutDocument doc)
    /\ Forall (fun o => ownKeys o = [lit "name"; lit "age"]) doc.
Proof.
  eexists. split; [reflexivity|]. split.
  - apply output_layout. reflexivity.
  - refine (proj1 (proj2 (output_layout (lit "name,age,name
John Doe,28,x") _ eq_refl)) _ _ eq_refl).
    repeat constructor; discriminate.
Defined.

(** C6, as stated, fails: header names that are array indices, such as
    years, are enumerated first, in ascending numeric order, whatever
    their column. *)
Lemma key_order_counterexample :
  ~ follows_header_order (lit "name,2021,2020
Ann,7,5")
  /\ App.csvToJson (lit "name,2021,2020
Ann,7,5") = Ok (json "[
  {
    '2020': 5,
    '2021': 7,
    'name': 'Ann'
  }
]").
Proof.
  split; [|reflexivity].
  intros H. specialize (H _ eq_refl). inversion H as [|? ? Hk _]. discriminate Hk.
Qed.

Example sample_output :
  App.csvToJson (lit "name,age,email,city,occupation
John Doe,28,john.doe@email.com,New York,Software Engineer
Jane Smith,34,jane.smith@email.com,Los Angeles,Product Manager") =
  Ok (json "[
  {
    'name': 'John Doe',
    'age': 28,
    'email': 'john.doe@email.com',
    'city': 'New York',
    'occupation': 'Software Engineer'
  },
  {
    'name': 'Jane Smith',
    'age': 34,
    'email': 'jane.smith@email.com',
    'city': 'Los Angeles',
    'occupation': 'Product Manager'
  }
]").
Proof. reflexivity. Qed.

Example coercion_examples :
  App.csvToJson (lit "a,b,c,d,e,f
42,3.14,TRUE,true,,New York") =
  Ok (json "[
  {
    'a': 42,
    'b': 3.14,
    'c': true,
    'd': true,
    'e': null,
    'f': 'New York'
  }
]").
Proof. reflexivity. Qed.

(** ** Header names and keys *)

Lemma ownNames_assign_sub (o : object) (h : jsstring) (v : jsvalue) (k : jsstring) :
  In k (ownNames (props (assign o h v))) -> In k (ownNames (props o)) \/ k = h.
Proof.
  unfold assign. destruct (hasOwnProperty h (props o)); simpl.
  - rewrite ownNames_writeOwn. tauto.
  - destruct (inherits o && streq h PROTO).
    + destruct v; simpl; tauto.
    + simpl. unfold ownNames. rewrite map_app, in_app_iff. simpl.
      intros [H|[H|[]]]; auto.
Qed.

Lemma ownNames_assign_mono (o : object) (h : jsstring) (v : jsvalue) (k : jsstring) :
  In k (ownNames (props o)) -> In k (ownNames (props (assign o h v))).
Proof.
  unfold assign. destruct (hasOwnProperty h (props o)); simpl.
  - now rewrite ownNames_writeOwn.
  - destruct (inherits o && streq h PROTO).
    + now destruct v.
    + simpl. unfold ownNames. rewrite map_app, in_app_iff. tauto.
Qed.

Lemma ownNames_assign_new (o : object) (h : jsstring) (v : jsvalue) :
  h <> PROTO -> In h (ownNames (props (assign o h v))).
Proof.
  intros Hp. apply hasOwnProperty_In, not_false_iff_true.
  rewrite hasOwnProperty_getOwn, getOwn_assign_same by exact Hp. discriminate.
Qed.

Lemma ownNames_assignCells_sub (cells : list (jsstring * jsstring)) (k : jsstring) :
  forall o, In k (ownNames (props (assignCells cells o))) ->
            In k (ownNames (props o)) \/ In k (List.map fst cells).
Proof.
  induction cells as [|[h c] cells IH]; intros o H; [now left|].
  unfold assignCells in *. simpl in *.
  apply IH in H as [H|H]; [|tauto].
  apply ownNames_assign_sub in H as [H|H]; auto.
Qed.

Lemma ownNames_assignCells_mono (cells : list (jsstring * jsstring)) (k : jsstring) :
  forall o, In k (ownNames (props o)) ->
            In k (ownNames (props (assignCells cells o))).
Proof.
  induction cells as [|[h c] cells IH]; intros o H; [exact H|].
  unfold assignCells in *. simpl. apply IH. now apply ownNames_assign_mono.
Qed.

Lemma ownNames_assignCells_new (cells : list (jsstring * jsstring)) (h : jsstring) :
  h <> PROTO -> In h (List.map fst cells) ->
  forall o, In h (ownNames (props (assignCells cells o))).
Proof.
  intros Hp. induction cells as [|[k c] cells IH]; intros [] o.
  - simpl in *. subst k. apply (ownNames_assignCells_mono cells).
    now apply ownNames_assign_new.
  - apply (IH H).
Qed.

(** The keys of a record are header names, and every header name other
    than [__proto__] is a key. *)
Lemma recordOf_keys_general (headers : list jsstring) (line : jsstring) :
  length (split COMMA line) = length headers ->
  (forall k, In k (ownKeys (recordOf headers line)) -> In k headers)
  /\ (forall h, In h headers -> h <> PROTO -> In h (ownKeys (recordOf headers line))).
Proof.
  intros Hl.
  assert (E : List.map fst (combine headers (fieldsOf line)) = headers).
  { apply combine_fst. rewrite fieldsOf_length. lia. }
  unfold recordOf. split.
  - intros k Hk. apply ownKeys_In, ownNames_assignCells_sub in Hk as [[]|Hk].
    now rewrite E in Hk.
  - intros h Hh Hp. apply ownKeys_In, ownNames_assignCells_new; [exact Hp|].
    now rewrite E.
Qed.

Lemma validate_valid (csv header : jsstring) (rows : list jsstring) :
  split LF (trim csv) = header :: rows -> rows <> [] ->
  Forall (fun line => length (split COMMA line) = length (split COMMA header)) rows ->
  validate csv = None.
Proof.
  intros Hs Hne Hl. unfold validate.
  destruct (isEmpty (trim csv)) eqn:Ht.
  - apply isEmpty_true in Ht. rewrite Ht in Hs. simpl in Hs.
    injection Hs as _ <-. contradiction.
  - rewrite Hs. simpl. destruct rows as [|r rows]; [contradiction|].
    simpl. now apply (firstMismatch_None _ (r :: rows) 2).
Qed.

(** A header of N fields and M data lines of N fields each convert to a
    document of M records.  The keys of every record are header names and
    every header name other than [__proto__] is a key: without
    [__proto__] in the header the keys are the header names. *)
Lemma valid_csv_converts (csv header : jsstring) (rows : list jsstring) :
  split LF (trim csv) = header :: rows -> rows <> [] ->
  Forall (fun line => length (split COMMA line) = length (split COMMA header)) rows ->
  exists doc,
    App.csvToRecords csv = Ok doc
    /\ App.csvToJson csv = Ok (layoutDocument doc)
    /\ length doc = length rows
    /\ Forall (fun o =>
                 (forall k, In k (ownKeys o) -> In k (fieldsOf header))
                 /\ (forall h, In h (fieldsOf header) -> h <> PROTO ->
                                In h (ownKeys o))) doc
    /\ (~ In PROTO (fieldsOf header) ->
        Forall (fun o => forall k, In k (ownKeys o) <-> In k (fieldsOf header)) doc).
Proof.
  intros Hs Hne Hl.
  pose proof (csvToRecords_spec csv) as Hr.
  rewrite (validate_valid csv header rows Hs Hne Hl), Hs in Hr. simpl in Hr.
  exists (List.map (recordOf (fieldsOf header)) rows).
  split; [exact Hr|]. split; [now apply csvToJson_layout|].
  split; [apply length_map|]. split.
  - apply Forall_map. apply Forall_impl with (2 := Hl).
    intros line Hline. apply recordOf_keys_general. now rewrite fieldsOf_length.
  - intros Hp. apply Forall_map. apply Forall_impl with (2 := Hl).
    intros line Hline. apply recordOf_keys; [|exact Hp]. now rewrite fieldsOf_length.
Qed.

(** C1, at a header that holds the name [__proto__]: the line counts are
    as the claim requires and the conversion succeeds with one record, but
    the assignment under that name reaches the setter inherited from
    [Object.prototype], no property is created, and the column is missing
    from the output. *)
Theorem proto_column_dropped :
  split LF (trim (lit "__proto__,a
1,2")) = [lit "__proto__,a"; lit "1,2"]
  /\ fieldsOf (lit "__proto__,a") = [lit "__proto__"; lit "a"]
  /\ fieldsOf (lit "1,2") = [lit "1"; lit "2"]
  /\ List.map ownKeys (List.map (recordOf (fieldsOf (lit "__proto__,a"))) [lit "1,2"])
     = [[lit "a"]]
  /\ App.csvToJson (lit "__proto__,a
1,2") = Ok (json "[
  {
    'a': 2
  }
]").
Proof. repeat split. Qed.

Lemma combine_split_at {A B : Type} (before : list A) (h : A) (after : list A)
    (cells : list B) :
  length cells = length (before ++ h :: after) ->
  exists c1 c c2,
    cells = c1 ++ c :: c2 /\ length c1 = length before
    /\ combine (before ++ h :: after) cells
       = combine before c1 ++ (h, c) :: combine after c2.
Proof.
  revert cells. induction before as [|b before IH]; intros [|x cells] H;
    simpl in H; try discriminate.
  - exists [], x, cells. repeat split.
  - injection H as H. destruct (IH cells H) as (c1 & c & c2 & -> & Hl & Hc).
    exists (x :: c1), c, c2. repeat split; simpl; [now rewrite Hl | now rewrite Hc].
Qed.

(** Last write wins: in every record, a header name other than [__proto__]
    holds the value of the rightmost column of that name. *)
Lemma last_write_wins (csv : jsstring) (doc : list object)
    (before : list jsstring) (h : jsstring) (after : list jsstring) :
  App.csvToRecords csv = Ok doc ->
  fieldsOf (hd [] (split LF (trim csv))) = before ++ h :: after ->
  ~ In h after -> h <> PROTO ->
  Forall2 (fun line o =>
             getOwn h (props o)
             = Some (App.coerce (nth (length before) (fieldsOf line) [])))
    (tl (split LF (trim csv))) doc.
Proof.
  intros H Hh Hn Hp. apply csvToRecords_Ok in H as (-> & _ & Hl).
  induction Hl as [|line rows Hline Hl IH]; simpl; constructor; [|exact IH].
  unfold recordOf. rewrite Hh.
  destruct (combine_split_at before h after (fieldsOf line))
    as (c1 & c & c2 & Ec & Hc1 & Hcomb).
  { rewrite fieldsOf_length, Hline, <- fieldsOf_length. now rewrite Hh. }
  rewrite Hcomb, Ec, getOwn_assignCells_last; [| exact Hp |].
  - rewrite <- Hc1, nth_middle. reflexivity.
  - intros Hin. apply in_map_iff in Hin as ([k v] & <- & Hin).
    apply in_combine_l in Hin. contradiction.
Qed.

(** C7, at a header that repeats the name [__proto__]: the first cell, 5,
    is dropped by the inherited setter; the second, an empty cell and so
    null, sets the prototype of the record to null.  The record holds no
    property of that name, and the value of the rightmost column is lost. *)
Theorem proto_duplicate_lost :
  fieldsOf (hd [] (split LF (trim (lit "__proto__,__proto__
5,")))) = [lit "__proto__"; lit "__proto__"]
  /\ App.csvToRecords (lit "__proto__,__proto__
5,") = Ok [mkObject false []]
  /\ getOwn PROTO (props (mkObject false [])) = None
  /\ App.csvToJson (lit "__proto__,__proto__
5,") = Ok (json "[
  {}
]").
Proof. repeat split. Qed.

Example duplicate_header :
  App.csvToJson (lit "a,b,a
1,2,3") = Ok (json "[
  {
    'a': 3,
    'b': 2
  }
]").
Proof. reflexivity. Qed.

(** ** Further facts *)

(** The engine's [TypeError] is never raised: the length checks of the
    converter precede every read of [lines[0]] and of [values[index]]. *)
Lemma csvToJson_no_TypeError (csv : jsstring) (m : jsstring) :
  App.csvToJson csv <> Throw (TypeError m).
Proof.
  rewrite csvToJson_spec. destruct (validate csv); discriminate.
Qed.

Example sample_conversion :
  App.csvToJson App.sampleCsvData =
  Ok (json "[
  {
    'name': 'John Doe',
    'age': 28,
    'email': 'john.doe@email.com',
    'city': 'New York',
    'occupation': 'Software Engineer'
  },
  {
    'name': 'Jane Smith',
    'age': 34,
    'email': 'jane.smith@email.com',
    'city': 'Los Angeles',
    'occupation': 'Product Manager'
  },
  {
    'name': 'Mike Johnson',
    'age': 25,
    'email': 'mike.johnson@email.com',
    'city': 'Chicago',
    'occupation': 'Data Analyst'
  },
  {
    'name': 'Sarah Williams',
    'age': 31,
    'email': 'sarah.williams@email.com',
    'city': 'San Francisco',
    'occupation': 'UX Designer'
  },
  {
    'name': 'David Brown',
    'age': 29,
    'email': 'david.brown@email.com',
    'city': 'Seattle',
    'occupation': 'DevOps Engineer'
  }
]").
Proof. reflexivity. Qed.

Example number_printing :
  List.map (fun s => NumberToString (Number (lit s)))
    ["42"; "3.14"; "007"; "0x1F"; "1e21"; "1e-7"; "0.000001"; "-12.50";
     "123456789012345680000"; "9007199254740993"; "5e-324"; ".5"; "-0"]%string
  = List.map lit
    ["42"; "3.14"; "7"; "31"; "1e+21"; "1e-7"; "0.000001"; "-12.5";
     "123456789012345680000"; "9007199254740992"; "5e-324"; "0.5"; "0"]%string.
Proof. vm_compute. reflexivity. Qed.

(** The three kinds of failure have different messages: the message tells
    the kind. *)
Lemma failureMessage_kind (f g : failure) :
  failureMessage f = failureMessage g ->
  match f, g with
  | EmptyInput, EmptyInput | InsufficientRows, InsufficientRows
  | ColumnMismatch _ _ _, ColumnMismatch _ _ _ => True
  | _, _ => False
  end.
Proof.
  destruct f, g; try exact (fun _ => I); intros H; try discriminate H;
    unfold failureMessage, App.mismatchMessage in H;
    change (lit "Row ") with ([82; 111; 119; 32]%N) in H; discriminate H.
Qed.

(** * Properties of the view *)

(** ** Subsequences *)

Lemma subsequence_refl {A : Type} (l : list A) : subsequence l l.
Proof. induction l; now constructor. Qed.

Lemma subsequence_app {A : Type} (a b c d : list A) :
  subsequence a b -> subsequence c d -> subsequence (a ++ c) (b ++ d).
Proof.
  intros H. revert c d. induction H; intros c d Hcd; simpl.
  - induction b; simpl; [exact Hcd | now constructor].
  - constructor. now apply IHsubsequence.
  - constructor. now apply IHsubsequence.
Qed.

Lemma subsequence_prepend {A : Type} (p a b : list A) :
  subsequence a b -> subsequence a (p ++ b).
Proof. intros H. apply (subsequence_app [] p a b); [constructor | exact H]. Qed.

Lemma subsequence_extend {A : Type} (a s : list A) : subsequence a (a ++ s).
Proof. induction a; simpl; now constructor. Qed.

Lemma subsequence_trans {A : Type} (a b c : list A) :
  subsequence a b -> subsequence b c -> subsequence a c.
Proof.
  intros Hab Hbc. revert a Hab. induction Hbc; intros a' Hab.
  - inversion Hab; subst. constructor.
  - inversion Hab; subst; constructor; auto.
  - constructor. auto.
Qed.

Lemma subsequence_In {A : Type} (a b : list A) (x : A) :
  subsequence a b -> In x a -> In x b.
Proof.
  induction 1; simpl; intros Hx; [contradiction | | right; auto].
  destruct Hx; [now left | right; auto].
Qed.

Lemma subsequence_length {A : Type} (a b : list A) :
  subsequence a b -> length a <= length b.
Proof. induction 1; simpl; lia. Qed.

(** ** The patterns *)

Lemma afterPrefix_Some (p s t : jsstring) :
  View.afterPrefix p s = Some t -> s = p ++ t.
Proof.
  revert s. induction p as [|a p IH]; intros s H; simpl in *.
  - now injection H as ->.
  - destruct s as [|b s]; [discriminate|].
    destruct (N.eqb_spec a b) as [->|]; [|discriminate].
    now rewrite (IH _ H).
Qed.

Lemma afterPrefix_app (p t : jsstring) : View.afterPrefix p (p ++ t) = Some t.
Proof. induction p as [|a p IH]; simpl; [reflexivity|]. now rewrite N.eqb_refl. Qed.

Lemma spanWhile_app (p : code_unit -> bool) (s : jsstring) :
  s = fst (View.spanWhile p s) ++ snd (View.spanWhile p s).
Proof.
  induction s as [|c s IH]; simpl; [reflexivity|].
  destruct (p c); [|reflexivity].
  destruct (View.spanWhile p s) as [g t]. simpl in *. now rewrite <- IH.
Qed.

Lemma keyPattern_keeps : keeps_match View.keyPattern View.keyReplacement.
Proof.
  intros s len g H. unfold View.keyPattern in H.
  destruct (View.afterPrefix [QUOTE] s) as [t|] eqn:E1; [|discriminate].
  apply afterPrefix_Some in E1. pose proof (spanWhile_app View.notQuote t) as E2.
  destruct (View.spanWhile View.notQuote t) as [g' t']. simpl in E2.
  destruct (isEmpty g'); [discriminate|].
  destruct (View.afterPrefix [QUOTE; COLON] t') as [r|] eqn:E3; [|discriminate].
  apply afterPrefix_Some in E3. injection H as <- <-.
  exists ([QUOTE] ++ g' ++ [QUOTE; COLON]), r. subst.
  split; [simpl; now rewrite <- ?app_assoc|].
  split; [rewrite ?length_app; simpl; lia|]. split; [lia|].
  unfold View.keyReplacement.
    change (View.html "<span class='json-key'>'")
      with (View.html "<span class='json-key'>" ++ [QUOTE]).
    change (View.html "'</span>:") with ([QUOTE] ++ View.html "</span>" ++ [COLON]).
    rewrite <- ?app_assoc. apply subsequence_prepend.
    apply subsequence_app; [apply subsequence_refl|].
    apply subsequence_app; [apply subsequence_refl|].
    change [QUOTE; COLON] with ([QUOTE] ++ [COLON]).
    apply subsequence_app; [apply subsequence_refl|].
    apply subsequence_prepend, subsequence_refl.
Qed.

Lemma stringPattern_keeps : keeps_match View.stringPattern View.stringReplacement.
Proof.
  intros s len g H. unfold View.stringPattern in H.
  destruct (View.afterPrefix [COLON; SPACE; QUOTE] s) as [t|] eqn:E1; [|discriminate].
  apply afterPrefix_Some in E1. pose proof (spanWhile_app View.notQuote t) as E2.
  destruct (View.spanWhile View.notQuote t) as [g' t']. simpl in E2.
  destruct (View.afterPrefix [QUOTE] t') as [r|] eqn:E3; [|discriminate].
  apply afterPrefix_Some in E3. injection H as <- <-.
  exists ([COLON; SPACE; QUOTE] ++ g' ++ [QUOTE]), r. subst.
  split; [simpl; now rewrite <- ?app_assoc|].
  split; [rewrite ?length_app; simpl; lia|]. split; [lia|].
  unfold View.stringReplacement.
    change (View.html ": <span class='json-string'>'")
      with ([COLON; SPACE] ++ View.html "<span class='json-string'>" ++ [QUOTE]).
    change (View.html "'</span>") with ([QUOTE] ++ View.html "</span>").
    change [COLON; SPACE; QUOTE] with ([COLON; SPACE] ++ [QUOTE]).
    rewrite <- ?app_assoc.
    apply subsequence_app; [apply subsequence_refl|].
    apply subsequence_prepend.
    apply subsequence_app; [apply subsequence_refl|].
    apply subsequence_app; [apply subsequence_refl|].
    apply subsequence_extend.
Qed.

Lemma numberPattern_keeps : keeps_match View.numberPattern View.numberReplacement.
Proof.
  intros s len g H. unfold View.numberPattern in H.
  destruct (View.afterPrefix [COLON; SPACE] s) as [t|] eqn:E1; [|discriminate].
  apply afterPrefix_Some in E1. pose proof (spanWhile_app isDigit t) as E2.
  destruct (View.spanWhile isDigit t) as [g' t']. simpl in E2.
  destruct (isEmpty g'); [discriminate|]. injection H as <- <-.
  exists ([COLON; SPACE] ++ g'), t'. subst.
  split; [simpl; now rewrite <- ?app_assoc|].
  split; [rewrite ?length_app; simpl; lia|]. split; [lia|].
  unfold View.numberReplacement.
    change (View.html ": <span class='json-number'>")
      with ([COLON; SPACE] ++ View.html "<span class='json-number'>").
    rewrite <- ?app_assoc.
    apply subsequence_app; [apply subsequence_refl|].
    apply subsequence_prepend.
    apply subsequence_extend.
Qed.

Lemma booleanPattern_keeps : keeps_match View.booleanPattern View.booleanReplacement.
Proof.
  intros s len g H. unfold View.booleanPattern in H.
  destruct (View.afterPrefix (lit ": true") s) as [t|] eqn:E1.
  - apply afterPrefix_Some in E1. injection H as <- <-.
    exists (lit ": true"), t. split; [exact E1|]. split; [reflexivity|]. split; [lia|].
    change (lit ": true") with ([COLON; SPACE] ++ lit "true").
    unfold View.booleanReplacement.
    change (View.html ": <span class='json-boolean'>")
      with ([COLON; SPACE] ++ View.html "<span class='json-boolean'>").
    rewrite <- ?app_assoc.
    apply subsequence_app; [apply subsequence_refl|].
    apply subsequence_prepend.
    apply subsequence_extend.
  - destruct (View.afterPrefix (lit ": false") s) as [t|] eqn:E2; [|discriminate].
    apply afterPrefix_Some in E2. injection H as <- <-.
    exists (lit ": false"), t. split; [exact E2|]. split; [reflexivity|]. split; [lia|].
    change (lit ": false") with ([COLON; SPACE] ++ lit "false").
    unfold View.booleanReplacement.
    change (View.html ": <span class='json-boolean'>")
      with ([COLON; SPACE] ++ View.html "<span class='json-boolean'>").
    rewrite <- ?app_assoc.
    apply subsequence_app; [apply subsequence_refl|].
    apply subsequence_prepend.
    apply subsequence_extend.
Qed.

Lemma nullPattern_keeps : keeps_match View.nullPattern View.nullReplacement.
Proof.
  intros s len g H. unfold View.nullPattern in H.
  destruct (View.afterPrefix (lit ": null") s) as [t|] eqn:E1; [|discriminate].
  apply afterPrefix_Some in E1. injection H as <- <-.
  exists (lit ": null"), t. split; [exact E1|]. split; [reflexivity|]. split; [lia|].
  unfold View.nullReplacement.
  change (lit ": null") with ([COLON; SPACE] ++ lit "null").
  change (View.html ": <span class='json-null'>null</span>")
    with ([COLON; SPACE] ++ View.html "<span class='json-null'>"
          ++ lit "null" ++ View.html "</span>").
  apply subsequence_app; [apply subsequence_refl|].
  apply subsequence_prepend.
  apply subsequence_extend.
Qed.

Lemma replace_subsequence (pattern : jsstring -> option View.matched)
    (replacement : jsstring -> jsstring) :
  keeps_match pattern replacement ->
  forall s skip, subsequence (skipn skip s) (View.replace pattern replacement skip s).
Proof.
  intros Hk. induction s as [|c r IH]; intros skip.
  - destruct skip; constructor.
  - destruct skip as [|k]; simpl.
    + destruct (pattern (c :: r)) as [[len g]|] eqn:E.
      * destruct (Hk _ _ _ E) as (m & rest & Es & Hl & H1 & Hs).
        destruct m as [|c' m]; [simpl in Hl; lia|].
        simpl in Es. injection Es as <- ->. simpl in Hl. subst len.
        simpl. rewrite Nat.sub_0_r.
        change (c :: m ++ rest) with ((c :: m) ++ rest).
        apply subsequence_app; [exact Hs|].
        specialize (IH (length m)).
        now rewrite skipn_app, skipn_all, Nat.sub_diag in IH.
      * constructor. apply (IH 0).
    + apply IH.
Qed.

(** ** The highlighted text *)

(** X1: highlighting only inserts markup.  The JSON text is a subsequence
    of the HTML text made from it: no code unit is removed, replaced or
    escaped, so whatever markup the JSON text holds is in the HTML. *)
Theorem highlighting_keeps_text (jsonString : jsstring) :
  subsequence jsonString (View.formatJsonWithSyntaxHighlighting jsonString)
  /\ length jsonString <= length (View.formatJsonWithSyntaxHighlighting jsonString)
  /\ (forall c, In c jsonString ->
                In c (View.formatJsonWithSyntaxHighlighting jsonString)).
Proof.
  assert (H : subsequence jsonString
                (View.formatJsonWithSyntaxHighlighting jsonString)).
  { unfold View.formatJsonWithSyntaxHighlighting.
    eapply subsequence_trans;
      [| apply (replace_subsequence _ _ nullPattern_keeps _ 0)].
    eapply subsequence_trans;
      [| apply (replace_subsequence _ _ booleanPattern_keeps _ 0)].
    eapply subsequence_trans;
      [| apply (replace_subsequence _ _ numberPattern_keeps _ 0)].
    eapply subsequence_trans;
      [| apply (replace_subsequence _ _ stringPattern_keeps _ 0)].
    apply (replace_subsequence _ _ keyPattern_keeps _ 0). }
  split; [exact H|]. split; [now apply subsequence_length|].
  intros c. now apply subsequence_In.
Qed.

Lemma patterns_need_colon :
  (forall s len g, View.keyPattern s = Some (len, g) -> In COLON s)
  /\ (forall s len g, View.stringPattern s = Some (len, g) -> In COLON s)
  /\ (forall s len g, View.numberPattern s = Some (len, g) -> In COLON s)
  /\ (forall s len g, View.booleanPattern s = Some (len, g) -> In COLON s)
  /\ (forall s len g, View.nullPattern s = Some (len, g) -> In COLON s).
Proof.
  repeat split; intros s len g H.
  - unfold View.keyPattern in H.
    destruct (View.afterPrefix [QUOTE] s) as [t|] eqn:E1; [|discriminate].
    apply afterPrefix_Some in E1. pose proof (spanWhile_app View.notQuote t) as E2.
    destruct (View.spanWhile View.notQuote t) as [g' t']. simpl in E2.
    destruct (isEmpty g'); [discriminate|].
    destruct (View.afterPrefix [QUOTE; COLON] t') as [r|] eqn:E3; [|discriminate].
    apply afterPrefix_Some in E3. subst. rewrite !in_app_iff. simpl. tauto.
  - unfold View.stringPattern in H.
    destruct (View.afterPrefix [COLON; SPACE; QUOTE] s) as [t|] eqn:E1; [|discriminate].
    apply afterPrefix_Some in E1. subst. now left.
  - unfold View.numberPattern in H.
    destruct (View.afterPrefix [COLON; SPACE] s) as [t|] eqn:E1; [|discriminate].
    apply afterPrefix_Some in E1. subst. now left.
  - unfold View.booleanPattern in H.
    destruct (View.afterPrefix (lit ": true") s) as [t|] eqn:E1.
    + apply afterPrefix_Some in E1. subst. now left.
    + destruct (View.afterPrefix (lit ": false") s) as [t|] eqn:E2; [|discriminate].
      apply afterPrefix_Some in E2. subst. now left.
  - unfold View.nullPattern in H.
    destruct (View.afterPrefix (lit ": null") s) as [t|] eqn:E1; [|discriminate].
    apply afterPrefix_Some in E1. subst. now left.
Qed.

Lemma replace_without_match (pattern : jsstring -> option View.matched)
    (replacement : jsstring -> jsstring) (c : code_unit) :
  (forall s len g, pattern s = Some (len, g) -> In c s) ->
  forall s, ~ In c s -> View.replace pattern replacement 0 s = s.
Proof.
  intros Hp. induction s as [|x s IH]; intros Hn; [reflexivity|].
  simpl. destruct (pattern (x :: s)) as [[len g]|] eqn:E.
  - exfalso. apply Hn. exact (Hp _ _ _ E).
  - rewrite IH; [reflexivity|]. intros H. apply Hn. now right.
Qed.

(** X2: a text without a colon is returned as it is: every pattern needs
    a colon, so plain text and an empty array get no markup. *)
Theorem highlighting_needs_colon (jsonString : jsstring) :
  ~ In COLON jsonString ->
  View.formatJsonWithSyntaxHighlighting jsonString = jsonString.
Proof.
  intros H. destruct patterns_need_colon as (H1 & H2 & H3 & H4 & H5).
  unfold View.formatJsonWithSyntaxHighlighting.
  rewrite (replace_without_match _ _ COLON H1 _ H).
  rewrite (replace_without_match _ _ COLON H2 _ H).
  rewrite (replace_without_match _ _ COLON H3 _ H).
  rewrite (replace_without_match _ _ COLON H4 _ H).
  now rewrite (replace_without_match _ _ COLON H5 _ H).
Qed.

Lemma highlighting_needs_colon_witness :
  View.formatJsonWithSyntaxHighlighting (json "[
  {}
]") = json "[
  {}
]".
Proof.
  apply highlighting_needs_colon. simpl. intuition discriminate.
Defined.

(** ** The page *)

(** [handleParse] is its first part, the delay, and its second part on the
    input it was started with. *)
Lemma handleParse_split (st : App.component) :
  App.handleParse st
  = View.handleParseFinish (App.csvInput st) (View.handleParseStart st).
Proof.
  unfold App.handleParse, View.handleParseFinish, View.handleParseStart. simpl.
  now destruct (App.csvToJson (App.csvInput st)).
Qed.

Lemma JSON_stringify_not_empty (doc : list object) : JSON_stringify doc 2 <> [].
Proof.
  unfold JSON_stringify, SerializeJSONArray.
  destruct (isEmpty (List.map _ doc)); [discriminate|].
  destruct (isEmpty (repeat SPACE (Nat.min 10 2))); discriminate.
Qed.

Lemma failureMessage_not_empty (f : failure) : failureMessage f <> [].
Proof. destruct f; discriminate. Qed.

Lemma csvToJson_cases (csv : jsstring) :
  (exists out, App.csvToJson csv = Ok out /\ out <> [])
  \/ (exists f, App.csvToJson csv = Throw (Error (failureMessage f))
                /\ (trim csv <> [] -> f <> EmptyInput)).
Proof.
  rewrite csvToJson_spec. unfold validate.
  destruct (isEmpty (trim csv)) eqn:Ht.
  - right. exists EmptyInput. split; [reflexivity|].
    apply isEmpty_true in Ht. intros H. contradiction.
  - destruct (length (split LF (trim csv)) <? 2).
    + right. exists InsufficientRows. split; [reflexivity | discriminate].
    + destruct (firstMismatch _ _ 2) as [f|] eqn:E.
      * right. exists f. split; [reflexivity|]. intros _ ->.
        apply firstMismatch_Some in E as (? & ? & ? & _ & _ & _ & E). discriminate.
      * left. eexists. split; [reflexivity | apply JSON_stringify_not_empty].
Qed.

Lemma failureMessage_empty_kind (f : failure) :
  failureMessage f = App.emptyMessage -> f = EmptyInput.
Proof. destruct f; [reflexivity | discriminate | discriminate]. Qed.

Lemma initial_invariant : page_invariant View.initial.
Proof.
  unfold page_invariant, View.initial. simpl.
  repeat split; try discriminate; auto.
Qed.

Lemma handleParseFinish_invariant (p : View.page) (csv : jsstring) :
  page_invariant p -> View.pending p = Some csv ->
  page_invariant
    (View.mkPage (View.handleParseFinish csv (View.view p)) None
       (View.readers p) (View.clipboard p) (View.downloads p)).
Proof.
  intros (Hx & Hl & Hp & He & Ho & Hc & Hd) Hpend.
  destruct (Hp csv Hpend) as [Herr Hcsv].
  unfold page_invariant, View.handleParseFinish. simpl.
  destruct (csvToJson_cases csv) as [(out & E & Hout)|(f & E & Hf)];
    rewrite E; simpl.
  - rewrite Herr. repeat split; auto; try discriminate.
    + now rewrite orb_true_r.
    + right. now exists csv.
  - repeat split; auto; try discriminate.
    intros E'. apply failureMessage_empty_kind in E'. now apply Hf.
Qed.

Lemma step_invariant (p : View.page) (e : View.event) :
  page_invariant p -> page_invariant (View.step p e).
Proof.
  intros Hinv. destruct e as [value| | |granted| |f|content|]; simpl.
  - destruct Hinv as (Hx & Hl & Hp & He & Ho & Hc & Hd). split_invariant.
  - unfold View.convertDisabled.
    destruct (App.isLoading (View.view p)) eqn:Hload; [exact Hinv|].
    destruct (isEmpty (trim (App.csvInput (View.view p)))) eqn:Hblank;
      [exact Hinv|].
    destruct Hinv as (Hx & Hl & Hp & He & Ho & Hc & Hd). split_invariant.
    + now rewrite orb_true_r.
    + intros csv [= <-]. split; [reflexivity | now apply isEmpty_false].
  - destruct (View.pending p) as [csv|] eqn:Hpend; [|exact Hinv].
    now apply handleParseFinish_invariant.
  - unfold View.showsActions.
    destruct (isEmpty (App.jsonOutput (View.view p))) eqn:Hout; [exact Hinv|].
    destruct (isEmpty (App.error (View.view p))); [|exact Hinv]. simpl.
    destruct Hinv as (Hx & Hl & Hp & He & Ho & Hc & Hd).
    destruct granted; split_invariant.
    intros t [= <-]. destruct Ho as [Ho|Ho]; [|exact Ho].
    rewrite Ho in Hout. discriminate.
  - unfold View.showsActions.
    destruct (isEmpty (App.jsonOutput (View.view p))) eqn:Hout; [exact Hinv|].
    destruct (isEmpty (App.error (View.view p))); [|exact Hinv]. simpl.
    destruct Hinv as (Hx & Hl & Hp & He & Ho & Hc & Hd). split_invariant.
    apply Forall_app. split; [exact Hd|]. constructor; [|constructor].
    simpl. split; [|split; reflexivity]. destruct Ho as [Ho|Ho]; [|exact Ho].
    rewrite Ho in Hout. discriminate.
  - destruct Hinv as (Hx & Hl & Hp & He & Ho & Hc & Hd).
    unfold View.handleFileUpload.
    destruct f as [f|]; [destruct (streq (View.fileType f) (lit "text/csv"))|];
      split_invariant.
  - destruct (existsb (streq content) (View.readers p)); [|exact Hinv].
    destruct Hinv as (Hx & Hl & Hp & He & Ho & Hc & Hd). split_invariant.
    intros csv H. split; [reflexivity | now apply (Hp csv)].
  - destruct Hinv as (Hx & Hl & Hp & He & Ho & Hc & Hd). split_invariant.
    intros csv H. split; [reflexivity | now apply (Hp csv)].
Qed.

Lemma run_invariant (events : list View.event) : page_invariant (View.run events).
Proof.
  unfold View.run. induction events as [|e events IH] using rev_ind.
  - exact initial_invariant.
  - rewrite fold_left_app. simpl. now apply step_invariant.
Qed.

(** X4: after any sequence of events the alert with the error and the
    output are never shown together, so the Copy and Download buttons are
    shown exactly when the output is; while a conversion waits on its
    timer no error is shown. *)
Theorem alert_and_output_exclusive (events : list View.event) :
  View.showsError (View.view (View.run events))
  && View.showsOutput (View.view (View.run events)) = false
  /\ View.showsActions (View.view (View.run events))
     = View.showsOutput (View.view (View.run events))
  /\ (App.isLoading (View.view (View.run events)) = true ->
      View.showsError (View.view (View.run events)) = false).
Proof.
  destruct (run_invariant events) as (Hx & Hl & Hp & _).
  unfold View.showsError, View.showsOutput, View.showsActions.
  destruct (isEmpty (App.jsonOutput (View.view (View.run events))));
    destruct (isEmpty (App.error (View.view (View.run events)))) eqn:He;
    simpl in *; try discriminate; repeat split; auto.
  intros Hload. rewrite Hload in Hl.
  destruct (View.pending (View.run events)) as [csv|]; [|discriminate].
  destruct (Hp csv eq_refl) as [E _]. rewrite E in He. discriminate.
Qed.

(** X5: the message of the empty input is never shown.  The Convert
    button is disabled while the trimmed input is empty, so the text a
    conversion is started with is never blank and the first check of the
    converter cannot fail for it. *)
Theorem empty_input_never_reported (events : list View.event) :
  App.error (View.view (View.run events)) <> App.emptyMessage
  /\ (forall csvInput, View.pending (View.run events) = Some csvInput ->
        trim csvInput <> []
        /\ App.csvToJson csvInput <> Throw (Error App.emptyMessage)).
Proof.
  destruct (run_invariant events) as (_ & _ & Hp & He & _).
  split; [exact He|]. intros csv H. destruct (Hp csv H) as [_ Hcsv].
  split; [exact Hcsv|].
  destruct (csvToJson_cases csv) as [(out & E & _)|(f & E & Hf)];
    rewrite E; [discriminate|].
  intros [= E']. apply failureMessage_empty_kind in E'. now apply Hf.
Qed.

(** X6: whatever is copied to the clipboard or downloaded is a text that
    the converter returned for some input, never an error message or an
    empty text; every download is named converted-data.json and typed
    application/json. *)
Theorem exports_are_conversion_outputs (events : list View.event) :
  (forall t, View.clipboard (View.run events) = Some t ->
     t <> [] /\ exists csv, App.csvToJson csv = Ok t)
  /\ Forall (fun d =>
               View.fileContent d <> []
               /\ (exists csv, App.csvToJson csv = Ok (View.fileContent d))
               /\ View.fileName d = lit "converted-data.json"
               /\ View.mimeType d = lit "application/json")
       (View.downloads (View.run events)).
Proof.
  assert (Hne : forall t, produced t -> t <> []).
  { intros t [csv E]. destruct (csvToJson_cases csv) as [(o & E' & H)|(f & E' & _)];
      congruence. }
  destruct (run_invariant events) as (_ & _ & _ & _ & _ & Hc & Hd).
  split.
  - intros t H. split; [apply Hne|]; now apply Hc.
  - apply Forall_impl with (2 := Hd). intros d (H1 & H2 & H3).
    split; [now apply Hne|]. split; [exact H1|]. now split.
Qed.

Example session :
  let p := View.run [View.Change (lit "a,b
1,2"); View.ClickConvert; View.Change (lit "edited"); View.TimerFires;
                     View.ClickDownload; View.ClickCopy true] in
  View.downloads p = [View.mkDownload (lit "converted-data.json")
                        (lit "application/json") (json "[
  {
    'a': 1,
    'b': 2
  }
]")]
  /\ View.clipboard p = Some (json "[
  {
    'a': 1,
    'b': 2
  }
]")
  /\ App.csvInput (View.view p) = lit "edited".
Proof. repeat split. Qed.

Example blank_input_session :
  View.run [View.Change (lit "   "); View.ClickConvert; View.TimerFires;
            View.ClickDownload]
  = View.mkPage (App.mkComponent (lit "   ") (lit "") (lit "") false [])
      None [] None [].
Proof. reflexivity. Qed.

(** * Further properties of the converter *)

(** ** Splitting *)

(** X7: splitting never loses text and knows no quoting.  Joining the
    pieces with the separator gives the text back, and a line has one
    field more than it has commas, whether or not a comma stands between
    double quotes. *)
Theorem split_join_round_trip (sep : code_unit) (s : jsstring) :
  join [sep] (split sep s) = s
  /\ length (split sep s) = S (count_occ N.eq_dec s sep)
  /\ Forall (fun piece => ~ In sep piece) (split sep s).
Proof.
  induction s as [|c s (IHj & IHl & IHf)].
  - repeat split. constructor; [tauto | constructor].
  - pose proof (split_not_nil sep s) as Hne. simpl.
    destruct (N.eqb_spec c sep) as [->|Hc].
    + destruct (N.eq_dec sep sep) as [_|]; [|contradiction].
      split; [|split].
      * destruct (split sep s) as [|p ps]; [contradiction|].
        change (join [sep] ([] :: p :: ps)) with ([] ++ [sep] ++ join [sep] (p :: ps)).
        now rewrite IHj.
      * simpl. now rewrite IHl.
      * constructor; [tauto | exact IHf].
    + destruct (N.eq_dec c sep) as [|_]; [contradiction|].
      destruct (split sep s) as [|p ps]; [contradiction|].
      split; [|split].
      * rewrite <- IHj. now destruct ps.
      * exact IHl.
      * inversion IHf as [|? ? Hp Hps]; subst. constructor; [|exact Hps].
        simpl. intros [H|H]; [now apply Hc | now apply Hp].
Qed.

Example quoted_comma :
  App.csvToJson (json "name,city
'Doe, John',Paris") =
  Throw (Error (lit "Row 2 has 3 columns, but header has 2 columns")).
Proof. reflexivity. Qed.

(** ** Trimming *)

Lemma trimStart_blank_prefix (a s : jsstring) :
  forallb isWhiteSpace a = true -> trimStart (a ++ s) = trimStart s.
Proof. intros H. now rewrite trimStart_app, H. Qed.

Lemma trim_blank_suffix (s b : jsstring) :
  forallb isWhiteSpace b = true -> trim (s ++ b) = trim s.
Proof.
  revert s. induction b as [|c b IH] using rev_ind; intros s H.
  - now rewrite app_nil_r.
  - rewrite forallb_app in H. apply andb_true_iff in H as [Hb Hc].
    simpl in Hc. rewrite andb_true_r in Hc.
    rewrite app_assoc, trim_snoc_blank by exact Hc. now apply IH.
Qed.

Lemma trim_blank_affixes (a s b : jsstring) :
  forallb isWhiteSpace a = true -> forallb isWhiteSpace b = true ->
  trim (a ++ s ++ b) = trim s.
Proof.
  intros Ha Hb. rewrite app_assoc, trim_blank_suffix by exact Hb.
  unfold trim. now rewrite trimStart_blank_prefix.
Qed.

Lemma trimStart_head (s : jsstring) :
  match trimStart s with
  | [] => True
  | c :: _ => isWhiteSpace c = false
  end.
Proof.
  induction s as [|c s IH]; simpl; [exact I|].
  destruct (isWhiteSpace c) eqn:E; [exact IH | exact E].
Qed.

Lemma trimStart_fixed (s : jsstring) :
  match s with [] => True | c :: _ => isWhiteSpace c = false end ->
  trimStart s = s.
Proof. destruct s as [|c s]; simpl; [reflexivity|]. now intros ->. Qed.

Lemma trimStart_idempotent (s : jsstring) : trimStart (trimStart s) = trimStart s.
Proof. apply trimStart_fixed, trimStart_head. Qed.

Lemma trimEnd_idempotent (s : jsstring) : trimEnd (trimEnd s) = trimEnd s.
Proof. unfold trimEnd. now rewrite rev_involutive, trimStart_idempotent. Qed.

Lemma forallb_rev_eq {A : Type} (p : A -> bool) (l : list A) :
  forallb p (rev l) = forallb p l.
Proof.
  induction l as [|x l IH]; simpl; [reflexivity|].
  rewrite forallb_app, IH. simpl. rewrite andb_true_r. apply andb_comm.
Qed.

Lemma trimEnd_cons (c : code_unit) (s : jsstring) :
  isWhiteSpace c = false ->
  trimEnd (c :: s) = c :: (if forallb isWhiteSpace s then [] else trimEnd s).
Proof.
  intros Hc. unfold trimEnd. simpl. rewrite trimStart_app, forallb_rev_eq.
  destruct (forallb isWhiteSpace s).
  - simpl. now rewrite Hc.
  - now rewrite rev_app_distr.
Qed.

Lemma trim_idempotent (s : jsstring) : trim (trim s) = trim s.
Proof.
  unfold trim at 2 3. pose proof (trimStart_head s) as H.
  destruct (trimStart s) as [|c t] eqn:E; [reflexivity|].
  unfold trim. rewrite trimStart_fixed.
  - apply trimEnd_idempotent.
  - now rewrite trimEnd_cons.
Qed.

(** X8: white space around the text is of no account.  Blank lines,
    spaces or a byte-order mark before the header or after the last line
    change neither the output nor the failure, and converting the trimmed
    text is converting the text. *)
Theorem surrounding_space_ignored (before csv after : jsstring) :
  forallb isWhiteSpace before = true -> forallb isWhiteSpace after = true ->
  App.csvToJson (before ++ csv ++ after) = App.csvToJson csv
  /\ App.csvToJson (trim csv) = App.csvToJson csv.
Proof.
  intros Ha Hb.
  assert (H : forall x y, trim x = trim y -> App.csvToJson x = App.csvToJson y).
  { intros x y E. unfold App.csvToJson, App.csvToRecords. now rewrite E. }
  split; apply H; [now apply trim_blank_affixes | apply trim_idempotent].
Qed.

Lemma surrounding_space_ignored_witness :
  App.csvToJson ([65279; 10; 32]%N ++ lit "a
1" ++ [10; 10; 9]%N) = App.csvToJson (lit "a
1").
Proof.
  apply (surrounding_space_ignored [65279; 10; 32]%N (lit "a
1") [10; 10; 9]%N); reflexivity.
Defined.

(** ** Rows *)

Lemma split_without_separator (sep : code_unit) (s : jsstring) :
  ~ In sep s -> split sep s = [s].
Proof.
  induction s as [|c s IH]; intros H; [reflexivity|]. simpl.
  destruct (N.eqb_spec c sep) as [->|_]; [exfalso; apply H; now left|].
  rewrite IH; [reflexivity|]. intros Hin. apply H. now right.
Qed.

Lemma blank_without_comma (s : jsstring) :
  forallb isWhiteSpace s = true -> ~ In COMMA s.
Proof.
  intros H Hin. rewrite forallb_forall in H. apply H in Hin. discriminate.
Qed.

(** X9: an empty or blank line between the data lines is not skipped.
    It counts as a line of one field: under a header of several columns it
    aborts the conversion with its line number and the count 1. *)
Theorem blank_line_aborts (csv header : jsstring) (before : list jsstring)
    (blank : jsstring) (after : list jsstring) :
  split LF (trim csv) = header :: before ++ blank :: after ->
  Forall (fun line => length (split COMMA line) = length (split COMMA header))
    before ->
  forallb isWhiteSpace blank = true ->
  length (split COMMA header) <> 1 ->
  App.csvToJson csv =
    Throw (Error (App.mismatchMessage (length before + 2) 1
                    (length (split COMMA header)))).
Proof.
  intros Hs Hb Hblank Hh.
  assert (E : split COMMA blank = [blank])
    by (apply split_without_separator, blank_without_comma, Hblank).
  rewrite csvToJson_spec. unfold validate.
  destruct (isEmpty (trim csv)) eqn:Ht.
  - apply isEmpty_true in Ht. rewrite Ht in Hs. simpl in Hs.
    injection Hs as _ Hs. now destruct before.
  - rewrite Hs. simpl.
    destruct (Nat.ltb_spec (S (length (before ++ blank :: after))) 2) as [Hl|Hl].
    + rewrite length_app in Hl. simpl in Hl. lia.
    + rewrite firstMismatch_at; [| exact Hb | rewrite E; simpl; lia].
      rewrite E. simpl length.
      now replace (2 + length before) with (length before + 2) by lia.
Qed.

Lemma blank_line_aborts_witness :
  App.csvToJson (lit "a,b
1,2

3,4") = Throw (Error (lit "Row 3 has 1 columns, but header has 2 columns")).
Proof.
  apply (blank_line_aborts (lit "a,b
1,2

3,4") (lit "a,b") [lit "1,2"] (lit "") [lit "3,4"]).
  - reflexivity.
  - repeat constructor.
  - reflexivity.
  - simpl. lia.
Defined.

(** X10: the records follow the data lines.  A successful conversion has
    one record for each data line, in the order of the lines, and the
    record of a line is made from the header and that line alone. *)
Theorem records_follow_rows (csv : jsstring) (doc : list object) :
  App.csvToRecords csv = Ok doc ->
  length doc = length (tl (split LF (trim csv)))
  /\ (forall j line, nth_error (tl (split LF (trim csv))) j = Some line ->
        nth_error doc j
        = Some (recordOf (fieldsOf (hd [] (split LF (trim csv)))) line))
  /\ (forall j o, nth_error doc j = Some o ->
        exists line, nth_error (tl (split LF (trim csv))) j = Some line
                     /\ length (split COMMA line)
                        = length (split COMMA (hd [] (split LF (trim csv))))).
Proof.
  intros H. apply csvToRecords_Ok in H as (-> & _ & Hl).
  split; [apply length_map|]. split.
  - intros j line Hj. now rewrite nth_error_map, Hj.
  - intros j o Hj. rewrite nth_error_map in Hj.
    destruct (nth_error (tl (split LF (trim csv))) j) as [line|] eqn:E;
      [|discriminate].
    exists line. split; [reflexivity|].
    rewrite Forall_forall in Hl. apply Hl. now apply nth_error_In with j.
Qed.

Lemma records_follow_rows_witness :
  length [recordOf [lit "a"] (lit "1"); recordOf [lit "a"] (lit "x")] = 2.
Proof.
  apply (records_follow_rows (lit "a
1
x") [recordOf [lit "a"] (lit "1"); recordOf [lit "a"] (lit "x")]).
  reflexivity.
Defined.

(** ** Values *)

Lemma writeOwn_In (h : jsstring) (x : jsvalue) (ps : list (jsstring * jsvalue))
    (k : jsstring) (v : jsvalue) :
  In (k, v) (writeOwn h x ps) -> In (k, v) ps \/ (k = h /\ v = x).
Proof.
  induction ps as [|[k' v'] ps IH]; simpl; [tauto|].
  destruct (streq k' h) eqn:E; simpl.
  - apply streq_spec in E. subst k'. intros [[= <- <-]|H]; auto.
  - intros [H|H]; [auto | apply IH in H; tauto].
Qed.

Lemma assign_In (o : object) (h : jsstring) (x : jsvalue) (k : jsstring)
    (v : jsvalue) :
  In (k, v) (props (assign o h x)) -> In (k, v) (props o) \/ (k = h /\ v = x).
Proof.
  unfold assign. destruct (hasOwnProperty h (props o)); simpl.
  - apply writeOwn_In.
  - destruct (inherits o && streq h PROTO).
    + destruct x; simpl; auto.
    + simpl. rewrite in_app_iff. simpl. intros [H|[[= <- <-]|[]]]; auto.
Qed.

Lemma assignCells_In (cells : list (jsstring * jsstring)) (k : jsstring)
    (v : jsvalue) :
  forall o, In (k, v) (props (assignCells cells o)) ->
    In (k, v) (props o) \/ exists c, In (k, c) cells /\ v = App.coerce c.
Proof.
  induction cells as [|[h c] cells IH]; intros o H; [now left|].
  unfold assignCells in *. simpl in H. apply IH in H as [H|(c' & Hin & E)].
  - apply assign_In in H as [H|[-> ->]]; [now left|].
    right. exists c. split; [now left | reflexivity].
  - right. exists c'. split; [now right | exact E].
Qed.

Lemma recordOf_In (headers : list jsstring) (line k : jsstring) (v : jsvalue) :
  In (k, v) (props (recordOf headers line)) ->
  In k headers /\ exists cell, v = App.coerce (trim cell).
Proof.
  intros H. apply assignCells_In in H as [[]|(c & Hin & ->)].
  split; [now apply in_combine_l in Hin|].
  apply in_combine_r in Hin. unfold fieldsOf in Hin.
  apply in_map_iff in Hin as (cell & <- & _). now exists cell.
Qed.

Lemma coerce_string (c v : jsstring) :
  App.coerce c = VString v ->
  v = c /\ c <> [] /\ parsesAsNumber c = false
  /\ equalsIgnoreCase c (lit "true") = false
  /\ equalsIgnoreCase c (lit "false") = false
  /\ equalsIgnoreCase c (lit "null") = false.
Proof.
  unfold App.coerce, parsesAsNumber.
  rewrite !toLowerCase_equalsIgnoreCase by reflexivity.
  change (lit "") with (@nil code_unit). rewrite streq_nil_r.
  destruct (isNaN (Number c)); simpl;
    destruct (isEmpty c) eqn:Ec; simpl; try discriminate;
    destruct (equalsIgnoreCase c (lit "true")); simpl; try discriminate;
    destruct (equalsIgnoreCase c (lit "false")); simpl; try discriminate;
    destruct (equalsIgnoreCase c (lit "null")); simpl; try discriminate.
  intros [= <-]. apply isEmpty_false in Ec. repeat split; assumption.
Qed.

Lemma coerce_number (c : jsstring) (x : number) :
  App.coerce c = VNumber x -> x = Number c /\ isNaN x = false /\ c <> [].
Proof.
  unfold App.coerce. change (lit "") with (@nil code_unit). rewrite streq_nil_r.
  destruct (isNaN (Number c)) eqn:En; simpl.
  - destruct (streq _ _ || streq _ _); [discriminate|].
    destruct (streq _ _ || isEmpty c); discriminate.
  - destruct (isEmpty c) eqn:Ec; simpl.
    + destruct (streq _ _ || streq _ _); [discriminate|].
      rewrite orb_true_r. discriminate.
    + intros [= <-]. apply isEmpty_false in Ec. now repeat split.
Qed.

(** X11: what a record holds.  Every key is a trimmed header name.  A
    string value is a trimmed cell that is not empty, does not parse as a
    number and is none of true, false and null in any case; a Number is
    never NaN. *)
Theorem record_values_classified (csv : jsstring) (doc : list object)
    (o : object) (k : jsstring) (value : jsvalue) :
  App.csvToRecords csv = Ok doc -> In o doc -> In (k, value) (props o) ->
  trim k = k
  /\ In k (fieldsOf (hd [] (split LF (trim csv))))
  /\ match value with
     | VString v =>
         v <> [] /\ trim v = v /\ parsesAsNumber v = false
         /\ equalsIgnoreCase v (lit "true") = false
         /\ equalsIgnoreCase v (lit "false") = false
         /\ equalsIgnoreCase v (lit "null") = false
     | VNumber x => isNaN x = false
     | VBoolean _ | VNull => True
     end.
Proof.
  intros H Ho Hin. apply csvToRecords_Ok in H as (-> & _ & _).
  apply in_map_iff in Ho as (line & <- & _).
  apply recordOf_In in Hin as (Hk & cell & Hv).
  split; [|split; [exact Hk|]].
  - unfold fieldsOf in Hk. apply in_map_iff in Hk as (raw & <- & _).
    apply trim_idempotent.
  - destruct value as [x|b| |v]; try exact I.
    + symmetry in Hv. now apply coerce_number in Hv as (_ & Hx & _).
    + symmetry in Hv. apply coerce_string in Hv as (-> & H1 & H2 & H3 & H4 & H5).
      repeat split; try assumption. apply trim_idempotent.
Qed.

Lemma record_values_classified_witness :
  trim (lit "city") = lit "city".
Proof.
  apply (record_values_classified (lit " city
 New York ") [mkObject true [(lit "city", VString (lit "New York"))]]
           (mkObject true [(lit "city", VString (lit "New York"))])
           (lit "city") (VString (lit "New York"))).
  - reflexivity.
  - now left.
  - now left.
Defined.

(** ** Cells of digits *)

Lemma shr_1_nonneg (mrs : shr_record) :
  (0 <= shr_m mrs)%Z -> (0 <= shr_m (shr_1 mrs))%Z.
Proof.
  destruct mrs as [m r s]. simpl. intros H.
  destruct m as [|[p|p|]|p]; simpl; lia.
Qed.

Lemma iter_shr_1_nonneg (p : positive) :
  forall mrs, (0 <= shr_m mrs)%Z -> (0 <= shr_m (iter_pos shr_1 p mrs))%Z.
Proof.
  induction p as [p IH|p IH|]; intros mrs H; simpl.
  - apply IH, IH, shr_1_nonneg, H.
  - apply IH, IH, H.
  - apply shr_1_nonneg, H.
Qed.

Lemma shr_fexp_nonneg (m e : Z) (l : location) :
  (0 <= m)%Z -> (0 <= shr_m (fst (shr_fexp prec emax m e l)))%Z.
Proof.
  intros H. unfold shr_fexp, shr.
  assert (H0 : (0 <= shr_m (shr_record_of_loc m l))%Z)
    by (destruct l as [|[]]; exact H).
  destruct (fexp prec emax (Zdigits2 m + e) - e)%Z; simpl; try exact H0.
  now apply iter_shr_1_nonneg.
Qed.

Lemma round_nearest_even_nonneg (m : Z) (l : location) :
  (0 <= m)%Z -> (0 <= round_nearest_even m l)%Z.
Proof.
  intros H. destruct l as [|[]]; simpl; try exact H; try lia.
  destruct (Z.even m); lia.
Qed.

Lemma binary_round_aux_not_nan (s : bool) (m e : Z) (l : location) :
  (0 <= m)%Z -> isNaN (binary_round_aux prec emax s m e l) = false.
Proof.
  intros H. unfold binary_round_aux.
  pose proof (shr_fexp_nonneg m e l H) as H1.
  destruct (shr_fexp prec emax m e l) as [mrs' e']. simpl in H1.
  pose proof (shr_fexp_nonneg _ e' loc_Exact
                (round_nearest_even_nonneg _ (loc_of_shr_record mrs') H1)) as H2.
  destruct (shr_fexp prec emax _ e' loc_Exact) as [mrs'' e'']. simpl in H2.
  destruct (shr_m mrs'') as [|q|q]; [reflexivity | | lia].
  now destruct (e'' <=? emax - prec)%Z.
Qed.

(** A non-negative integer is rounded to a Number, never to NaN. *)
Lemma roundDecimal_integer_not_nan (m : N) : isNaN (roundDecimal false m 0) = false.
Proof.
  destruct m as [|p]; [reflexivity|]. unfold roundDecimal.
  change (0 <=? 0)%Z with true. cbv iota. change (10 ^ 0)%Z with 1%Z.
  rewrite Z.mul_1_r. unfold binary_normalize, binary_round.
  destruct (shl_align p 0 _) as [mz ez]. now apply binary_round_aux_not_nan.
Qed.

Lemma trim_fixed (s : jsstring) :
  Forall (fun c => isWhiteSpace c = false) s -> trim s = s.
Proof.
  intros H. unfold trim. rewrite (trimStart_fixed s).
  - unfold trimEnd. rewrite trimStart_fixed; [apply rev_involutive|].
    destruct (rev s) as [|c r] eqn:E; [exact I|].
    rewrite Forall_forall in H. apply H. apply in_rev. rewrite E. now left.
  - destruct s as [|c r]; [exact I|]. now inversion H.
Qed.

Lemma digit_not_blank (c : code_unit) : isDigit c = true -> isWhiteSpace c = false.
Proof.
  unfold isDigit, isWhiteSpace. intros H. apply andb_true_iff in H as [H1 H2].
  apply N.leb_le in H1, H2.
  repeat match goal with
         | |- context [(?a <=? ?b)%N] => destruct (N.leb_spec a b); try lia
         | |- context [(?a =? ?b)%N] => destruct (N.eqb_spec a b); try lia
         end; reflexivity.
Qed.

Lemma spanDigits_all (ds : jsstring) :
  forallb isDigit ds = true -> spanDigits ds = (ds, []).
Proof.
  induction ds as [|c ds IH]; simpl; [reflexivity|].
  intros H. apply andb_true_iff in H as [Hc Hd]. now rewrite Hc, IH.
Qed.

Lemma digit_cases (c : code_unit) :
  isDigit c = true ->
  (c =? 43)%N = false /\ (c =? 45)%N = false /\ (c =? 73)%N = false
  /\ (c =? 120)%N = false /\ (c =? 88)%N = false /\ (c =? 111)%N = false
  /\ (c =? 79)%N = false /\ (c =? 98)%N = false /\ (c =? 66)%N = false.
Proof.
  unfold isDigit. intros H. apply andb_true_iff in H as [H1 H2].
  apply N.leb_le in H1, H2. repeat split; apply N.eqb_neq; lia.
Qed.

Lemma Number_digits (ds : jsstring) :
  ds <> [] -> forallb isDigit ds = true ->
  Number ds = roundDecimal false (digitsValue ds) 0.
Proof.
  intros Hne Hd. unfold Number.
  rewrite trim_fixed.
  2:{ apply Forall_forall. intros c Hc. rewrite forallb_forall in Hd.
      now apply digit_not_blank, Hd. }
  destruct ds as [|c ds]; [contradiction|]. change (isEmpty (c :: ds)) with false.
  cbv iota. simpl in Hd. apply andb_true_iff in Hd as [Hc Hds].
  destruct (digit_cases c Hc) as (C1 & C2 & C3 & _).
  assert (Hnd : parseNonDecimal (c :: ds) = None).
  { unfold parseNonDecimal. destruct ds as [|p [|d r]]; try reflexivity.
    destruct (c =? 48)%N; [|reflexivity].
    simpl in Hds. apply andb_true_iff in Hds as [Hp _].
    destruct (digit_cases p Hp) as (_ & _ & _ & D1 & D2 & D3 & D4 & D5 & D6).
    now rewrite D1, D2, D3, D4, D5, D6. }
  unfold parseNumericLiteral. rewrite Hnd, C1, C2.
  unfold parseUnsignedDecimal.
  assert (Hinf : streq (c :: ds) (lit "Infinity") = false).
  { change (lit "Infinity") with (73%N :: lit "nfinity"). simpl. now rewrite C3. }
  rewrite Hinf, spanDigits_all; [reflexivity|]. simpl. now rewrite Hc, Hds.
Qed.

(** X12: a cell of decimal digits always becomes a Number, and zeros in
    front of it are lost: the cells 007 and 7 have the same value, so an
    identifier written with leading zeros does not come out as written. *)
Theorem digit_cells_are_numbers (ds : jsstring) (zeros : nat) :
  ds <> [] -> forallb isDigit ds = true ->
  App.coerce ds = VNumber (roundDecimal false (digitsValue ds) 0)
  /\ isNaN (roundDecimal false (digitsValue ds) 0) = false
  /\ App.coerce (repeat ZERO zeros ++ ds) = App.coerce ds.
Proof.
  intros Hne Hd.
  assert (Hc : forall s, s <> [] -> forallb isDigit s = true ->
                 App.coerce s = VNumber (roundDecimal false (digitsValue s) 0)).
  { intros s Hs Hds. unfold App.coerce. rewrite (Number_digits s Hs Hds).
    rewrite roundDecimal_integer_not_nan.
    change (lit "") with (@nil code_unit). rewrite streq_nil_r.
    destruct s; [contradiction | reflexivity]. }
  split; [now apply Hc|]. split; [apply roundDecimal_integer_not_nan|].
  rewrite (Hc ds Hne Hd), Hc.
  - do 2 f_equal. unfold digitsValue.
    induction zeros as [|n IH]; [reflexivity|]. simpl. exact IH.
  - destruct zeros; simpl; [exact Hne | discriminate].
  - rewrite forallb_app, Hd, andb_true_r.
    induction zeros as [|n IH]; [reflexivity|]. simpl. exact IH.
Qed.

Lemma digit_cells_are_numbers_witness :
  App.coerce (lit "007") = App.coerce (lit "7").
Proof.
  apply (digit_cells_are_numbers (lit "7") 2); [discriminate | reflexivity].
Defined.

Example leading_zeros_lost :
  App.csvToJson (lit "zip,id
02134,007") = Ok (json "[
  {
    'zip': 2134,
    'id': 7
  }
]").
Proof. reflexivity. Qed.

(** ** Numbers in the highlighted text *)

Lemma replace_skip (pattern : jsstring -> option View.matched)
    (replacement : jsstring -> jsstring) (a b : jsstring) :
  View.replace pattern replacement (length a) (a ++ b)
  = View.replace pattern replacement 0 b.
Proof. induction a as [|c a IH]; simpl; [now destruct b | exact IH]. Qed.

Lemma replace_match (pattern : jsstring -> option View.matched)
    (replacement : jsstring -> jsstring) (c : code_unit) (r g : jsstring)
    (len : nat) :
  pattern (c :: r) = Some (len, g) ->
  View.replace pattern replacement 0 (c :: r)
  = replacement g ++ View.replace pattern replacement (len - 1) r.
Proof. intros H. simpl. now rewrite H. Qed.

Lemma replace_no_match (pattern : jsstring -> option View.matched)
    (replacement : jsstring -> jsstring) (c : code_unit) (r : jsstring) :
  pattern (c :: r) = None ->
  View.replace pattern replacement 0 (c :: r)
  = c :: View.replace pattern replacement 0 r.
Proof. intros H. simpl. now rewrite H. Qed.

Lemma patterns_need_quote :
  (forall s len g, View.keyPattern s = Some (len, g) -> In QUOTE s)
  /\ (forall s len g, View.stringPattern s = Some (len, g) -> In QUOTE s).
Proof.
  split; intros s len g H.
  - unfold View.keyPattern in H.
    destruct (View.afterPrefix [QUOTE] s) as [t|] eqn:E1; [|discriminate].
    apply afterPrefix_Some in E1. subst. now left.
  - unfold View.stringPattern in H.
    destruct (View.afterPrefix [COLON; SPACE; QUOTE] s) as [t|] eqn:E1;
      [|discriminate].
    apply afterPrefix_Some in E1. subst. right. right. now left.
Qed.

Lemma spanWhile_run (p : code_unit -> bool) (run rest : jsstring) :
  forallb p run = true ->
  match rest with [] => True | c :: _ => p c = false end ->
  View.spanWhile p (run ++ rest) = (run, rest).
Proof.
  intros Hr Hc. induction run as [|x run IH]; simpl.
  - destruct rest as [|c rest]; [reflexivity|]. simpl. now rewrite Hc.
  - simpl in Hr. apply andb_true_iff in Hr as [Hx Hr]. now rewrite Hx, IH.
Qed.

Lemma digits_without (c : code_unit) (ds : jsstring) :
  isDigit c = false -> forallb isDigit ds = true -> ~ In c ds.
Proof.
  intros Hc Hd Hin. rewrite forallb_forall in Hd. apply Hd in Hin. congruence.
Qed.

(** X13: the number markup takes a run of digits after colon and space
    and nothing else of the number: a fraction or an exponent that follows
    the digits stays outside the markup. *)
Theorem number_markup_stops_at_digits (ds rest : jsstring) :
  ds <> [] -> forallb isDigit ds = true ->
  match rest with [] => True | c :: _ => isDigit c = false end ->
  ~ In COLON rest -> ~ In QUOTE rest ->
  View.formatJsonWithSyntaxHighlighting (lit ": " ++ ds ++ rest)
  = View.html ": <span class='json-number'>" ++ ds ++ View.html "</span>" ++ rest.
Proof.
  intros Hne Hd Hrest Hcolon Hquote.
  destruct patterns_need_quote as (Q1 & Q2).
  destruct patterns_need_colon as (_ & _ & C3 & C4 & C5).
  assert (Hq : ~ In QUOTE (lit ": " ++ ds ++ rest)).
  { rewrite !in_app_iff. intros [H|[H|H]].
    - simpl in H. intuition discriminate.
    - now apply (digits_without QUOTE ds) in H.
    - contradiction. }
  unfold View.formatJsonWithSyntaxHighlighting.
  rewrite (replace_without_match _ _ QUOTE Q1 _ Hq).
  rewrite (replace_without_match _ _ QUOTE Q2 _ Hq).
  assert (E3 : View.replace View.numberPattern View.numberReplacement 0
                 (lit ": " ++ ds ++ rest)
               = View.html ": <span class='json-number'>" ++ ds
                 ++ View.html "</span>" ++ rest).
  { change (lit ": " ++ ds ++ rest) with (COLON :: SPACE :: ds ++ rest).
    assert (Hm : View.numberPattern (COLON :: SPACE :: ds ++ rest)
                 = Some (length ds + 2, ds)).
    { unfold View.numberPattern.
      change (View.afterPrefix [COLON; SPACE] (COLON :: SPACE :: ds ++ rest))
        with (Some (ds ++ rest)).
      cbv beta iota.
      rewrite (spanWhile_run isDigit ds rest Hd Hrest).
      destruct ds; [contradiction | reflexivity]. }
    rewrite (replace_match _ _ _ _ _ _ Hm).
    replace (length ds + 2 - 1) with (length (SPACE :: ds)) by (simpl; lia).
    change (SPACE :: ds ++ rest) with ((SPACE :: ds) ++ rest).
    rewrite replace_skip, (replace_without_match _ _ COLON C3 _ Hcolon).
    unfold View.numberReplacement. now rewrite <- !app_assoc. }
  rewrite E3.
  assert (Hc : ~ In COLON (View.html " <span class='json-number'>" ++ ds
                           ++ View.html "</span>" ++ rest)).
  { rewrite !in_app_iff. intros [H|[H|[H|H]]].
    - simpl in H. intuition discriminate.
    - now apply (digits_without COLON ds) in H.
    - simpl in H. intuition discriminate.
    - contradiction. }
  change (View.html ": <span class='json-number'>" ++ ds
          ++ View.html "</span>" ++ rest)
    with (COLON :: (View.html " <span class='json-number'>" ++ ds
                    ++ View.html "</span>" ++ rest)).
  assert (E4 : forall pattern replacement,
    (forall s len g, pattern s = Some (len, g) -> In COLON s) ->
    pattern (COLON :: (View.html " <span class='json-number'>" ++ ds
                       ++ View.html "</span>" ++ rest)) = None ->
    View.replace pattern replacement 0
      (COLON :: (View.html " <span class='json-number'>" ++ ds
                 ++ View.html "</span>" ++ rest))
    = COLON :: (View.html " <span class='json-number'>" ++ ds
                ++ View.html "</span>" ++ rest)).
  { intros pattern replacement Hp Hnone. rewrite (replace_no_match _ _ _ _ Hnone).
    now rewrite (replace_without_match _ _ COLON Hp _ Hc). }
  rewrite (E4 _ _ C4 eq_refl). now rewrite (E4 _ _ C5 eq_refl).
Qed.

Lemma number_markup_stops_at_digits_witness :
  View.formatJsonWithSyntaxHighlighting (lit ": 3.14")
  = View.html ": <span class='json-number'>3</span>.14".
Proof.
  apply (number_markup_stops_at_digits (lit "3") (lit ".14"));
    try reflexivity; try discriminate; simpl; intuition discriminate.
Defined.

Example partial_highlighting :
  View.formatJsonWithSyntaxHighlighting (json "[
  {
    'pi': 3.14,
    'big': 1e+21,
    'neg': -5,
    '': 0
  }
]") = View.html "[
  {
    <span class='json-key'>'pi'</span>: <span class='json-number'>3</span>.14,
    <span class='json-key'>'big'</span>: <span class='json-number'>1</span>e+21,
    <span class='json-key'>'neg'</span>: -5,
    '': <span class='json-number'>0</span>
  }
]".
Proof. reflexivity. Qed.

(** ** The output text *)

Lemma hexDigit_printable (d : N) : (32 <= hexDigit d)%N.
Proof. unfold hexDigit. destruct (d <? 10)%N; lia. Qed.

Lemma quoteUnit_printable (c : code_unit) :
  Forall (fun u => (32 <= u)%N) (quoteUnit c).
Proof.
  unfold quoteUnit.
  repeat match goal with
         | |- context [if (c =? ?k)%N then _ else _] =>
             destruct (c =? k)%N; [repeat constructor; unfold BACKSLASH, QUOTE; lia|]
         end.
  destruct (N.ltb_spec c 32); simpl.
  - unfold UnicodeEscape. repeat constructor;
      try apply hexDigit_printable; unfold BACKSLASH; lia.
  - destruct (isLeadingSurrogate c || isTrailingSurrogate c).
    + unfold UnicodeEscape. repeat constructor;
        try apply hexDigit_printable; unfold BACKSLASH; lia.
    + now repeat constructor.
Qed.

Lemma quoteUnits_printable (s : jsstring) :
  Forall (fun u => (32 <= u)%N) (quoteUnits s).
Proof.
  remember (length s) as n eqn:Hn.
  assert (Hle : length s <= n) by lia. clear Hn. revert s Hle.
  induction n as [|n IH]; intros [|x [|d r]] Hle; simpl in *;
    try constructor; try lia.
  - apply quoteUnit_printable.
  - destruct (isLeadingSurrogate x && isTrailingSurrogate d) eqn:E.
    + apply andb_true_iff in E as [E1 E2].
      unfold isLeadingSurrogate in E1. unfold isTrailingSurrogate in E2.
      apply andb_true_iff in E1 as [E1 _]. apply andb_true_iff in E2 as [E2 _].
      apply N.leb_le in E1, E2.
      constructor; [lia|]. constructor; [lia|]. apply IH. lia.
    + apply Forall_app. split; [apply quoteUnit_printable|].
      apply (IH (d :: r)). simpl. lia.
Qed.

Lemma QuoteJSONString_printable (s : jsstring) :
  Forall isPrintable (QuoteJSONString s).
Proof.
  assert (Hq : Forall isPrintable [QUOTE])
    by (constructor; [right; unfold QUOTE; lia | constructor]).
  unfold QuoteJSONString. apply Forall_app. split; [exact Hq|].
  apply Forall_app. split; [|exact Hq].
  apply Forall_impl with (2 := quoteUnits_printable s). intros u H. now right.
Qed.

Lemma lit_printable (s : jsstring) :
  forallb (fun c => (c =? 10)%N || (32 <=? c)%N) s = true -> Forall isPrintable s.
Proof.
  intros H. apply Forall_forall. intros c Hc. rewrite forallb_forall in H.
  apply H in Hc. apply orb_true_iff in Hc as [Hc|Hc].
  - left. now apply N.eqb_eq.
  - right. now apply N.leb_le.
Qed.

Lemma numberUnit_printable (c : code_unit) : isNumberUnit c = true -> isPrintable c.
Proof.
  unfold isNumberUnit, isDigit. intros H. right.
  repeat (apply orb_true_iff in H as [H|H]);
    try (apply N.eqb_eq in H; subst; unfold DOT, PLUS, MINUS; lia).
  apply andb_true_iff in H as [H _]. apply N.leb_le in H. lia.
Qed.

Lemma SerializeJSONValue_printable (v : jsvalue) :
  Forall isPrintable (SerializeJSONValue v).
Proof.
  destruct v as [x|[]| |s]; unfold SerializeJSONValue;
    try (apply lit_printable; reflexivity).
  - destruct (isFinite x) eqn:E; [|apply lit_printable; reflexivity].
    apply Forall_impl with (2 := NumberToString_units x E).
    exact numberUnit_printable.
  - apply QuoteJSONString_printable.
Qed.

Lemma join_Forall (P : code_unit -> Prop) (sep : jsstring) (parts : list jsstring) :
  Forall P sep -> Forall (Forall P) parts -> Forall P (join sep parts).
Proof.
  intros Hs. induction parts as [|p [|q parts] IH]; intros H.
  - constructor.
  - now inversion H.
  - inversion H as [|? ? Hp Hr]; subst.
    change (join sep (p :: q :: parts)) with (p ++ sep ++ join sep (q :: parts)).
    apply Forall_app. split; [exact Hp|]. apply Forall_app. split; [exact Hs|].
    now apply IH.
Qed.

Lemma layoutDocument_printable (doc : list object) :
  Forall isPrintable (layoutDocument doc).
Proof.
  assert (Hsep : Forall isPrintable [COMMA; LF]).
  { constructor; [right; unfold COMMA; lia|]. constructor; [now left | constructor]. }
  assert (Hlf : Forall isPrintable [LF]) by (constructor; [now left | constructor]).
  unfold layoutDocument.
  apply Forall_app. split; [apply lit_printable; reflexivity|].
  apply Forall_app. split; [exact Hlf|].
  apply Forall_app. split; [|apply Forall_app; split;
                             [exact Hlf | apply lit_printable; reflexivity]].
  apply join_Forall; [exact Hsep|]. apply Forall_map, Forall_forall. intros o _.
  unfold layoutRecord. destruct (isEmpty (ownEntries o));
    [apply lit_printable; reflexivity|].
  apply Forall_app. split; [apply lit_printable; reflexivity|].
  apply Forall_app. split; [exact Hlf|].
  apply Forall_app. split; [|apply Forall_app; split;
                             [exact Hlf | apply lit_printable; reflexivity]].
  apply join_Forall; [exact Hsep|]. apply Forall_map, Forall_forall. intros e _.
  unfold layoutMember.
  apply Forall_app. split; [apply lit_printable; reflexivity|].
  apply Forall_app. split; [apply QuoteJSONString_printable|].
  apply Forall_app. split; [apply lit_printable; reflexivity|].
  apply SerializeJSONValue_printable.
Qed.

(** X14: the output is printable text.  Apart from the line feeds of the
    layout it holds no control character: a tab, a carriage return or
    another control character inside a cell or a header name is written as
    an escape.  The output is never the empty text. *)
Theorem output_is_printable (csv out : jsstring) :
  App.csvToJson csv = Ok out ->
  Forall isPrintable out /\ out <> [].
Proof.
  intros H. pose proof H as H'. unfold App.csvToJson in H'.
  destruct (App.csvToRecords csv) as [doc|e] eqn:E; [|discriminate].
  rewrite (csvToJson_layout csv doc E) in H. injection H as <-.
  split; [apply layoutDocument_printable|]. discriminate.
Qed.

Lemma output_is_printable_witness :
  Forall isPrintable (json "[
  {
    'a\tb': 'x\ry'
  }
]").
Proof.
  apply (output_is_printable [97; 9; 98; 10; 120; 13; 121]%N).
  reflexivity.
Defined.

(** ** The keys of a record *)

Lemma insertIndexed_Permutation (i : N) (e : jsstring * jsvalue)
    (l : list (N * (jsstring * jsvalue))) :
  Permutation ((i, e) :: l) (insertIndexed i e l).
Proof.
  induction l as [|[j e'] l IH]; simpl; [reflexivity|].
  destruct (i <? j)%N; [reflexivity|].
  rewrite perm_swap. now constructor.
Qed.

Lemma ownEntries_Permutation (o : object) : Permutation (ownEntries o) (props o).
Proof.
  unfold ownEntries, namedEntries. induction (props o) as [|[k v] ps IH]; simpl.
  - reflexivity.
  - destruct (arrayIndex k) as [i|] eqn:E; simpl.
    + rewrite <- (insertIndexed_Permutation i (k, v)). simpl. now constructor.
    + rewrite <- Permutation_middle. now constructor.
Qed.

Lemma assign_NoDup (o : object) (h : jsstring) (x : jsvalue) :
  NoDup (ownNames (props o)) -> NoDup (ownNames (props (assign o h x))).
Proof.
  intros H. unfold assign. destruct (hasOwnProperty h (props o)) eqn:E; simpl.
  - now rewrite ownNames_writeOwn.
  - destruct (inherits o && streq h PROTO).
    + now destruct x.
    + simpl. unfold ownNames. rewrite map_app. simpl.
      apply NoDup_app; [exact H | constructor; [tauto | constructor] |].
      intros k Hk [<-|[]]. apply hasOwnProperty_In in Hk. congruence.
Qed.

Lemma assignCells_NoDup (cells : list (jsstring * jsstring)) :
  forall o, NoDup (ownNames (props o)) ->
            NoDup (ownNames (props (assignCells cells o))).
Proof.
  induction cells as [|[h c] cells IH]; intros o H; [exact H|].
  unfold assignCells in *. simpl. apply IH. now apply assign_NoDup.
Qed.

Lemma assign_length (o : object) (h : jsstring) (x : jsvalue) :
  length (props (assign o h x)) <= S (length (props o)).
Proof.
  unfold assign. destruct (hasOwnProperty h (props o)); simpl.
  - rewrite <- (length_map fst). fold (ownNames (writeOwn h x (props o))).
    rewrite ownNames_writeOwn. unfold ownNames. rewrite length_map. lia.
  - destruct (inherits o && streq h PROTO).
    + destruct x; simpl; lia.
    + simpl. rewrite length_app. simpl. lia.
Qed.

Lemma assignCells_length (cells : list (jsstring * jsstring)) :
  forall o, length (props (assignCells cells o)) <= length cells + length (props o).
Proof.
  induction cells as [|[h c] cells IH]; intros o; [simpl; lia|].
  unfold assignCells in *. simpl.
  pose proof (IH (assign o h (App.coerce c))) as H1.
  pose proof (assign_length o h (App.coerce c)) as H2. lia.
Qed.

(** X15: every object of the output is a well-formed JSON object: its
    keys are pairwise distinct, however often a name occurs in the header,
    and it has at most as many members as the header has columns.  The
    members written are the properties of the record, each one once. *)
Theorem record_keys_distinct (csv : jsstring) (doc : list object) (o : object) :
  App.csvToRecords csv = Ok doc -> In o doc ->
  NoDup (ownKeys o)
  /\ Permutation (ownEntries o) (props o)
  /\ length (ownKeys o) <= length (fieldsOf (hd [] (split LF (trim csv)))).
Proof.
  intros H Ho. apply csvToRecords_Ok in H as (-> & _ & _).
  apply in_map_iff in Ho as (line & <- & _).
  pose proof (ownEntries_Permutation
                (recordOf (fieldsOf (hd [] (split LF (trim csv)))) line)) as Hperm.
  split; [|split; [exact Hperm|]].
  - unfold ownKeys. apply (Permutation_NoDup (l := ownNames (props
      (recordOf (fieldsOf (hd [] (split LF (trim csv)))) line)))).
    + symmetry. unfold ownNames. now apply Permutation_map.
    + unfold recordOf. apply assignCells_NoDup. constructor.
  - unfold ownKeys. rewrite length_map, (Permutation_length Hperm).
    unfold recordOf.
    pose proof (assignCells_length
      (combine (fieldsOf (hd [] (split LF (trim csv)))) (fieldsOf line))
      emptyObject) as Hlen.
    rewrite length_combine in Hlen. simpl in Hlen. lia.
Qed.

Lemma record_keys_distinct_witness :
  NoDup (ownKeys (mkObject true [(lit "a", VNumber (Number (lit "3")));
                                 (lit "b", VNumber (Number (lit "2")))])).
Proof.
  apply (record_keys_distinct (lit "a,b,a
1,2,3") [mkObject true [(lit "a", VNumber (Number (lit "3")));
                        (lit "b", VNumber (Number (lit "2")))]]).
  - reflexivity.
  - now left.
Defined.

(** ** The message of a failure *)

(** X16: a column-count failure names a line that exists.  Its row number
    lies between 2 and the number of lines, the line of that number has
    the reported number of fields, the header has the expected number,
    the two differ and neither is 0, and every data line above it has the
    field count of the header. *)
Theorem column_failure_names_a_line (csv m : jsstring) :
  App.csvToJson csv = Throw (Error m) ->
  m <> App.emptyMessage -> m <> App.rowsMessage ->
  exists row observed expected line,
    m = App.mismatchMessage row observed expected
    /\ 2 <= row <= length (split LF (trim csv))
    /\ nth_error (split LF (trim csv)) (row - 1) = Some line
    /\ observed = length (split COMMA line)
    /\ expected = length (split COMMA (hd [] (split LF (trim csv))))
    /\ observed <> expected /\ 1 <= observed /\ 1 <= expected
    /\ Forall (fun l => length (split COMMA l) = expected)
         (firstn (row - 2) (tl (split LF (trim csv)))).
Proof.
  rewrite csvToJson_spec. unfold validate.
  destruct (isEmpty (trim csv)); [intros [= <-]; contradiction|].
  destruct (Nat.ltb_spec (length (split LF (trim csv))) 2) as [Hl|Hl];
    [intros [= <-]; contradiction|].
  destruct (split LF (trim csv)) as [|header rows] eqn:Hs; [simpl in Hl; lia|].
  simpl hd. simpl tl.
  destruct (firstMismatch _ rows 2) as [f|] eqn:E; [|discriminate].
  apply firstMismatch_Some in E as (before & line & after & -> & Hb & Hne & ->).
  intros [= <-] _ _.
  exists (2 + length before), (length (split COMMA line)),
    (length (split COMMA header)), line.
  split; [reflexivity|]. split.
  - simpl. rewrite length_app. simpl. lia.
  - split.
    + replace (2 + length before - 1) with (S (length before)) by lia.
      simpl. now rewrite nth_error_app2, Nat.sub_diag by lia.
    + repeat split; auto using split_length_pos.
      replace (2 + length before - 2) with (length before) by lia.
      now rewrite firstn_app, Nat.sub_diag, firstn_all, app_nil_r.
Qed.

Lemma column_failure_names_a_line_witness :
  exists row observed expected line,
    lit "Row 3 has 1 columns, but header has 2 columns"
    = App.mismatchMessage row observed expected
    /\ 2 <= row <= 4
    /\ nth_error [lit "a,b"; lit "1,2"; lit "3"; lit "4,5"] (row - 1) = Some line
    /\ observed = length (split COMMA line)
    /\ expected = 2
    /\ observed <> expected /\ 1 <= observed /\ 1 <= expected
    /\ Forall (fun l => length (split COMMA l) = expected)
         (firstn (row - 2) [lit "1,2"; lit "3"; lit "4,5"]).
Proof.
  apply (column_failure_names_a_line (lit "a,b
1,2
3
4,5")); [reflexivity | discriminate | discriminate].
Defined.

Lemma digitsValue_snoc (a : jsstring) (d : N) :
  digitsValue (a ++ [digitUnit d]) = (digitsValue a * 10 + d)%N.
Proof.
  unfold digitsValue. rewrite fold_left_app. cbn [fold_left]. unfold digitUnit.
  f_equal. lia.
Qed.

Lemma digitsOf_value (k : nat) :
  forall s, digitsValue (digitsOf k s) = (s mod 10 ^ N.of_nat k)%N.
Proof.
  induction k as [|k IH]; intros s.
  - simpl. now rewrite N.mod_1_r.
  - cbn [digitsOf]. rewrite digitsValue_snoc, IH.
    rewrite Nat2N.inj_succ, N.pow_succ_r', N.Div0.mod_mul_r. lia.
Qed.

Lemma decimalLength_enough (fuel : nat) :
  forall n, (n < 2 ^ N.of_nat fuel)%N ->
            (n < 10 ^ N.of_nat (decimalLength fuel n))%N.
Proof.
  induction fuel as [|f IH]; intros n H.
  - simpl in *. lia.
  - cbn [decimalLength]. destruct (N.ltb_spec n 10) as [Hn|Hn].
    + simpl. lia.
    + rewrite Nat2N.inj_succ, N.pow_succ_r'.
      rewrite Nat2N.inj_succ, N.pow_succ_r' in H.
      assert (Hd : (n / 10 < 2 ^ N.of_nat f)%N).
      { apply N.Div0.div_lt_upper_bound. lia. }
      specialize (IH _ Hd).
      pose proof (N.Div0.div_mod n 10) as Hm.
      pose proof (N.mod_upper_bound n 10 ltac:(discriminate)) as Hu.
      revert IH Hm Hu. generalize (n / 10)%N (n mod 10)%N
        (10 ^ N.of_nat (decimalLength f (n / 10)))%N.
      intros q r p IH Hm Hu. nia.
Qed.

Lemma digitsOf_isDigit (k : nat) :
  forall s, forallb isDigit (digitsOf k s) = true.
Proof.
  induction k as [|k IH]; intros s; [reflexivity|].
  cbn [digitsOf]. rewrite forallb_app, IH. cbn [forallb andb].
  pose proof (N.mod_upper_bound s 10 ltac:(discriminate)) as Hu.
  revert Hu. generalize (s mod 10)%N. intros d Hd. unfold isDigit, digitUnit.
  rewrite andb_true_r. apply andb_true_iff. split; apply N.leb_le; lia.
Qed.

Lemma digitsOf_length (k : nat) : forall s, length (digitsOf k s) = k.
Proof.
  induction k as [|k IH]; intros s; [reflexivity|].
  cbn [digitsOf]. rewrite length_app, IH. simpl. lia.
Qed.

Lemma digitsOf_head (k : nat) :
  forall s, hd ZERO (digitsOf (S k) s) = digitUnit ((s / 10 ^ N.of_nat k) mod 10)%N.
Proof.
  induction k as [|k IH]; intros s.
  - cbn [digitsOf]. simpl app. simpl hd. now rewrite N.div_1_r.
  - change (digitsOf (S (S k)) s)
      with (digitsOf (S k) (s / 10) ++ [digitUnit (s mod 10)]).
    pose proof (digitsOf_length (S k) (s / 10)) as Hl.
    destruct (digitsOf (S k) (s / 10)) as [|x xs] eqn:E; [discriminate Hl|].
    specialize (IH (s / 10)%N). rewrite E in IH. simpl in IH. simpl hd.
    rewrite IH, Nat2N.inj_succ, N.pow_succ_r'. now rewrite N.Div0.div_div.
Qed.

Lemma decimalLength_least (fuel : nat) :
  forall n, n <> 0%N -> (10 ^ N.of_nat (decimalLength fuel n - 1) <= n)%N.
Proof.
  induction fuel as [|f IH]; intros n Hn.
  - simpl. lia.
  - cbn [decimalLength]. destruct (N.ltb_spec n 10) as [H|H].
    + simpl. lia.
    + assert (Hq : (n / 10 <> 0)%N).
      { intros E. apply N.div_small_iff in E; lia. }
      specialize (IH _ Hq).
      replace (S (decimalLength f (n / 10)) - 1)
        with (S (decimalLength f (n / 10) - 1)).
      * rewrite Nat2N.inj_succ, N.pow_succ_r'.
        pose proof (N.Div0.mul_div_le n 10). nia.
      * destruct f; simpl; [lia|]. destruct (n / 10 <? 10)%N; lia.
Qed.

(** The decimal text of a number: digits only, no zero in front, and it
    reads back as the number. *)
Lemma decimalOfN_reads_back (n : N) :
  digitsValue (decimalOfN n) = n
  /\ forallb isDigit (decimalOfN n) = true
  /\ decimalOfN n <> []
  /\ (n <> 0%N -> hd ZERO (decimalOfN n) <> ZERO).
Proof.
  assert (Hlen : (n < 10 ^ N.of_nat (decimalLength (N.to_nat (N.size n)) n))%N).
  { apply decimalLength_enough. rewrite N2Nat.id. apply N.size_gt. }
  assert (Hpos : 1 <= decimalLength (N.to_nat (N.size n)) n).
  { destruct (N.to_nat (N.size n)); simpl; [lia|]. destruct (n <? 10)%N; lia. }
  unfold decimalOfN. split; [|split; [|split]].
  - rewrite digitsOf_value. now apply N.mod_small.
  - apply digitsOf_isDigit.
  - intros E. apply (f_equal (@length _)) in E.
    rewrite digitsOf_length in E. simpl in E. lia.
  - intros Hn. pose proof (decimalLength_least (N.to_nat (N.size n)) n Hn) as Hle.
    destruct (decimalLength (N.to_nat (N.size n)) n) as [|k]; [lia|].
    rewrite digitsOf_head. replace (S k - 1) with k in Hle by lia.
    rewrite Nat2N.inj_succ, N.pow_succ_r' in Hlen.
    assert (Hq : (1 <= n / 10 ^ N.of_nat k < 10)%N).
    { split.
      - apply N.div_le_lower_bound; [apply N.pow_nonzero; discriminate | lia].
      - apply N.Div0.div_lt_upper_bound. lia. }
    rewrite N.mod_small by lia. unfold digitUnit, ZERO. lia.
Qed.

Lemma digits_prefix_unique (a a' x x' : jsstring) (c c' : code_unit) :
  forallb isDigit a = true -> forallb isDigit a' = true ->
  isDigit c = false -> isDigit c' = false ->
  a ++ c :: x = a' ++ c' :: x' -> a = a' /\ x = x'.
Proof.
  intros Ha Ha' Hc Hc'. revert a' Ha'.
  induction a as [|d a IH]; intros [|d' a'] Ha' E; cbn [app] in E.
  - injection E as _ E. now split.
  - injection E as E _. subst c. cbn [forallb] in Ha'.
    apply andb_prop in Ha' as [Hd _]. congruence.
  - injection E as E _. subst c'. cbn [forallb] in Ha.
    apply andb_prop in Ha as [Hd _]. congruence.
  - injection E as E1 E2. subst d'. cbn [forallb] in Ha, Ha'.
    apply andb_prop in Ha as [_ Ha]. apply andb_prop in Ha' as [_ Ha'].
    destruct (IH Ha a' Ha' E2) as [-> ->]. now split.
Qed.

Lemma decimalOfN_inj (n n' : nat) :
  decimalOfN (N.of_nat n) = decimalOfN (N.of_nat n') -> n = n'.
Proof.
  intros E. apply (f_equal digitsValue) in E.
  destruct (decimalOfN_reads_back (N.of_nat n)) as [E1 _].
  destruct (decimalOfN_reads_back (N.of_nat n')) as [E2 _].
  rewrite E1, E2 in E. now apply Nat2N.inj.
Qed.

(** X17: the message of a column-count failure identifies its three
    numbers.  Two messages are the same text only for the same row, the
    same number of fields and the same number of header names: the numbers
    are written in decimal, digits only, and are set apart by words. *)
Theorem mismatch_message_identifies (row observed expected : nat)
    (row' observed' expected' : nat) :
  App.mismatchMessage row observed expected
  = App.mismatchMessage row' observed' expected' ->
  row = row' /\ observed = observed' /\ expected = expected'.
Proof.
  unfold App.mismatchMessage. intros H. apply app_inv_head in H.
  change (lit " has ") with (32%N :: lit "has ") in H.
  rewrite <- !app_comm_cons in H.
  apply digits_prefix_unique in H;
    try apply decimalOfN_reads_back; try reflexivity.
  destruct H as [Hr H]. apply app_inv_head in H.
  change (lit " columns, but header has ")
    with (32%N :: lit "columns, but header has ") in H.
  rewrite <- !app_comm_cons in H.
  apply digits_prefix_unique in H;
    try apply decimalOfN_reads_back; try reflexivity.
  destruct H as [Ho H]. apply app_inv_head, app_inv_tail in H.
  split; [|split]; now apply decimalOfN_inj.
Qed.

Lemma mismatch_message_identifies_witness : 12 = 12 /\ 0 = 0 /\ 105 = 105.
Proof.
  apply (mismatch_message_identifies 12 0 105 12 0 105). reflexivity.
Defined.

Example message_numbers :
  App.mismatchMessage 12 0 105
  = lit "Row 12 has 0 columns, but header has 105 columns".
Proof. reflexivity. Qed.

(** ** A conversion and the events during its delay *)

Lemma waiting_step (p : View.page) (e : View.event) (csv : jsstring) :
  e <> View.TimerFires ->
  View.pending p = Some csv -> App.error (View.view p) = [] ->
  App.isLoading (View.view p) = true ->
  View.pending (View.step p e) = Some csv
  /\ App.error (View.view (View.step p e)) = []
  /\ App.isLoading (View.view (View.step p e)) = true.
Proof.
  intros Hne Hp He Hl.
  destruct e as [value| | |granted| |f|content|]; cbn [View.step].
  - now repeat split.
  - unfold View.convertDisabled. rewrite Hl. now repeat split.
  - now contradiction Hne.
  - destruct (View.showsActions (View.view p)); [|now repeat split].
    destruct granted; now repeat split.
  - destruct (View.showsActions (View.view p)); now repeat split.
  - unfold View.handleFileUpload.
    destruct f as [f|]; [destruct (streq _ _)|]; now repeat split.
  - destruct (existsb _ _); now repeat split.
  - now repeat split.
Qed.

Lemma waiting_preserved (during : list View.event) :
  ~ In View.TimerFires during ->
  forall (p : View.page) (csv : jsstring),
    View.pending p = Some csv -> App.error (View.view p) = [] ->
    App.isLoading (View.view p) = true ->
    View.pending (fold_left View.step during p) = Some csv
    /\ App.error (View.view (fold_left View.step during p)) = []
    /\ App.isLoading (View.view (fold_left View.step during p)) = true.
Proof.
  induction during as [|e during IH]; intros Hno p csv Hp He Hl; [now repeat split|].
  cbn [fold_left].
  destruct (waiting_step p e csv) as (Hp' & He' & Hl'); auto.
  - intros ->. apply Hno. now left.
  - apply IH; auto. intros H. apply Hno. now right.
Qed.

(** X18: a conversion works on the input as it was when Convert was
    clicked.  Whatever happens during the delay (edits, a reset, a file
    read, further clicks), when the timer fires the page shows the result
    for the text at the click: its output and no error, or its message and
    no output; the loading state ends. *)
Theorem conversion_uses_clicked_input (p : View.page) (during : list View.event) :
  View.convertDisabled (View.view p) = false ->
  ~ In View.TimerFires during ->
  let q := fold_left View.step
             (View.ClickConvert :: during ++ [View.TimerFires]) p in
  match App.csvToJson (App.csvInput (View.view p)) with
  | Ok out => App.jsonOutput (View.view q) = out /\ App.error (View.view q) = []
  | Throw err =>
      App.jsonOutput (View.view q) = [] /\ App.error (View.view q) = message err
  end
  /\ View.pending q = None
  /\ App.isLoading (View.view q) = false.
Proof.
  intros Hen Hno q. subst q.
  change (View.ClickConvert :: during ++ [View.TimerFires])
    with ([View.ClickConvert] ++ during ++ [View.TimerFires]).
  rewrite !fold_left_app.
  assert (H1 : fold_left View.step [View.ClickConvert] p
               = View.mkPage (View.handleParseStart (View.view p))
                   (Some (App.csvInput (View.view p))) (View.readers p)
                   (View.clipboard p) (View.downloads p)).
  { cbn [fold_left View.step]. now rewrite Hen. }
  rewrite H1. clear H1.
  set (p1 := View.mkPage _ _ _ _ _).
  destruct (waiting_preserved during Hno p1 (App.csvInput (View.view p))
              eq_refl eq_refl eq_refl) as (Hp & He & Hl).
  cbn [fold_left View.step]. rewrite Hp.
  unfold View.handleParseFinish. cbn [View.view View.pending].
  destruct (App.csvToJson (App.csvInput (View.view p))) as [out|err]; simpl.
  - now rewrite He.
  - now repeat split.
Qed.

Lemma conversion_uses_clicked_input_witness :
  App.jsonOutput (View.view (fold_left View.step
    (View.ClickConvert :: [View.Change (lit "edited"); View.ClickReset]
       ++ [View.TimerFires])
    (View.run [View.Change (lit "a
1")]))) = json "[
  {
    'a': 1
  }
]".
Proof.
  apply (conversion_uses_clicked_input (View.run [View.Change (lit "a
1")]) [View.Change (lit "edited"); View.ClickReset]).
  - reflexivity.
  - simpl. intuition discriminate.
Defined.

(** ** From a cell to the HTML *)

Lemma spanWhile_prefix (p : code_unit -> bool) (x y : jsstring) :
  forallb p x = true ->
  View.spanWhile p (x ++ y)
  = (x ++ fst (View.spanWhile p y), snd (View.spanWhile p y)).
Proof.
  induction x as [|c x IH]; intros H; cbn [app].
  - now destruct (View.spanWhile p y).
  - cbn [forallb] in H. apply andb_prop in H as [Hc Hx].
    cbn [View.spanWhile]. rewrite Hc, (IH Hx). reflexivity.
Qed.

Lemma spanWhile_stop (p : code_unit -> bool) (x : jsstring) (h : code_unit)
    (y : jsstring) :
  forallb p x = true -> p h = false ->
  View.spanWhile p (x ++ h :: y) = (x, h :: y).
Proof.
  intros Hx Hh. rewrite (spanWhile_prefix p x (h :: y) Hx).
  cbn [View.spanWhile]. rewrite Hh. cbn [fst snd]. now rewrite app_nil_r.
Qed.

Lemma spanWhile_class (p : code_unit -> bool) (s : jsstring) :
  forallb p (fst (View.spanWhile p s)) = true.
Proof.
  induction s as [|c s IH]; cbn [View.spanWhile]; [reflexivity|].
  destruct (p c) eqn:E; [|reflexivity].
  destruct (View.spanWhile p s) as [g t]. cbn [fst forallb] in *. now rewrite E.
Qed.

Lemma forallb_first_failure {A : Type} (p : A -> bool) (l : list A) :
  forallb p l = false ->
  exists x h y, l = x ++ h :: y /\ forallb p x = true /\ p h = false.
Proof.
  induction l as [|c l IH]; cbn [forallb]; [discriminate|].
  destruct (p c) eqn:E; cbn [andb]; intros H.
  - destruct (IH H) as (x & h & y & -> & Hx & Hh).
    exists (c :: x), h, y. cbn [forallb]. now rewrite E.
  - now exists [], c, l.
Qed.

Lemma notQuote_forallb (v : jsstring) :
  ~ In QUOTE v -> forallb View.notQuote v = true.
Proof.
  induction v as [|c v IH]; intros H; [reflexivity|]. cbn [forallb].
  rewrite IH by (intros H'; apply H; now right).
  unfold View.notQuote. destruct (N.eqb_spec c QUOTE) as [->|]; [|reflexivity].
  exfalso. apply H. now left.
Qed.

Lemma notQuote_false (c : code_unit) : View.notQuote c = false -> c = QUOTE.
Proof.
  unfold View.notQuote. now destruct (N.eqb_spec c QUOTE).
Qed.

Lemma isGuard_cases (c : code_unit) :
  isGuard c = true -> c = QUOTE \/ c = GREATER.
Proof.
  unfold isGuard. destruct (N.eqb_spec c QUOTE); [now left|].
  destruct (N.eqb_spec c GREATER); [now right | discriminate].
Qed.

Lemma guard_outside (a : jsstring) (c : code_unit) (y m rest : jsstring) :
  a ++ c :: y = m ++ rest -> isGuard c = true ->
  forallb (fun u => negb (isGuard u)) m = true -> length m <= length a.
Proof.
  revert m. induction a as [|h a IH]; intros [|u m] E Hc Hm; simpl in *; try lia.
  - injection E as -> _. rewrite Hc in Hm. discriminate.
  - injection E as _ E. apply andb_prop in Hm as [_ Hm].
    specialize (IH m E Hc Hm). lia.
Qed.

Lemma firstn_of_prefix {A : Type} (m rest a z : list A) :
  m ++ rest = a ++ z -> length m <= length a -> firstn (length m) a = m.
Proof.
  intros E Hl. apply (f_equal (firstn (length m))) in E.
  rewrite firstn_app, Nat.sub_diag, firstn_all, firstn_O, app_nil_r in E.
  rewrite firstn_app in E. replace (length m - length a) with 0 in E by lia.
  now rewrite firstn_O, app_nil_r in E.
Qed.

(** No match starts inside a run without double quote and colon. *)
Lemma replace_through (pattern : jsstring -> option View.matched)
    (replacement : jsstring -> jsstring) :
  keeps_run pattern replacement ->
  forall v b, ~ In QUOTE v -> ~ In COLON v ->
    View.replace pattern replacement 0 (v ++ b)
    = v ++ View.replace pattern replacement 0 b.
Proof.
  intros [Hs _]. induction v as [|h v IH]; intros b HQ HC; [reflexivity|].
  cbn [app]. rewrite replace_no_match.
  - rewrite IH; [reflexivity | |]; intros H; [apply HQ | apply HC]; now right.
  - destruct (pattern (h :: v ++ b)) as [[len g]|] eqn:E; [|reflexivity].
    exfalso. destruct (Hs _ _ _ _ E) as [->| ->]; [apply HQ | apply HC]; now left.
Qed.

(** One pass leaves the run whole, right after a guard, between the
    texts made from what stood before and after it. *)
Lemma replace_keeps_run (pattern : jsstring -> option View.matched)
    (replacement : jsstring -> jsstring) :
  keeps_match pattern replacement -> keeps_run pattern replacement ->
  forall v, v <> [] -> ~ In QUOTE v -> ~ In COLON v ->
  forall a k c b, isGuard c = true -> k <= length a ->
    exists a' c' b',
      isGuard c' = true
      /\ View.replace pattern replacement k (a ++ c :: v ++ b) = a' ++ c' :: v ++ b'
      /\ subsequence (skipn k a) a' /\ subsequence b b'.
Proof.
  intros Hm Hr v Hv HQ HC.
  assert (Hafter : forall b, subsequence b (View.replace pattern replacement 0 b)).
  { intros b. exact (replace_subsequence _ _ Hm b 0). }
  assert (Hhit : forall a c b len g, isGuard c = true ->
            pattern (a ++ c :: v ++ b) = Some (len, g) -> length a < len ->
            exists a' c' b',
              isGuard c' = true
              /\ replacement g
                 ++ View.replace pattern replacement (len - 1) (tl (a ++ c :: v ++ b))
                 = a' ++ c' :: v ++ b'
              /\ subsequence a a' /\ subsequence b b').
  { intros a c b len g Hc E Hlen.
    destruct (proj2 Hr a c v b len g Hc Hv HQ HC E)
      as [Hle|[(-> & x & c' & ER & Hc' & Hax)
              |(x & c' & y & m & rest & Hc' & -> & -> & ER & Hax & Hmy)]].
    - lia.
    - exists x, c', (View.replace pattern replacement 0 b).
      split; [exact Hc'|]. split; [|split; [exact Hax | apply Hafter]].
      rewrite ER, <- app_assoc. cbn [app]. do 2 f_equal.
      replace (tl (a ++ c :: v ++ b)) with (tl (a ++ [c]) ++ v ++ b)
        by (destruct a; cbn [app tl]; [reflexivity | now rewrite <- app_assoc]).
      replace (S (length a) - 1) with (length (tl (a ++ [c])))
        by (destruct a; cbn [app tl length]; [reflexivity|];
            rewrite length_app; simpl; lia).
      rewrite replace_skip. now apply replace_through.
    - exists x, c', (y ++ View.replace pattern replacement 0 rest).
      split; [exact Hc'|]. split; [|split; [exact Hax|]].
      + rewrite ER, <- app_assoc. cbn [app]. rewrite <- app_assoc. do 4 f_equal.
        replace (tl (a ++ c :: v ++ m ++ rest))
          with (tl (a ++ c :: v ++ m) ++ rest)
          by (destruct a; cbn [app tl]; rewrite <- ?app_assoc; cbn [app];
              now rewrite <- ?app_assoc).
        replace (length a + 1 + length v + length m - 1)
          with (length (tl (a ++ c :: v ++ m)))
          by (destruct a; cbn [app tl length]; rewrite ?length_app; simpl;
              rewrite ?length_app; lia).
        now rewrite replace_skip.
      + apply subsequence_app; [exact Hmy | apply Hafter]. }
  induction a as [|h a IH]; intros k c b Hc Hk.
  - assert (k = 0) by (simpl in Hk; lia). subst k. cbn [app skipn].
    destruct (pattern (c :: v ++ b)) as [[len g]|] eqn:E.
    + rewrite (replace_match _ _ _ _ _ _ E).
      destruct (Hm _ _ _ E) as (_ & _ & _ & _ & Hpos & _).
      apply (Hhit [] c b len g Hc E). simpl. lia.
    + rewrite (replace_no_match _ _ _ _ E).
      exists [], c, (View.replace pattern replacement 0 b).
      split; [exact Hc|]. split; [|split; [constructor | apply Hafter]].
      cbn [app]. f_equal. now apply replace_through.
  - destruct k as [|k].
    + cbn [app skipn].
      destruct (pattern (h :: a ++ c :: v ++ b)) as [[len g]|] eqn:E.
      * rewrite (replace_match _ _ _ _ _ _ E).
        destruct (Hm _ _ _ E) as (m & rest & Es & Hl & Hpos & Hsub).
        destruct (Nat.le_gt_cases len (length (h :: a))) as [Hle|Hgt].
        -- destruct (IH (len - 1) c b Hc) as (a' & c' & b' & Hc' & ER & Ha & Hb).
           { simpl in Hle. lia. }
           exists (replacement g ++ a'), c', b'.
           split; [exact Hc'|]. split; [now rewrite ER, <- app_assoc|].
           split; [|exact Hb].
           rewrite <- (firstn_skipn len (h :: a)).
           apply subsequence_app.
           ++ subst len. change (h :: a ++ c :: v ++ b)
                with ((h :: a) ++ c :: v ++ b) in Es.
              now rewrite (firstn_of_prefix m rest (h :: a) _ (eq_sym Es) Hle).
           ++ destruct len as [|len]; [lia|]. cbn [skipn].
              now replace (S len - 1) with len in Ha by lia.
        -- apply (Hhit (h :: a) c b len g Hc E Hgt).
      * rewrite (replace_no_match _ _ _ _ E).
        destruct (IH 0 c b Hc) as (a' & c' & b' & Hc' & ER & Ha & Hb); [lia|].
        exists (h :: a'), c', b'. split; [exact Hc'|].
        split; [cbn [app]; now rewrite ER|]. split; [|exact Hb].
        constructor. exact Ha.
    + cbn [app View.replace skipn]. apply IH; [exact Hc | simpl in Hk; lia].
Qed.

Lemma afterPrefix_cons (a : code_unit) (p : jsstring) (b : code_unit)
    (s : jsstring) :
  View.afterPrefix (a :: p) (b :: s)
  = if N.eqb a b then View.afterPrefix p s else None.
Proof. reflexivity. Qed.

Lemma afterPrefix_nil (s : jsstring) : View.afterPrefix [] s = Some s.
Proof. reflexivity. Qed.

Lemma keyPattern_keeps_run : keeps_run View.keyPattern View.keyReplacement.
Proof.
  split.
  - intros h t len g H. unfold View.keyPattern in H. cbn [View.afterPrefix] in H.
    destruct (N.eqb_spec QUOTE h) as [<-|]; [now left | discriminate].
  - intros a c v b len g Hc Hv HQ HC H.
    pose proof (notQuote_forallb v HQ) as Hvq.
    unfold View.keyPattern in H. destruct a as [|h a].
    + cbn [app] in H. rewrite afterPrefix_cons in H.
      destruct (N.eqb_spec QUOTE c) as [<-|]; [|discriminate].
      rewrite afterPrefix_nil, (spanWhile_prefix _ v b Hvq) in H.
      pose proof (spanWhile_app View.notQuote b) as Eb.
      destruct (View.spanWhile View.notQuote b) as [g2 t2]. cbn [fst snd] in *.
      destruct (isEmpty (v ++ g2)); [discriminate|].
      destruct (View.afterPrefix [QUOTE; COLON] t2) as [r|] eqn:E3; [|discriminate].
      apply afterPrefix_Some in E3. injection H as <- <-.
      right. right.
      exists (View.html "<span class='json-key'>"), QUOTE,
        (g2 ++ View.html "'</span>:"), (g2 ++ [QUOTE; COLON]), r.
      split; [reflexivity|]. split; [now rewrite Eb, E3, <- app_assoc|].
      split; [rewrite !length_app; simpl; lia|].
      split; [|split; [constructor|]].
      * unfold View.keyReplacement.
        change (View.html "<span class='json-key'>'")
          with (View.html "<span class='json-key'>" ++ [QUOTE]).
        now rewrite <- !app_assoc.
      * apply subsequence_app; [apply subsequence_refl|].
        change (View.html "'</span>:") with ([QUOTE] ++ View.html "</span>" ++ [COLON]).
        change [QUOTE; COLON] with ([QUOTE] ++ [COLON]).
        apply subsequence_app; [apply subsequence_refl|].
        apply subsequence_prepend, subsequence_refl.
    + cbn [app] in H. rewrite afterPrefix_cons in H.
      destruct (N.eqb_spec QUOTE h) as [<-|]; [|discriminate].
      rewrite afterPrefix_nil in H.
      destruct (forallb View.notQuote a) eqn:Ha.
      * destruct (isGuard_cases c Hc) as [-> | ->].
        -- rewrite (spanWhile_stop _ a QUOTE (v ++ b) Ha eq_refl) in H.
           destruct (isEmpty a); [discriminate|].
           destruct v as [|h v]; [contradiction|].
           cbn [app View.afterPrefix] in H. rewrite N.eqb_refl in H.
           destruct (N.eqb_spec COLON h) as [<-|]; [|discriminate].
           exfalso. apply HC. now left.
        -- change (a ++ GREATER :: v ++ b) with (a ++ [GREATER] ++ v ++ b) in H.
           rewrite !app_assoc in H.
           rewrite (spanWhile_prefix _ ((a ++ [GREATER]) ++ v) b) in H
             by (rewrite !forallb_app, Ha, Hvq; reflexivity).
           pose proof (spanWhile_app View.notQuote b) as Eb.
           destruct (View.spanWhile View.notQuote b) as [g2 t2]. cbn [fst snd] in *.
           destruct (isEmpty (((a ++ [GREATER]) ++ v) ++ g2)); [discriminate|].
           destruct (View.afterPrefix [QUOTE; COLON] t2) as [r|] eqn:E3;
             [|discriminate].
           apply afterPrefix_Some in E3. injection H as <- <-.
           right. right.
           exists (View.html "<span class='json-key'>'" ++ a), GREATER,
             (g2 ++ View.html "'</span>:"), (g2 ++ [QUOTE; COLON]), r.
           split; [reflexivity|]. split; [now rewrite Eb, E3, <- app_assoc|].
           split; [rewrite !length_app; simpl; lia|].
           split; [|split].
           ++ unfold View.keyReplacement. now rewrite <- !app_assoc.
           ++ change (View.html "<span class='json-key'>'")
                with (View.html "<span class='json-key'>" ++ [QUOTE]).
              rewrite <- app_assoc. apply subsequence_prepend, subsequence_refl.
           ++ apply subsequence_app; [apply subsequence_refl|].
              change (View.html "'</span>:")
                with ([QUOTE] ++ View.html "</span>" ++ [COLON]).
              change [QUOTE; COLON] with ([QUOTE] ++ [COLON]).
              apply subsequence_app; [apply subsequence_refl|].
              apply subsequence_prepend, subsequence_refl.
      * apply forallb_first_failure in Ha as (x0 & h0 & y0 & -> & Hx & Hh).
        apply notQuote_false in Hh. subst h0.
        rewrite <- app_assoc in H. cbn [app] in H.
        rewrite (spanWhile_stop _ x0 QUOTE _ Hx eq_refl) in H.
        destruct (isEmpty x0); [discriminate|].
        cbn [View.afterPrefix] in H. rewrite N.eqb_refl in H.
        destruct y0 as [|h1 y0]; cbn [app] in H.
        -- destruct (N.eqb_spec COLON c) as [<-|]; [discriminate | discriminate].
        -- destruct (N.eqb COLON h1); [|discriminate]. injection H as <- <-.
           left. simpl. rewrite length_app. simpl. lia.
Qed.

Lemma stringPattern_keeps_run : keeps_run View.stringPattern View.stringReplacement.
Proof.
  split.
  - intros h t len g H. unfold View.stringPattern in H.
    rewrite afterPrefix_cons in H.
    destruct (N.eqb_spec COLON h) as [<-|]; [now right | discriminate].
  - intros a c v b len g Hc Hv HQ HC H.
    pose proof (notQuote_forallb v HQ) as Hvq.
    assert (Hnc : N.eqb COLON c = false /\ N.eqb SPACE c = false).
    { destruct (isGuard_cases c Hc) as [-> | ->]; now split. }
    destruct Hnc as [Hnc Hns].
    unfold View.stringPattern in H.
    destruct a as [|h1 [|h2 [|h3 a]]]; cbn [app] in H.
    + rewrite afterPrefix_cons, Hnc in H. discriminate.
    + rewrite !afterPrefix_cons, Hns in H.
      destruct (N.eqb COLON h1); discriminate.
    + rewrite !afterPrefix_cons, afterPrefix_nil in H.
      destruct (N.eqb_spec COLON h1) as [<-|]; [|discriminate].
      destruct (N.eqb_spec SPACE h2) as [<-|]; [|discriminate].
      destruct (N.eqb_spec QUOTE c) as [<-|]; [|discriminate].
      rewrite (spanWhile_prefix _ v b Hvq) in H.
      pose proof (spanWhile_app View.notQuote b) as Eb.
      destruct (View.spanWhile View.notQuote b) as [g2 t2]. cbn [fst snd] in *.
      destruct (View.afterPrefix [QUOTE] t2) as [r|] eqn:E3; [|discriminate].
      apply afterPrefix_Some in E3. injection H as <- <-.
      right. right.
      exists (View.html ": <span class='json-string'>"), QUOTE,
        (g2 ++ View.html "'</span>"), (g2 ++ [QUOTE]), r.
      split; [reflexivity|]. split; [now rewrite Eb, E3, <- app_assoc|].
      split; [rewrite !length_app; simpl; lia|].
      split; [|split].
      * unfold View.stringReplacement.
        change (View.html ": <span class='json-string'>'")
          with (View.html ": <span class='json-string'>" ++ [QUOTE]).
        now rewrite <- !app_assoc.
      * change (View.html ": <span class='json-string'>")
          with ([COLON; SPACE] ++ View.html "<span class='json-string'>").
        apply subsequence_extend.
      * apply subsequence_app; [apply subsequence_refl|].
        change (View.html "'</span>") with ([QUOTE] ++ View.html "</span>").
        apply subsequence_extend.
    + rewrite !afterPrefix_cons, afterPrefix_nil in H.
      destruct (N.eqb_spec COLON h1) as [<-|]; [|discriminate].
      destruct (N.eqb_spec SPACE h2) as [<-|]; [|discriminate].
      destruct (N.eqb_spec QUOTE h3) as [<-|]; [|discriminate].
      assert (Hpre : subsequence (COLON :: SPACE :: QUOTE :: a)
                       (View.html ": <span class='json-string'>'" ++ a)).
      { change (COLON :: SPACE :: QUOTE :: a) with ([COLON; SPACE] ++ [QUOTE] ++ a).
        change (View.html ": <span class='json-string'>'")
          with ([COLON; SPACE] ++ View.html "<span class='json-string'>" ++ [QUOTE]).
        rewrite <- !app_assoc.
        apply subsequence_app; [apply subsequence_refl|].
        apply subsequence_prepend, subsequence_refl. }
      destruct (forallb View.notQuote a) eqn:Ha.
      * destruct (isGuard_cases c Hc) as [-> | ->].
        -- rewrite (spanWhile_stop _ a QUOTE (v ++ b) Ha eq_refl) in H.
           rewrite afterPrefix_cons, N.eqb_refl, afterPrefix_nil in H.
           injection H as <- <-. right. left.
           split; [simpl; lia|].
           exists (View.html ": <span class='json-string'>'" ++ a
                   ++ View.html "'</span"), GREATER.
           split; [|split; [reflexivity|]].
           ++ unfold View.stringReplacement.
              change (View.html "'</span>") with (View.html "'</span" ++ [GREATER]).
              now rewrite <- !app_assoc.
           ++ rewrite app_assoc. eapply subsequence_trans; [exact Hpre|].
              apply subsequence_extend.
        -- change (a ++ GREATER :: v ++ b) with (a ++ [GREATER] ++ v ++ b) in H.
           rewrite !app_assoc in H.
           rewrite (spanWhile_prefix _ ((a ++ [GREATER]) ++ v) b) in H
             by (rewrite !forallb_app, Ha, Hvq; reflexivity).
           pose proof (spanWhile_app View.notQuote b) as Eb.
           destruct (View.spanWhile View.notQuote b) as [g2 t2]. cbn [fst snd] in *.
           destruct (View.afterPrefix [QUOTE] t2) as [r|] eqn:E3; [|discriminate].
           apply afterPrefix_Some in E3. injection H as <- <-.
           right. right.
           exists (View.html ": <span class='json-string'>'" ++ a), GREATER,
             (g2 ++ View.html "'</span>"), (g2 ++ [QUOTE]), r.
           split; [reflexivity|]. split; [now rewrite Eb, E3, <- app_assoc|].
           split; [rewrite !length_app; simpl; lia|].
           split; [|split; [exact Hpre|]].
           ++ unfold View.stringReplacement. now rewrite <- !app_assoc.
           ++ apply subsequence_app; [apply subsequence_refl|].
              change (View.html "'</span>") with ([QUOTE] ++ View.html "</span>").
              apply subsequence_extend.
      * apply forallb_first_failure in Ha as (x0 & h0 & y0 & -> & Hx & Hh).
        apply notQuote_false in Hh. subst h0.
        rewrite <- app_assoc in H. cbn [app] in H.
        rewrite (spanWhile_stop _ x0 QUOTE _ Hx eq_refl) in H.
        rewrite afterPrefix_cons, N.eqb_refl, afterPrefix_nil in H.
        injection H as <- <-. left. simpl. rewrite length_app. simpl. lia.
Qed.

Lemma digit_not_guard (g : jsstring) :
  forallb isDigit g = true -> forallb (fun u => negb (isGuard u)) g = true.
Proof.
  induction g as [|d g IH]; cbn [forallb]; [reflexivity|].
  intros H. apply andb_prop in H as [Hd Hg]. rewrite (IH Hg), andb_true_r.
  unfold isDigit in Hd. apply andb_prop in Hd as [H1 H2].
  apply N.leb_le in H1, H2. unfold isGuard, QUOTE, GREATER.
  destruct (N.eqb_spec d 34); [lia|]. destruct (N.eqb_spec d 62); [lia|].
  reflexivity.
Qed.

(** A pattern whose matches hold no guard leaves guard and run alone. *)
Lemma guardless_keeps_run (pattern : jsstring -> option View.matched)
    (replacement : jsstring -> jsstring) :
  (forall s len g, pattern s = Some (len, g) ->
     exists m rest, s = COLON :: m ++ rest /\ len = S (length m)
                    /\ forallb (fun u => negb (isGuard u)) m = true) ->
  keeps_run pattern replacement.
Proof.
  intros Hp. split.
  - intros h t len g H. destruct (Hp _ _ _ H) as (m & rest & E & _).
    injection E as -> _. now right.
  - intros a c v b len g Hc _ _ _ H. left.
    destruct (Hp _ _ _ H) as (m & rest & E & -> & Hm).
    change (COLON :: m ++ rest) with ((COLON :: m) ++ rest) in E.
    apply (guard_outside a c (v ++ b) (COLON :: m) rest E Hc).
    cbn [forallb]. now rewrite Hm.
Qed.

Lemma numberPattern_keeps_run : keeps_run View.numberPattern View.numberReplacement.
Proof.
  apply guardless_keeps_run. intros s len g H. unfold View.numberPattern in H.
  destruct (View.afterPrefix [COLON; SPACE] s) as [t|] eqn:E1; [|discriminate].
  apply afterPrefix_Some in E1. pose proof (spanWhile_app isDigit t) as E2.
  pose proof (spanWhile_class isDigit t) as E3.
  destruct (View.spanWhile isDigit t) as [g' t']. cbn [fst snd] in *.
  destruct (isEmpty g'); [discriminate|]. injection H as <- <-.
  exists (SPACE :: g'), t'. subst s t.
  split; [reflexivity|]. split; [simpl; lia|].
  cbn [forallb]. now rewrite (digit_not_guard g' E3).
Qed.

Lemma booleanPattern_keeps_run :
  keeps_run View.booleanPattern View.booleanReplacement.
Proof.
  apply guardless_keeps_run. intros s len g H. unfold View.booleanPattern in H.
  destruct (View.afterPrefix (lit ": true") s) as [t|] eqn:E1.
  - apply afterPrefix_Some in E1. injection H as <- <-.
    exists (lit " true"), t. now subst s.
  - destruct (View.afterPrefix (lit ": false") s) as [t|] eqn:E2; [|discriminate].
    apply afterPrefix_Some in E2. injection H as <- <-.
    exists (lit " false"), t. now subst s.
Qed.

Lemma nullPattern_keeps_run : keeps_run View.nullPattern View.nullReplacement.
Proof.
  apply guardless_keeps_run. intros s len g H. unfold View.nullPattern in H.
  destruct (View.afterPrefix (lit ": null") s) as [t|] eqn:E1; [|discriminate].
  apply afterPrefix_Some in E1. injection H as <- <-.
  exists (lit " null"), t. now subst s.
Qed.

(** The five passes leave the run whole. *)
Lemma highlighting_keeps_run (v : jsstring) :
  v <> [] -> ~ In QUOTE v -> ~ In COLON v ->
  forall a c b, isGuard c = true ->
    exists a' c' b',
      isGuard c' = true
      /\ View.formatJsonWithSyntaxHighlighting (a ++ c :: v ++ b)
         = a' ++ c' :: v ++ b'
      /\ subsequence a a' /\ subsequence b b'.
Proof.
  intros Hv HQ HC a c b Hc. unfold View.formatJsonWithSyntaxHighlighting.
  destruct (replace_keeps_run _ _ keyPattern_keeps keyPattern_keeps_run
              v Hv HQ HC a 0 c b Hc (Nat.le_0_l _))
    as (a1 & c1 & b1 & Hc1 & -> & Ha1 & Hb1).
  destruct (replace_keeps_run _ _ stringPattern_keeps stringPattern_keeps_run
              v Hv HQ HC a1 0 c1 b1 Hc1 (Nat.le_0_l _))
    as (a2 & c2 & b2 & Hc2 & -> & Ha2 & Hb2).
  destruct (replace_keeps_run _ _ numberPattern_keeps numberPattern_keeps_run
              v Hv HQ HC a2 0 c2 b2 Hc2 (Nat.le_0_l _))
    as (a3 & c3 & b3 & Hc3 & -> & Ha3 & Hb3).
  destruct (replace_keeps_run _ _ booleanPattern_keeps booleanPattern_keeps_run
              v Hv HQ HC a3 0 c3 b3 Hc3 (Nat.le_0_l _))
    as (a4 & c4 & b4 & Hc4 & -> & Ha4 & Hb4).
  destruct (replace_keeps_run _ _ nullPattern_keeps nullPattern_keeps_run
              v Hv HQ HC a4 0 c4 b4 Hc4 (Nat.le_0_l _))
    as (a5 & c5 & b5 & Hc5 & -> & Ha5 & Hb5).
  exists a5, c5, b5. split; [exact Hc5|]. split; [reflexivity|].
  cbn [skipn] in *. split.
  - eauto using subsequence_trans.
  - eauto using subsequence_trans.
Qed.

Lemma quoteUnit_plain (c : code_unit) : isPlainUnit c = true -> quoteUnit c = [c].
Proof.
  unfold isPlainUnit, quoteUnit. intros H.
  repeat (apply andb_true_iff in H as [H ?]).
  apply N.leb_le in H.
  repeat match goal with
         | Hn : negb _ = true |- _ => apply negb_true_iff in Hn
         end.
  destruct (N.eqb_spec c 8); [lia|]. destruct (N.eqb_spec c 9); [lia|].
  destruct (N.eqb_spec c 10); [lia|]. destruct (N.eqb_spec c 12); [lia|].
  destruct (N.eqb_spec c 13); [lia|].
  destruct (N.eqb_spec c 34); [subst; discriminate|].
  destruct (N.eqb_spec c 92); [subst; discriminate|].
  destruct (N.ltb_spec c 32); [lia|].
  match goal with
  | H1 : isLeadingSurrogate c = false, H2 : isTrailingSurrogate c = false |- _ =>
      now rewrite H1, H2
  end.
Qed.

Lemma isPlainUnit_not_leading (c : code_unit) :
  isPlainUnit c = true -> isLeadingSurrogate c = false.
Proof.
  unfold isPlainUnit. intros H. repeat (apply andb_true_iff in H as [H ?]).
  repeat match goal with
         | Hn : negb _ = true |- _ => apply negb_true_iff in Hn
         end.
  assumption.
Qed.

Lemma isPlainUnit_not_quote (v : jsstring) :
  forallb isPlainUnit v = true -> ~ In QUOTE v.
Proof.
  induction v as [|c v IH]; cbn [forallb]; intros H; [intros []|].
  apply andb_prop in H as [Hc Hv]. intros [E|Hin]; [subst c; discriminate|].
  now apply IH.
Qed.

(** A text of plain units is written between its quotes as it is. *)
Lemma QuoteJSONString_plain (v : jsstring) :
  forallb isPlainUnit v = true -> QuoteJSONString v = QUOTE :: v ++ [QUOTE].
Proof.
  intros H. unfold QuoteJSONString. cbn [app]. do 2 f_equal.
  induction v as [|c v IH]; [reflexivity|].
  cbn [forallb] in H. apply andb_prop in H as [Hc Hv].
  cbn [quoteUnits]. destruct v as [|d v].
  - now apply quoteUnit_plain.
  - rewrite (isPlainUnit_not_leading c Hc). cbn [andb].
    rewrite (quoteUnit_plain c Hc), (IH Hv). reflexivity.
Qed.

Lemma join_part (sep : jsstring) (parts : list jsstring) (p : jsstring) :
  In p parts -> exists x y, join sep parts = x ++ p ++ y.
Proof.
  induction parts as [|q [|q' parts] IH]; intros Hp.
  - contradiction.
  - destruct Hp as [->|[]]. exists [], []. now rewrite app_nil_r.
  - change (join sep (q :: q' :: parts)) with (q ++ sep ++ join sep (q' :: parts)).
    destruct Hp as [->|Hp].
    + now exists [], (sep ++ join sep (q' :: parts)).
    + destruct (IH Hp) as (x & y & ->). exists (q ++ sep ++ x), y.
      now rewrite <- !app_assoc.
Qed.

(** The document holds each string value between quotes, after the colon
    and the space of its member. *)
Lemma layoutDocument_value (doc : list object) (o : object) (k v : jsstring) :
  In o doc -> In (k, VString v) (props o) ->
  exists x y, layoutDocument doc = x ++ QuoteJSONString v ++ y.
Proof.
  intros Ho He. unfold layoutDocument.
  destruct (join_part [COMMA; LF] (List.map layoutRecord doc) (layoutRecord o))
    as (x1 & y1 & ->); [now apply in_map|].
  apply ownEntries_In in He. unfold layoutRecord.
  destruct (ownEntries o) as [|e es] eqn:E; [contradiction|].
  change (isEmpty (e :: es)) with false. cbv iota.
  destruct (join_part [COMMA; LF] (List.map layoutMember (e :: es))
              (layoutMember (k, VString v)))
    as (x2 & y2 & ->); [now apply in_map|].
  unfold layoutMember. cbn [fst snd SerializeJSONValue].
  exists (lit "[" ++ [LF] ++ x1 ++ lit "  {" ++ [LF] ++ x2 ++ lit "    "
          ++ QuoteJSONString k ++ lit ": "),
    (y2 ++ [LF] ++ lit "  }" ++ y1 ++ [LF] ++ lit "]").
  now rewrite <- !app_assoc.
Qed.

Lemma string_value_not_empty (csv : jsstring) (doc : list object) (o : object)
    (k v : jsstring) :
  App.csvToRecords csv = Ok doc -> In o doc -> In (k, VString v) (props o) ->
  v <> [].
Proof.
  intros Hd Ho He. apply csvToRecords_Ok in Hd as (-> & _).
  apply in_map_iff in Ho as (line & <- & _).
  apply recordOf_In in He as (_ & cell & Hv). symmetry in Hv.
  now apply coerce_string in Hv as (-> & Hne & _).
Qed.

(** X3: the text of a cell reaches the HTML as it was typed.  A string
    value without a colon, made of units that JSON writes as they are,
    stands between its quotes in the output, and in the HTML text handed
    to [dangerouslySetInnerHTML] it stands whole and unescaped, between
    the text made from what precedes it in the output and the text made
    from what follows it.  Markup inside such a cell is markup of the
    page. *)
Theorem cell_markup_reaches_html (csv : jsstring) (doc : list object)
    (o : object) (k v : jsstring) :
  App.csvToRecords csv = Ok doc ->
  In o doc -> In (k, VString v) (props o) ->
  forallb isPlainUnit v = true -> ~ In COLON v ->
  exists out before after before' after',
    App.csvToJson csv = Ok out
    /\ out = before ++ QUOTE :: v ++ QUOTE :: after
    /\ View.formatJsonWithSyntaxHighlighting out = before' ++ v ++ after'
    /\ subsequence before before' /\ subsequence after after'.
Proof.
  intros Hd Ho He Hp HC.
  pose proof (string_value_not_empty csv doc o k v Hd Ho He) as Hv.
  pose proof (isPlainUnit_not_quote v Hp) as HQ.
  destruct (layoutDocument_value doc o k v Ho He) as (x & y & Eout).
  rewrite (QuoteJSONString_plain v Hp) in Eout.
  cbn [app] in Eout. rewrite <- app_assoc in Eout. cbn [app] in Eout.
  destruct (highlighting_keeps_run v Hv HQ HC x QUOTE (QUOTE :: y) eq_refl)
    as (a' & c' & b' & _ & EH & Ha & Hb).
  exists (layoutDocument doc), x, y, (a' ++ [c']), b'.
  split; [now apply csvToJson_layout|]. split; [exact Eout|].
  split; [|split].
  - rewrite Eout, EH, <- app_assoc. reflexivity.
  - eapply subsequence_trans; [exact Ha | apply subsequence_extend].
  - eapply subsequence_trans; [|exact Hb]. constructor. apply subsequence_refl.
Qed.

Lemma cell_markup_reaches_html_witness :
  exists out before after before' after',
    App.csvToJson (lit "note
<img src=x onerror=alert(1)>") = Ok out
    /\ out = before ++ QUOTE :: lit "<img src=x onerror=alert(1)>" ++ QUOTE :: after
    /\ View.formatJsonWithSyntaxHighlighting out
       = before' ++ lit "<img src=x onerror=alert(1)>" ++ after'
    /\ subsequence before before' /\ subsequence after after'.
Proof.
  apply (cell_markup_reaches_html (lit "note
<img src=x onerror=alert(1)>")
           [mkObject true [(lit "note", VString (lit "<img src=x onerror=alert(1)>"))]]
           (mkObject true [(lit "note", VString (lit "<img src=x onerror=alert(1)>"))])
           (lit "note") (lit "<img src=x onerror=alert(1)>")).
  - reflexivity.
  - now left.
  - now left.
  - reflexivity.
  - simpl. intuition discriminate.
Defined.

Example injected_markup :
  option_map View.formatJsonWithSyntaxHighlighting
    (match App.csvToJson (lit "note
<img src=x onerror=alert(1)>") with Ok out => Some out | Throw _ => None end)
  = Some (View.html "[
  {
    <span class='json-key'>'note'</span>: <span class='json-string'>'<img src=x onerror=alert(1)>'</span>
  }
]").
Proof. reflexivity. Qed.
